(** * HeraldStack: the local ingest / ask scripts

    A shallow embedding of [scripts/ingest_local.py] and
    [scripts/ask_local.py].  Both scripts talk to the outside world
    (filesystem, the embedding and chat services over HTTP, the faiss
    library).  Every such call is made explicit: the answers of the world
    are inputs of the model, and each call the script makes is appended to
    a trace of events, so that what a run asked for, wrote and printed can
    be stated and proved. *)

From Stdlib Require Import String Ascii.
From Stdlib Require Import ZArith NArith List Bool Lia Permutation Sorted.
From Stdlib.Strings Require Import Byte.
From Stdlib Require Import DecimalString.
Import ListNotations.

Set Implicit Arguments.

(** ** Python values *)

Module Py.

(** A Python [str] is a sequence of Unicode code points. *)
Definition codepoint := N.
Definition pystr := list codepoint.

(** A string literal of the source (ASCII only). *)
Definition lit (s : string) : pystr :=
  map N_of_ascii (list_ascii_of_string s).

Definition str_eqb (a b : pystr) : bool :=
  if list_eq_dec N.eq_dec a b then true else false.

(** [str.lower()].  Only the ASCII part of the case mapping is written
    out: the scripts compare the result with [".md"] and [".json"], and
    the only code points whose lower-case form is one of the letters
    m, d, j, s, o, n are the ASCII capitals. *)
Definition lower_cp (c : codepoint) : codepoint :=
  if ((65 <=? c) && (c <=? 90))%N then (c + 32)%N else c.

Definition lower (s : pystr) : pystr := map lower_cp s.

(** [sep.join(parts)] *)
Fixpoint join (sep : pystr) (parts : list pystr) : pystr :=
  match parts with
  | [] => []
  | [p] => p
  | p :: rest => p ++ sep ++ join sep rest
  end.

(** [s[:n]] on a string or list. *)
Definition slice_to {A} (n : nat) (s : list A) : list A := firstn n s.
Arguments slice_to : simpl never.

(** Truthiness of a string or list: empty is false. *)
Definition truthy {A} (s : list A) : bool :=
  match s with [] => false | _ => true end.

(** [a or b] on strings. *)
Definition or_else (a b : pystr) : pystr := if truthy a then a else b.

(** The exceptions the two scripts can meet. *)
Inductive exn : Type :=
| ConnectionError      (* requests.exceptions.ConnectionError *)
| Timeout              (* requests.exceptions.Timeout *)
| HTTPError            (* requests.exceptions.HTTPError, from raise_for_status *)
| JSONDecodeError      (* requests.exceptions.JSONDecodeError, from r.json() *)
| KeyError
| ValueError
| TypeError
| IndexError
| AssertionError
| FileNotFoundError
| PermissionError
| IsADirectoryError.

(** [except requests.exceptions.RequestException] *)
Definition is_RequestException (e : exn) : bool :=
  match e with
  | ConnectionError | Timeout | HTTPError | JSONDecodeError => true
  | _ => false
  end.

(** [except (KeyError, ValueError, json.JSONDecodeError)] *)
Definition is_KeyValueJson (e : exn) : bool :=
  match e with
  | KeyError | ValueError | JSONDecodeError => true
  | _ => false
  end.

(** [except Exception]: every exception of the model is one. *)
Definition is_Exception (e : exn) : bool := true.

Inductive result (A : Type) : Type :=
| Ok (a : A)
| Raise (e : exn).
Arguments Ok {A} a.
Arguments Raise {A} e.

(** [l[i]] for a Python list and a (possibly negative) integer index. *)
Definition getitem {A} (l : list A) (i : Z) : result A :=
  let n := Z.of_nat (length l) in
  let j := (if i <? 0 then i + n else i)%Z in
  if ((0 <=? j) && (j <? n))%Z then
    match nth_error l (Z.to_nat j) with
    | Some a => Ok a
    | None => Raise IndexError
    end
  else Raise IndexError.

(** *** Text files

    [Path.read_text(encoding="utf-8", errors="ignore")] decodes the bytes
    of the file as UTF-8, drops whatever does not decode, and (text mode)
    turns the line ends CR LF and CR into LF. *)

Definition is_cont (b : N) : bool := ((128 <=? b) && (b <=? 191))%N.

(** Is [b1] an admissible second byte after the lead byte [b0] of a three
    or four byte sequence?  (No overlong forms, no surrogates, nothing
    above U+10FFFF.) *)
Definition second_ok (b0 b1 : N) : bool :=
  (if b0 =? 224 then (160 <=? b1) && (b1 <=? 191)
   else if b0 =? 237 then (128 <=? b1) && (b1 <=? 159)
   else if b0 =? 240 then (144 <=? b1) && (b1 <=? 191)
   else if b0 =? 244 then (128 <=? b1) && (b1 <=? 143)
   else is_cont b1)%N.

(** An ill-formed sequence loses its lead byte and decoding resumes at the
    next byte; the continuation bytes CPython would skip together with
    the lead are dropped one by one, being no lead bytes themselves. *)
Fixpoint utf8_decode (bs : list byte) : pystr :=
  match bs with
  | [] => []
  | b0 :: r0 =>
    let n0 := Byte.to_N b0 in
    if (n0 <? 128)%N then n0 :: utf8_decode r0
    else if ((194 <=? n0) && (n0 <=? 223))%N then
      match r0 with
      | b1 :: r1 =>
        let n1 := Byte.to_N b1 in
        if is_cont n1
        then ((n0 - 192) * 64 + (n1 - 128))%N :: utf8_decode r1
        else utf8_decode r0
      | [] => []
      end
    else if ((224 <=? n0) && (n0 <=? 239))%N then
      match r0 with
      | b1 :: b2 :: r2 =>
        let n1 := Byte.to_N b1 in
        let n2 := Byte.to_N b2 in
        if second_ok n0 n1 && is_cont n2
        then ((n0 - 224) * 4096 + (n1 - 128) * 64 + (n2 - 128))%N
               :: utf8_decode r2
        else utf8_decode r0
      | _ => utf8_decode r0
      end
    else if ((240 <=? n0) && (n0 <=? 244))%N then
      match r0 with
      | b1 :: b2 :: b3 :: r3 =>
        let n1 := Byte.to_N b1 in
        let n2 := Byte.to_N b2 in
        let n3 := Byte.to_N b3 in
        if second_ok n0 n1 && is_cont n2 && is_cont n3
        then ((n0 - 240) * 262144 + (n1 - 128) * 4096
              + (n2 - 128) * 64 + (n3 - 128))%N :: utf8_decode r3
        else utf8_decode r0
      | _ => utf8_decode r0
      end
    else utf8_decode r0
  end.

(** Universal newlines of text mode. *)
Fixpoint translate_newlines (s : pystr) : pystr :=
  match s with
  | [] => []
  | c :: r =>
    if (c =? 13)%N then
      10%N :: match r with
              | c' :: r' =>
                if (c' =? 10)%N then translate_newlines r'
                else translate_newlines r
              | [] => []
              end
    else c :: translate_newlines r
  end.

Definition decode_text (bs : list byte) : pystr :=
  translate_newlines (utf8_decode bs).

(** Number of bytes of the UTF-8 form of a code point and of a string. *)
Definition utf8_width (c : codepoint) : nat :=
  if (c <? 128)%N then 1
  else if (c <? 2048)%N then 2
  else if (c <? 65536)%N then 3
  else 4.

Definition utf8_size (s : pystr) : nat :=
  fold_right (fun c n => utf8_width c + n) 0 s.

End Py.

(** ** pathlib *)

Module PathLib.
Import Py.

(** An absolute POSIX path is the list of its components below the root
    directory: [/home/u/HARALD/a.md] is [["home"; "u"; "HARALD"; "a.md"]]. *)
Definition path := list pystr.

(** [p / name] *)
Definition div (p : path) (name : pystr) : path := p ++ [name].

(** [p.name] *)
Definition name (p : path) : pystr := last p [].

(** [s[i:]] where [i = s.rfind(".")], when there is a dot. *)
Fixpoint from_last_dot (s : pystr) : option pystr :=
  match s with
  | [] => None
  | c :: r =>
    match from_last_dot r with
    | Some t => Some t
    | None => if (c =? 46)%N then Some s else None
    end
  end.

(** [p.suffix]: with [i = name.rfind(".")], the text [name[i:]] when
    [0 < i < len(name) - 1], and the empty string otherwise. *)
Definition suffix (p : path) : pystr :=
  match name p with
  | [] => []
  | _ :: r =>
    match from_last_dot r with
    | Some t => if (2 <=? List.length t)%nat then t else []
    | None => []
    end
  end.

(** [str(p)] *)
Definition str (p : path) : pystr :=
  match p with
  | [] => [47%N]
  | _ => flat_map (fun c => 47%N :: c) p
  end.

End PathLib.

(** ** requests *)

Module Http.
Import Py.

Record chat_message : Type := { role : pystr; content : pystr }.

(** The [json=] argument of a request. *)
Inductive payload : Type :=
| EmbeddingsPayload (model prompt : pystr) (stream : bool)
| ChatPayload (model : pystr) (messages : list chat_message) (stream : bool).

(** One call of [requests.post(url, json=..., timeout=...)]; [None] is
    the library's default of waiting without limit. *)
Record request : Type :=
  { url : pystr; json : payload; timeout : option Z }.

(** What the service does with a request: it cannot be reached, or it
    answers with a status and a body, [latency] seconds being the longest
    the client has to wait on the connection for it. *)
Inductive reply (B : Type) : Type :=
| Unreachable
| Answer (latency : Z) (status : Z) (body : B).
Arguments Unreachable {B}.

Record response (B : Type) : Type :=
  { status_code : Z; body : B }.

(** The result of [requests.post] against a service that reacts with
    [w]: a request with a timeout gives up on an answer slower than it. *)
Definition post_result {B} (timeout : option Z) (w : reply B)
  : result (response B) :=
  match w with
  | Unreachable => Raise ConnectionError
  | Answer latency status b =>
    match timeout with
    | Some t =>
      if (t <? latency)%Z then Raise Timeout
      else Ok {| status_code := status; body := b |}
    | None => Ok {| status_code := status; body := b |}
    end
  end.

(** [r.raise_for_status()]: client and server errors raise. *)
Definition raise_for_status_result {B} (r : response B) : result unit :=
  if ((400 <=? status_code r) && (status_code r <? 600))%Z
  then Raise HTTPError else Ok tt.

(** Bodies of the chat service: not JSON at all; an object with or
    without a ["message"] object, itself with or without ["content"]; or
    JSON of another shape (a body that is not an object, a ["message"]
    that is not one), on which the subscripts of the script raise
    [TypeError]. *)
Inductive chat_body : Type :=
| ChatNotJson
| ChatObject (message : option (option pystr))
| ChatOther.

Section Embeddings.
Context {scalar : Type}.

(** The value under ["embedding"]: a sequence of numbers, which is what
    the service is there to send; or something numpy refuses to convert
    to float32, with [ValueError] (a list with a non-numeric string, a
    ragged list) or with [TypeError] (a JSON object, a list that holds
    one).  A single number and a list of lists, of which numpy makes an
    array of another rank, are not in this model. *)
Inductive embedding_value : Type :=
| Numbers (xs : list scalar)
| NonNumeric
| Mapping.

(** Bodies of the embeddings service: not JSON at all; a JSON object
    with or without the ["embedding"] field; a JSON array or string,
    which holds ["embedding"] (as an element, as a substring) or does
    not; or [null], a boolean or a number. *)
Inductive embeddings_body : Type :=
| EmbNotJson
| EmbObject (embedding : option embedding_value)
| EmbContainer (holds : bool)
| EmbAtom.

(** [r.json()] *)
Definition json_result (r : response embeddings_body)
  : result embeddings_body :=
  match body r with
  | EmbNotJson => Raise JSONDecodeError
  | data => Ok data
  end.

(** ["embedding" in data], for what [r.json()] has returned: the key
    test of a dict, the membership test of a list, the substring test of
    a string; the other values are not iterable. *)
Definition contains_embedding (data : embeddings_body) : result bool :=
  match data with
  | EmbObject (Some _) => Ok true
  | EmbObject None => Ok false
  | EmbContainer holds => Ok holds
  | EmbAtom => Raise TypeError
  | EmbNotJson => Raise JSONDecodeError
  end.

(** [data["embedding"]]: only a dict can be subscripted with a string. *)
Definition embedding_of (data : embeddings_body) : result embedding_value :=
  match data with
  | EmbObject (Some v) => Ok v
  | EmbObject None => Raise KeyError
  | EmbContainer _ | EmbAtom => Raise TypeError
  | EmbNotJson => Raise JSONDecodeError
  end.

(** [np.array(v, dtype=np.float32)] and [np.asarray(v, dtype=np.float32)] *)
Definition np_array_result (v : embedding_value) : result (list scalar) :=
  match v with
  | Numbers xs => Ok xs
  | NonNumeric => Raise ValueError
  | Mapping => Raise TypeError
  end.

End Embeddings.
Arguments embedding_value : clear implicits.
Arguments embeddings_body : clear implicits.

End Http.

(** ** numpy and faiss

    Numbers are kept abstract: the scripts never look inside a vector.
    The one place where their values matter is the search of the index,
    which depends on the library's float32 arithmetic through two
    parameters: [closer q x y], read "[x] is at most as far from [q] as
    [y]", and [finite q x], read "the distance of [x] to [q] is a number
    below the largest float", without which a row never enters a
    result. *)

Module Faiss.
Import Py.

Section Index.
Context {scalar : Type}.

Definition vec := list scalar.

(** [np.stack(arrays)] of one-dimensional arrays: they must all have the
    same length, and there must be one at least. *)
Definition np_stack (arrays : list vec) : result (list vec) :=
  match arrays with
  | [] => Raise ValueError
  | a :: rest =>
    if forallb (fun b => (List.length b =? List.length a)%nat) rest
    then Ok arrays else Raise ValueError
  end.

(** [vecs.shape[1]] of a stacked matrix. *)
Definition shape1 (vecs : list vec) : nat :=
  match vecs with
  | a :: _ => List.length a
  | [] => 0
  end.

(** A flat index: the dimension and the stored rows, in insertion order. *)
Record index : Type := { d : nat; xb : list vec }.

Definition ntotal (idx : index) : nat := List.length (xb idx).

Definition IndexFlatL2 (dim : nat) : index := {| d := dim; xb := [] |}.

(** [index.add(x)]: the rows must have the dimension of the index. *)
Definition add (idx : index) (x : list vec) : result index :=
  if forallb (fun v => (List.length v =? d idx)%nat) x
  then Ok {| d := d idx; xb := xb idx ++ x |}
  else Raise AssertionError.

Variable closer : vec -> vec -> vec -> bool.
Variable finite : vec -> vec -> bool.

Fixpoint insert (q : vec) (c : nat * vec) (l : list (nat * vec))
  : list (nat * vec) :=
  match l with
  | [] => [c]
  | c' :: r =>
    if closer q (snd c') (snd c) then c' :: insert q c r else c :: l
  end.

(** The rows that can enter a result, with their positions.  The result
    heap of the library starts out full of slots labelled [-1] at the
    largest float; a row replaces one only when its distance is below
    that, so a row whose distance overflows or is not a number is never
    returned. *)
Definition candidates (idx : index) (q : vec) : list (nat * vec) :=
  filter (fun c => finite q (snd c)) (combine (seq 0 (ntotal idx)) (xb idx)).

(** These rows, nearest to [q] first. *)
Definition ranked (idx : index) (q : vec) : list (nat * vec) :=
  fold_left (fun acc c => insert q c acc) (candidates idx q) [].

(** The labels of [index.search(q.reshape(1, -1), k)], that is [I[0]]:
    the positions of the [k] nearest rows, and [-1] in the slots for
    which the index has no row left that can enter the result. *)
Definition search (idx : index) (q : vec) (k : nat) : result (list Z) :=
  if (List.length q =? d idx)%nat then
    let hits := firstn k (ranked idx q) in
    Ok (map (fun c => Z.of_nat (fst c)) hits
        ++ repeat (-1)%Z (k - List.length hits))
  else Raise AssertionError.

End Index.
Arguments vec : clear implicits.
Arguments index : clear implicits.

End Faiss.

(** ** Runs: state, trace and exceptions *)

Module Proc.
Import Py.

(** One entry of the metadata list: [{"path": ..., "bytes": ...}]. *)
Record file_record : Type := { r_path : pystr; r_bytes : Z }.

(** What the scripts print.  The wording of a line is fixed by its
    constructor; the text of an exception is not spelled out. *)
Inductive message : Type :=
| MsgNoEmbedding                          (* Warning: No embedding in response *)
| MsgRequestError (e : exn)               (* Error making embedding request: e *)
| MsgResponseError (e : exn)              (* Error processing embedding response: e *)
| MsgProcessed (n : Z)                    (* Processed n files... *)
| MsgSkipping (p : pystr)                 (* Skipping p due to embedding failure *)
| MsgFileError (p : pystr) (e : exn)      (* Error processing file p: e *)
| MsgIngested (n : Z) (data : pystr)      (* Ingested n files -> data/repo.index *)
| MsgNoFiles                              (* No files ingested. Check ... *)
| MsgText (s : pystr).                    (* print(s) *)

Section Proc.
Context {scalar : Type}.

(** The calls a run makes to the outside, in order. *)
Inductive event : Type :=
| Post (req : Http.request)
| ReadText (p : pystr)
| Search (q : Faiss.vec scalar) (k : nat)
| WriteIndex (p : pystr) (idx : Faiss.index scalar)
| WriteJson (p : pystr) (records : list file_record)
| Print (m : message).

(** A computation over a store [S]: it ends with a value or with an
    exception; either way the store is the one it has reached (what was
    appended to a list before an exception stays appended) and the events
    are those it has emitted. *)
Definition M (S A : Type) : Type := S -> result A * S * list event.

Definition ret {S A} (a : A) : M S A := fun s => (Ok a, s, []).

Definition bind {S A B} (m : M S A) (k : A -> M S B) : M S B :=
  fun s =>
    match m s with
    | (Ok a, s1, t1) =>
      match k a s1 with
      | (r, s2, t2) => (r, s2, t1 ++ t2)
      end
    | (Raise e, s1, t1) => (Raise e, s1, t1)
    end.

Definition raise {S A} (e : exn) : M S A := fun s => (Raise e, s, []).

Definition lift {S A} (r : result A) : M S A := fun s => (r, s, []).

Definition get {S} : M S S := fun s => (Ok s, s, []).

Definition modify {S} (f : S -> S) : M S unit := fun s => (Ok tt, f s, []).

Definition emit {S} (ev : event) : M S unit := fun s => (Ok tt, s, [ev]).

Definition print {S} (m : message) : M S unit := emit (Print m).

(** The first [except] clause whose class contains [e]. *)
Fixpoint handler_for {S A} (clauses : list ((exn -> bool) * (exn -> M S A)))
  (e : exn) : option (exn -> M S A) :=
  match clauses with
  | [] => None
  | (cls, h) :: rest => if cls e then Some h else handler_for rest e
  end.

(** [try: body except C1 as e: h1 except C2 as e: h2 ...] *)
Definition try_except {S A} (body : M S A)
  (clauses : list ((exn -> bool) * (exn -> M S A))) : M S A :=
  fun s =>
    match body s with
    | (Ok a, s1, t1) => (Ok a, s1, t1)
    | (Raise e, s1, t1) =>
      match handler_for clauses e with
      | Some h =>
        match h e s1 with
        | (r, s2, t2) => (r, s2, t1 ++ t2)
        end
      | None => (Raise e, s1, t1)
      end
    end.

(** [for x in xs: body(x)] *)
Fixpoint for_each {S X} (xs : list X) (body : X -> M S unit) : M S unit :=
  match xs with
  | [] => ret tt
  | x :: rest => bind (body x) (fun _ => for_each rest body)
  end.

(** A generator expression consumed in order: [f(x) for x in xs]. *)
Fixpoint map_M {S X Y} (f : X -> M S Y) (xs : list X) : M S (list Y) :=
  match xs with
  | [] => ret []
  | x :: rest =>
    bind (f x) (fun y => bind (map_M f rest) (fun ys => ret (y :: ys)))
  end.

(** [requests.post(url, json=payload, timeout=timeout)] against a service
    reacting with [w]. *)
Definition requests_post {S B} (url : pystr) (payload : Http.payload)
  (timeout : option Z) (w : Http.reply B) : M S (Http.response B) :=
  bind (emit (Post {| Http.url := url; Http.json := payload;
                      Http.timeout := timeout |}))
       (fun _ => lift (Http.post_result timeout w)).

End Proc.
Arguments event : clear implicits.
Arguments M : clear implicits.

End Proc.

Declare Scope proc_scope.
Delimit Scope proc_scope with proc.
Notation "x <- m ;; k" := (Proc.bind m (fun x => k))
  (at level 61, m at next level, right associativity) : proc_scope.
Notation "m ;;; k" := (Proc.bind m (fun _ => k))
  (at level 61, right associativity) : proc_scope.

(** ** scripts/ingest_local.py *)

Module IngestLocal.
Import Py PathLib Proc.
Local Open Scope proc_scope.

Section Script.
Context {scalar : Type}.

Local Abbreviation vec := (Faiss.vec scalar).
Local Abbreviation index := (Faiss.index scalar).
Local Abbreviation embeddings_reply := (Http.reply (Http.embeddings_body scalar)).

(** [ROOT = pathlib.Path(__file__).resolve().parents[1]]: where the
    script is installed is an input. *)
Variable ROOT : path.

(** [DATA.mkdir(exist_ok=True)] comes before the scan: the listing below
    is the one the scan sees, the data directory included. *)
Definition DATA : path := div ROOT (lit "data").

(** One path yielded by [ROOT.rglob("*")] together with what the outside
    answers to the calls the loop may make for it. *)
Record entry : Type :=
  { e_path : path;
    e_stat : result Z;              (* path.stat().st_size in the filter *)
    e_read : result (list byte);    (* the bytes read_text gets, or an OSError *)
    e_reply : embeddings_reply;     (* how the service reacts to its request *)
    e_restat : result Z }.          (* path.stat().st_size for the record *)

(** The module-level variables the loop updates. *)
Record store : Type :=
  { docs : list vec; meta : list file_record; file_count : Z }.

Definition initial : store := {| docs := []; meta := []; file_count := 0 |}.

Definition embeddings_url : pystr := lit "http://127.0.0.1:11434/api/embeddings".
Definition model_name : pystr := lit "harald-phi4".

(** [def embed(text)], the reaction of the service being [w]. *)
Definition embed {S} (text : pystr) (w : embeddings_reply)
  : M scalar S (option vec) :=
  try_except
    (r <- requests_post embeddings_url
            (Http.EmbeddingsPayload model_name text false) (Some 600%Z) w ;;
     lift (Http.raise_for_status_result r) ;;;
     response_data <- lift (Http.json_result r) ;;
     present <- lift (Http.contains_embedding response_data) ;;
     if negb present then print MsgNoEmbedding ;;; ret None
     else
       v <- lift (Http.embedding_of response_data) ;;
       arr <- lift (Http.np_array_result v) ;;
       ret (Some arr))
    [ (is_RequestException,
       fun e => print (MsgRequestError e) ;;; ret None);
      (is_KeyValueJson,
       fun e => print (MsgResponseError e) ;;; ret None) ].

(** [path.suffix.lower() in {".md", ".json"}] *)
Definition allowed_suffix (p : path) : bool :=
  let s := lower (suffix p) in
  str_eqb s (lit ".md") || str_eqb s (lit ".json").

(** The condition of the [if], evaluated left to right: [stat] is only
    called when the suffix is an allowed one, and may raise. *)
Definition selected (e : entry) : M scalar store bool :=
  if allowed_suffix (e_path e)
  then (size <- lift (e_stat e) ;; ret (0 <? size)%Z)
  else ret false.

(** [path.read_text(encoding="utf-8", errors="ignore")] *)
Definition read_text {S} (p : path) (bytes : result (list byte))
  : M scalar S pystr :=
  emit (ReadText (str p)) ;;;
  bs <- lift bytes ;;
  ret (decode_text bs).

(** The body of the [for] loop. *)
Definition loop_body (e : entry) : M scalar store unit :=
  take <- selected e ;;
  if take : bool then
    try_except
      (text <- read_text (e_path e) (e_read e) ;;
       let chunk := slice_to 800 text in
       embedding <- embed chunk (e_reply e) ;;
       match embedding with
       | Some v =>
         modify (fun s => {| docs := docs s ++ [v]; meta := meta s;
                             file_count := file_count s |}) ;;;
         size <- lift (e_restat e) ;;
         modify (fun s => {| docs := docs s;
                             meta := meta s ++ [{| r_path := str (e_path e);
                                                   r_bytes := size |}];
                             file_count := file_count s |}) ;;;
         modify (fun s => {| docs := docs s; meta := meta s;
                             file_count := file_count s + 1 |}) ;;;
         s <- get ;;
         if (file_count s mod 10 =? 0)%Z
         then print (MsgProcessed (file_count s))
         else ret tt
       | None => print (MsgSkipping (str (e_path e)))
       end)
      [ (is_Exception, fun ex => print (MsgFileError (str (e_path e)) ex)) ]
  else ret tt.

Definition index_path : pystr := str (div DATA (lit "repo.index")).
Definition meta_path : pystr := str (div DATA (lit "repo.meta.json")).

(** The part after the loop. *)
Definition persist : M scalar store unit :=
  s <- get ;;
  if truthy (docs s) then
    vecs <- lift (Faiss.np_stack (docs s)) ;;
    index <- lift (Faiss.add (Faiss.IndexFlatL2 (Faiss.shape1 vecs)) vecs) ;;
    emit (WriteIndex index_path index) ;;;
    emit (WriteJson meta_path (meta s)) ;;;
    print (MsgIngested (Z.of_nat (List.length (meta s))) (str DATA))
  else print MsgNoFiles.

(** The script, run over what [rglob] yields. *)
Definition main (listing : list entry) : M scalar store unit :=
  for_each listing loop_body ;;; persist.

Definition run (listing : list entry)
  : result unit * store * list (event scalar) :=
  main listing initial.

(** What a run has left on disk: the index and the metadata it wrote. *)
Fixpoint written_index (t : list (event scalar)) : option index :=
  match t with
  | [] => None
  | WriteIndex _ idx :: _ => Some idx
  | _ :: rest => written_index rest
  end.

Fixpoint written_meta (t : list (event scalar)) : option (list file_record) :=
  match t with
  | [] => None
  | WriteJson _ records :: _ => Some records
  | _ :: rest => written_meta rest
  end.

End Script.

End IngestLocal.

(** ** scripts/ask_local.py *)

Module AskLocal.
Import Py PathLib Proc.
Local Open Scope proc_scope.

Section Script.
Context {scalar : Type}.

Local Abbreviation vec := (Faiss.vec scalar).

(** The ranking of the index library, and the rows it can return. *)
Variable closer : vec -> vec -> vec -> bool.
Variable finite : vec -> vec -> bool.

(** What a run finds outside: the two files loaded at start-up, the
    command line, and the answers to its calls. *)
Record world : Type :=
  { w_index : Faiss.index scalar;             (* faiss.read_index(DATA/repo.index) *)
    w_meta : list file_record;                (* json.load(DATA/repo.meta.json) *)
    w_argv : list pystr;                      (* sys.argv *)
    w_embeddings : Http.reply (Http.embeddings_body scalar);
    w_files : pystr -> result (list byte);    (* the bytes of a file, or an OSError *)
    w_chat : Http.reply Http.chat_body }.

Definition embeddings_url : pystr := lit "http://127.0.0.1:11434/api/embeddings".
Definition chat_url : pystr := lit "http://127.0.0.1:11434/api/chat".
Definition model_name : pystr := lit "harald-phi4".

(** [def embed(prompt)] *)
Definition embed (prompt : pystr)
  (w : Http.reply (Http.embeddings_body scalar)) : M scalar unit vec :=
  r <- requests_post embeddings_url
         (Http.EmbeddingsPayload model_name prompt false) (Some 600%Z) w ;;
  data <- lift (Http.json_result r) ;;
  v <- lift (Http.embedding_of data) ;;
  lift (Http.np_array_result v).

(** [" ".join(sys.argv[1:]) or "List all entity names."] *)
Definition question (argv : list pystr) : pystr :=
  or_else (join (lit " ") (tl argv)) (lit "List all entity names.").

(** [index.search(q_vec.reshape(1, -1), k=3)] *)
Definition index_search (idx : Faiss.index scalar) (q : vec) (k : nat)
  : M scalar unit (list Z) :=
  emit (Search q k) ;;; lift (Faiss.search closer finite idx q k).

(** [pathlib.Path(p).read_text(encoding="utf-8", errors="ignore")] *)
Definition read_text (w : world) (p : pystr) : M scalar unit pystr :=
  emit (ReadText p) ;;;
  bs <- lift (w_files w p) ;;
  ret (decode_text bs).

(** One element of the generator: the text block of position [i]. *)
Definition block (w : world) (i : Z) : M scalar unit pystr :=
  record <- lift (getitem (w_meta w) i) ;;
  text <- read_text w (r_path record) ;;
  ret (slice_to 800 text).

(** The messages of the chat request. *)
Definition user_message (context question : pystr) : Http.chat_message :=
  {| Http.role := lit "user";
     Http.content := context ++ [10; 10]%N ++ question |}.

(** The script. *)
Definition main (w : world) : M scalar unit unit :=
  let question := question (w_argv w) in
  q_vec <- embed question (w_embeddings w) ;;
  I <- index_search (w_index w) q_vec 3 ;;
  blocks <- map_M (block w) I ;;
  let context := join [10; 10]%N blocks in
  let payload :=
    Http.ChatPayload model_name [user_message context question] false in
  r <- requests_post chat_url payload None (w_chat w) ;;
  answer <- match Http.body r with
            | Http.ChatNotJson => raise JSONDecodeError
            | Http.ChatObject o => ret o
            | Http.ChatOther => raise TypeError
            end ;;
  message <- match answer with
             | None => raise KeyError
             | Some m => ret m
             end ;;
  content <- match message with
             | None => raise KeyError
             | Some c => ret c
             end ;;
  print (MsgText content).

Definition run (w : world) : result unit * list (event scalar) :=
  match main w tt with
  | (r, _, t) => (r, t)
  end.

End Script.

End AskLocal.

(** ** json.dump of the metadata list *)

Module Json.
Import Py Proc.

Definition hex_digit (n : N) : codepoint :=
  if (n <? 10)%N then (48 + n)%N else (87 + n)%N.

(** [\uXXXX] *)
Definition u_escape (n : N) : pystr :=
  [92; 117; hex_digit ((n / 4096) mod 16); hex_digit ((n / 256) mod 16);
   hex_digit ((n / 16) mod 16); hex_digit (n mod 16)]%N.

(** One character of a string under [ensure_ascii=True]. *)
Definition escape_cp (c : codepoint) : pystr :=
  (if c =? 34 then [92; 34]
   else if c =? 92 then [92; 92]
   else if c =? 10 then [92; 110]
   else if c =? 13 then [92; 114]
   else if c =? 9 then [92; 116]
   else if c =? 8 then [92; 98]
   else if c =? 12 then [92; 102]
   else if (32 <=? c) && (c <=? 126) then [c]
   else if c <? 65536 then u_escape c
   else u_escape (55296 + ((c - 65536) / 1024) mod 1024)
        ++ u_escape (56320 + (c - 65536) mod 1024))%N.

Definition dumps_str (s : pystr) : pystr :=
  34%N :: flat_map escape_cp s ++ [34%N].

Definition dumps_int (z : Z) : pystr :=
  lit (NilZero.string_of_int (Z.to_int z)).

(** An object with the keys ["path"] and ["bytes"], in that order. *)
Definition dumps_record (r : file_record) : pystr :=
  [123%N] ++ dumps_str (lit "path") ++ lit ": " ++ dumps_str (r_path r)
  ++ lit ", " ++ dumps_str (lit "bytes") ++ lit ": " ++ dumps_int (r_bytes r)
  ++ [125%N].

(** [json.dumps(meta)] with the default separators. *)
Definition dumps (records : list file_record) : pystr :=
  [91%N] ++ join (lit ", ") (map dumps_record records) ++ [93%N].

(** The text is ASCII, so one byte per character. *)
Definition ascii_bytes (s : pystr) : list byte :=
  map (fun c => match Byte.of_N c with Some b => b | None => x3f end) s.

End Json.

(** ** A tree nobody else touches, and a service that is a function

    The setting of two successive runs: the files stay as they are apart
    from what the script itself writes, and the service answers equal
    prompts equally. *)

Module Quiescent.
Import Py PathLib Proc.

Section Tree.
Context {scalar : Type}.

Variable ROOT : path.

(** A deterministic embedding service. *)
Variable service : pystr -> Http.reply (Http.embeddings_body scalar).

(** The bytes [faiss.write_index] produces (the library's own format). *)
Variable serialize : Faiss.index scalar -> list byte.

Inductive node : Type :=
| RegularFile (content : list byte)
| Directory (size : Z)
| DanglingSymlink.

(** The directory tree below [ROOT], in the order [rglob] yields it. *)
Definition tree := list (path * node).

(** What the loop observes of an entry of such a tree.  The size [stat]
    reports for a directory depends on the filesystem. *)
Definition observe (pn : path * node) : IngestLocal.entry :=
  match snd pn with
  | RegularFile content =>
    let size := Z.of_nat (List.length content) in
    {| IngestLocal.e_path := fst pn;
       IngestLocal.e_stat := Ok size;
       IngestLocal.e_read := Ok content;
       IngestLocal.e_reply := service (slice_to 800 (decode_text content));
       IngestLocal.e_restat := Ok size |}
  | Directory size =>
    {| IngestLocal.e_path := fst pn;
       IngestLocal.e_stat := Ok size;
       IngestLocal.e_read := Raise IsADirectoryError;
       IngestLocal.e_reply := Http.Unreachable;
       IngestLocal.e_restat := Ok size |}
  | DanglingSymlink =>
    {| IngestLocal.e_path := fst pn;
       IngestLocal.e_stat := Raise FileNotFoundError;
       IngestLocal.e_read := Raise FileNotFoundError;
       IngestLocal.e_reply := Http.Unreachable;
       IngestLocal.e_restat := Raise FileNotFoundError |}
  end.

Definition ingest (t : tree)
  : result unit * IngestLocal.store (scalar := scalar) * list (event scalar) :=
  IngestLocal.run ROOT (map observe t).

Definition path_eqb (p q : path) : bool :=
  if list_eq_dec (list_eq_dec N.eq_dec) p q then true else false.

(** Where the walk lists a file that was not there before: among the
    entries of its directory, at a place that depends on the directories
    around it and on the filesystem.  The place is taken as given. *)
Variable place : tree -> path -> nat.

(** Is the path listed? *)
Definition listed (t : tree) (p : path) : bool :=
  existsb (fun pn => path_eqb (fst pn) p) t.

(** New content for the entry of a path, which keeps its place. *)
Fixpoint overwrite (t : tree) (p : path) (content : list byte) : tree :=
  match t with
  | [] => []
  | (p', n) :: rest =>
    if path_eqb p' p then (p', RegularFile content) :: rest
    else (p', n) :: overwrite rest p content
  end.

(** Creating or overwriting a regular file.  An existing entry keeps its
    place in the listing; a new one comes where the walk puts it. *)
Definition write_file (t : tree) (p : path) (content : list byte) : tree :=
  if listed t p then overwrite t p content
  else firstn (place t p) t ++ (p, RegularFile content) :: skipn (place t p) t.

Definition index_file : path := div (IngestLocal.DATA ROOT) (lit "repo.index").
Definition meta_file : path := div (IngestLocal.DATA ROOT) (lit "repo.meta.json").

(** The tree after a run with trace [t]: the two output files, if the
    run got to write them. *)
Definition tree_after (before : tree) (t : list (event scalar)) : tree :=
  match IngestLocal.written_index t, IngestLocal.written_meta t with
  | Some idx, Some records =>
    write_file (write_file before index_file (serialize idx))
               meta_file (Json.ascii_bytes (Json.dumps records))
  | _, _ => before
  end.

(** The metadata in memory at the end of a run. *)
Definition meta_of (r : result unit * IngestLocal.store (scalar := scalar)
                        * list (event scalar)) : list file_record :=
  IngestLocal.meta (snd (fst r)).

(** The second of two successive runs. *)
Definition second_run (t : tree) :=
  ingest (tree_after t (snd (ingest t))).

End Tree.

End Quiescent.

(** ** Vocabulary of the statements about ingest *)

Module IngestSpec.
Import Py PathLib Proc.

Section Vocabulary.
Context {scalar : Type}.

Local Abbreviation vec := (Faiss.vec scalar).
Local Abbreviation entry := (IngestLocal.entry (scalar := scalar)).
Local Abbreviation store := (IngestLocal.store (scalar := scalar)).

(** Two characters that differ at most in case. *)
Definition same_letter (a b : codepoint) : bool :=
  (lower_cp a =? lower_cp b)%N.

(** Comparison of two strings without regard to case. *)
Fixpoint equal_ignoring_case (a b : pystr) : bool :=
  match a, b with
  | [], [] => true
  | x :: a', y :: b' => same_letter x y && equal_ignoring_case a' b'
  | _, _ => false
  end.

(** The extension is [.md] or [.json], whatever the case. *)
Definition extension_matches (p : path) : bool :=
  equal_ignoring_case (suffix p) (lit ".md")
  || equal_ignoring_case (suffix p) (lit ".json").

(** The size is known and strictly positive. *)
Definition positive_size (size : result Z) : bool :=
  match size with
  | Ok n => (0 <? n)%Z
  | Raise _ => false
  end.

(** An entry ingest has to consider. *)
Definition eligible (e : entry) : bool :=
  extension_matches (IngestLocal.e_path e)
  && positive_size (IngestLocal.e_stat e).

(** An entry on which the size lookup of the filter fails. *)
Definition filter_raises (e : entry) : bool :=
  extension_matches (IngestLocal.e_path e)
  && match IngestLocal.e_stat e with Ok _ => false | Raise _ => true end.

(** The entries the loop gets to: those before the first one on which
    the filter raises. *)
Fixpoint scanned (l : list entry) : list entry :=
  match l with
  | [] => []
  | e :: rest => if filter_raises e then [] else e :: scanned rest
  end.

(** A status for which [raise_for_status] raises. *)
Definition error_status (status : Z) : bool :=
  ((400 <=? status) && (status <? 600))%Z.

(** The vector a reaction of the service carries, if it is a timely
    answer without an error status whose body has a numeric
    ["embedding"]. *)
Definition embedded (w : Http.reply (Http.embeddings_body scalar))
  : option vec :=
  match w with
  | Http.Answer latency status (Http.EmbObject (Some (Http.Numbers xs))) =>
    if (latency <=? 600)%Z && negb (error_status status)
    then Some xs else None
  | _ => None
  end.

(** The answer is one on which [embed] of ingest raises [TypeError],
    which neither of its [except] clauses catches: it comes in time and
    without an error status, and its body is [null], a boolean or a
    number, or an array or a string that holds ["embedding"], or an
    object whose ["embedding"] numpy refuses with [TypeError]. *)
Definition unusable (w : Http.reply (Http.embeddings_body scalar)) : bool :=
  match w with
  | Http.Answer latency status b =>
    (latency <=? 600)%Z && negb (error_status status)
    && match b with
       | Http.EmbAtom | Http.EmbContainer true
       | Http.EmbObject (Some Http.Mapping) => true
       | _ => false
       end
  | Http.Unreachable => false
  end.

(** What [embed] of ingest ends with. *)
Definition embed_outcome (w : Http.reply (Http.embeddings_body scalar))
  : result (option vec) :=
  if unusable w then Raise TypeError else Ok (embedded w).

(** The request [embed] sends for a text. *)
Definition embed_request (text : pystr) : Http.request :=
  {| Http.url := lit "http://127.0.0.1:11434/api/embeddings";
     Http.json := Http.EmbeddingsPayload (lit "harald-phi4") text false;
     Http.timeout := Some 600%Z |}.

(** The text ingest sends for a file with the given bytes. *)
Definition chunk_of (bs : list byte) : pystr :=
  slice_to 800 (decode_text bs).

(** The vector ingest obtains for an entry, if any. *)
Definition vector_of (e : entry) : option vec :=
  if eligible e then
    match IngestLocal.e_read e with
    | Ok _ => embedded (IngestLocal.e_reply e)
    | Raise _ => None
    end
  else None.

Definition record_of (e : entry) (size : Z) : file_record :=
  {| r_path := str (IngestLocal.e_path e); r_bytes := size |}.

(** The effect of one entry on the store. *)
Definition step (s : store) (e : entry) : store :=
  match vector_of e with
  | None => s
  | Some v =>
    match IngestLocal.e_restat e with
    | Ok size =>
      {| IngestLocal.docs := IngestLocal.docs s ++ [v];
         IngestLocal.meta := IngestLocal.meta s ++ [record_of e size];
         IngestLocal.file_count := (IngestLocal.file_count s + 1)%Z |}
    | Raise _ =>
      {| IngestLocal.docs := IngestLocal.docs s ++ [v];
         IngestLocal.meta := IngestLocal.meta s;
         IngestLocal.file_count := IngestLocal.file_count s |}
    end
  end.

(** The calls to the outside one entry gives rise to. *)
Definition calls (e : entry) : list (event scalar) :=
  if eligible e then
    ReadText (str (IngestLocal.e_path e))
    :: match IngestLocal.e_read e with
       | Ok bs => [Post (embed_request (chunk_of bs))]
       | Raise _ => []
       end
  else [].

Definition is_print (ev : event scalar) : bool :=
  match ev with Print _ => true | _ => false end.

(** The lines the loop prints, as opposed to the closing line. *)
Definition is_loop_line (ev : event scalar) : bool :=
  match ev with
  | Print (MsgIngested _ _) | Print MsgNoFiles | Print (MsgText _) => false
  | Print _ => true
  | _ => false
  end.

(** The line that closes a run: the count of ingested files, or the
    diagnostic that there are none. *)
Definition closing_line (ev : event scalar) : bool :=
  match ev with
  | Print (MsgIngested _ _) | Print MsgNoFiles => true
  | _ => false
  end.

(** The trace without what is printed. *)
Definition outside_calls (t : list (event scalar)) : list (event scalar) :=
  filter (fun ev => negb (is_print ev)) t.

(** The line ingest prints for an entry it considered and did not
    ingest. *)
Definition failure_logged (e : entry) (t : list (event scalar)) : Prop :=
  In (Print (MsgSkipping (str (IngestLocal.e_path e)))) t
  \/ exists ex, In (Print (MsgFileError (str (IngestLocal.e_path e)) ex)) t.

(** The size lookup for the record succeeds wherever it is made. *)
Definition restat_ok (e : entry) : bool :=
  match vector_of e, IngestLocal.e_restat e with
  | Some _, Raise _ => false
  | _, _ => true
  end.

(** All vectors have the length of the first. *)
Definition uniform (arrays : list vec) : bool :=
  match arrays with
  | [] => true
  | a :: rest => forallb (fun b => (List.length b =? List.length a)%nat) rest
  end.

(** The vector and the record an entry contributes when it is ingested
    in full. *)
Definition row_of (e : entry) : option (vec * file_record) :=
  match vector_of e, IngestLocal.e_restat e with
  | Some v, Ok size => Some (v, record_of e size)
  | _, _ => None
  end.

Definition rows_of (l : list entry) : list (vec * file_record) :=
  flat_map (fun e => match row_of e with Some r => [r] | None => [] end) l.

(** The vectors a listing yields, in order. *)
Definition vectors (l : list entry) : list vec :=
  flat_map (fun e => match vector_of e with Some v => [v] | None => [] end) l.

(** The paths read and the requests sent, in order. *)
Fixpoint reads (t : list (event scalar)) : list pystr :=
  match t with
  | [] => []
  | ReadText p :: rest => p :: reads rest
  | _ :: rest => reads rest
  end.

Fixpoint posts (t : list (event scalar)) : list Http.request :=
  match t with
  | [] => []
  | Post req :: rest => req :: posts rest
  | _ :: rest => posts rest
  end.

(** The parts of a run. *)
Definition outcome (r : result unit * store * list (event scalar))
  : result unit := fst (fst r).
Definition final (r : result unit * store * list (event scalar))
  : store := snd (fst r).
Definition trace (r : result unit * store * list (event scalar))
  : list (event scalar) := snd r.

(** What the part after the loop emits when it writes the two files. *)
Definition persist_events (ROOT : path) (s : store) : list (event scalar) :=
  [WriteIndex (IngestLocal.index_path ROOT)
     {| Faiss.d := Faiss.shape1 (IngestLocal.docs s);
        Faiss.xb := IngestLocal.docs s |};
   WriteJson (IngestLocal.meta_path ROOT) (IngestLocal.meta s);
   Print (MsgIngested (Z.of_nat (List.length (IngestLocal.meta s)))
                      (str (IngestLocal.DATA ROOT)))].

(** A run left both output files behind. *)
Definition persisted (r : result unit * store * list (event scalar))
  (idx : Faiss.index scalar) (records : list file_record) : Prop :=
  IngestLocal.written_index (trace r) = Some idx
  /\ IngestLocal.written_meta (trace r) = Some records.

(** A run wrote nothing. *)
Definition no_output (r : result unit * store * list (event scalar)) : Prop :=
  IngestLocal.written_index (trace r) = None
  /\ IngestLocal.written_meta (trace r) = None.

End Vocabulary.

End IngestSpec.

(** ** Vocabulary of the statements about two runs in a row *)

Module TwoRunsSpec.
Import Py PathLib Proc Quiescent.

Section Vocabulary.
Context {scalar : Type}.
Variable ROOT : path.
Variable service : pystr -> Http.reply (Http.embeddings_body scalar).

(** A record that is not the one of the metadata file itself. *)
Definition not_own_metadata (r : file_record) : bool :=
  negb (str_eqb (r_path r) (str (meta_file ROOT))).

(** The records an entry of the tree contributes to the metadata, the
    metadata file itself set aside. *)
Definition contribution (pn : path * node) : list file_record :=
  filter not_own_metadata
    (map snd (match IngestSpec.row_of (observe service pn) with
              | Some r => [r]
              | None => []
              end)).

(** The paths of a metadata list, the metadata file itself set aside. *)
Definition foreign_paths (records : list file_record) : list pystr :=
  map r_path (filter not_own_metadata records).

End Vocabulary.

End TwoRunsSpec.

(** ** Vocabulary of the statements about ask *)

Module AskSpec.
Import Py PathLib Proc.

Section Vocabulary.
Context {scalar : Type}.

Local Abbreviation vec := (Faiss.vec scalar).
Local Abbreviation world := (AskLocal.world (scalar := scalar)).

(** A blank line between two blocks. *)
Definition blank_line : pystr := [10; 10]%N.

(** The request that carries the context and the question. *)
Definition chat_request (content : pystr) : Http.request :=
  {| Http.url := lit "http://127.0.0.1:11434/api/chat";
     Http.json := Http.ChatPayload (lit "harald-phi4")
                    [{| Http.role := lit "user"; Http.content := content |}]
                    false;
     Http.timeout := None |}.

(** The service did not give a vector: it was unreachable, too slow,
    or its body was not JSON, was no JSON object, had no ["embedding"],
    or one numpy refuses. *)
Definition embedding_failure
  (w : Http.reply (Http.embeddings_body scalar)) : option exn :=
  match w with
  | Http.Unreachable => Some ConnectionError
  | Http.Answer latency _ b =>
    if (600 <? latency)%Z then Some Timeout
    else match b with
         | Http.EmbNotJson => Some JSONDecodeError
         | Http.EmbObject None => Some KeyError
         | Http.EmbObject (Some Http.NonNumeric) => Some ValueError
         | Http.EmbObject (Some Http.Mapping) => Some TypeError
         | Http.EmbContainer _ | Http.EmbAtom => Some TypeError
         | Http.EmbObject (Some (Http.Numbers _)) => None
         end
  end.

(** The request timed out. *)
Definition timed_out {B} (w : Http.reply B) : Prop :=
  exists latency status b, w = Http.Answer latency status b /\ (600 < latency)%Z.

(** The answer has a status of the client or server error classes. *)
Definition error_answer {B} (w : Http.reply B) : Prop :=
  exists latency status b,
    w = Http.Answer latency status b
    /\ (latency <= 600)%Z /\ (400 <= status < 600)%Z.

(** The body of the answer is an object without ["embedding"]. *)
Definition lacks_embedding (w : Http.reply (Http.embeddings_body scalar)) : Prop :=
  exists latency status, w = Http.Answer latency status (Http.EmbObject None).

(** The text block of a position: the first 800 characters of the file
    the record at that position names. *)
Definition block_of (w : world) (i : Z) (text : pystr) : Prop :=
  exists record bs,
    getitem (AskLocal.w_meta w) i = Ok record
    /\ AskLocal.w_files w (r_path record) = Ok bs
    /\ text = slice_to 800 (decode_text bs).

(** The file the record at a position names. *)
Definition path_at (w : world) (i : Z) (p : pystr) : Prop :=
  exists record, getitem (AskLocal.w_meta w) i = Ok record /\ p = r_path record.

(** The last record of the metadata. *)
Definition last_record (w : world) : file_record :=
  last (AskLocal.w_meta w) {| r_path := []; r_bytes := 0 |}.

End Vocabulary.

End AskSpec.

(** ** Concrete worlds

    Numbers are integers here; they stand for the float32 values. *)

Module Examples.
Import Py PathLib Proc.

Definition root : path := [lit "home"; lit "u"; lit "HARALD"].

Definition bytes_of (s : string) : list byte :=
  map byte_of_ascii (list_ascii_of_string s).

Definition vector_a : Faiss.vec Z := [1; 0]%Z.
Definition vector_b : Faiss.vec Z := [0; 1]%Z.

(** The service answers after two seconds with status 200 and [v]. *)
Definition answers (v : Faiss.vec Z) : Http.reply (Http.embeddings_body Z) :=
  Http.Answer 2 200 (Http.EmbObject (Some (Http.Numbers v))).

(** A regular file that stays as it is during the run. *)
Definition regular (name : string) (content : list byte)
  (w : Http.reply (Http.embeddings_body Z)) : IngestLocal.entry :=
  {| IngestLocal.e_path := div root (lit name);
     IngestLocal.e_stat := Ok (Z.of_nat (List.length content));
     IngestLocal.e_read := Ok content;
     IngestLocal.e_reply := w;
     IngestLocal.e_restat := Ok (Z.of_nat (List.length content)) |}.

(** A symbolic link whose target does not exist. *)
Definition dangling (name : string) : IngestLocal.entry (scalar := Z) :=
  {| IngestLocal.e_path := div root (lit name);
     IngestLocal.e_stat := Raise FileNotFoundError;
     IngestLocal.e_read := Raise FileNotFoundError;
     IngestLocal.e_reply := Http.Unreachable;
     IngestLocal.e_restat := Raise FileNotFoundError |}.

(** A regular file that is removed while its embedding is computed. *)
Definition vanishing (name : string) (content : list byte)
  (w : Http.reply (Http.embeddings_body Z)) : IngestLocal.entry :=
  {| IngestLocal.e_path := div root (lit name);
     IngestLocal.e_stat := Ok (Z.of_nat (List.length content));
     IngestLocal.e_read := Ok content;
     IngestLocal.e_reply := w;
     IngestLocal.e_restat := Raise FileNotFoundError |}.

(** The scenario of the specification: [a.md] of 500 bytes, [b.json] of
    10 bytes and [c.txt] of 500 bytes. *)
Definition scenario : list IngestLocal.entry :=
  [ regular "a.md" (repeat "a"%byte 500) (answers vector_a);
    regular "b.json" (repeat "b"%byte 10) (answers vector_b);
    regular "c.txt" (repeat "c"%byte 500) (answers vector_a) ].

(** A link without target named [x.md], listed before a good file. *)
Definition with_dangling_link : list IngestLocal.entry :=
  [ dangling "x.md"; regular "a.md" (bytes_of "hello") (answers vector_a) ].

(** [a.md] disappears during its embedding; [b.md] is ingested in full. *)
Definition with_vanishing_file : list IngestLocal.entry :=
  [ vanishing "a.md" (bytes_of "alpha") (answers vector_a);
    regular "b.md" (bytes_of "beta") (answers vector_b) ].

(** [a.md] is a good file, the link [x.md] has no target, and [b.md],
    a good file as well, is listed after the link. *)
Definition with_link_in_the_middle : list IngestLocal.entry :=
  [ regular "a.md" (bytes_of "alpha") (answers vector_a);
    dangling "x.md";
    regular "b.md" (bytes_of "beta") (answers vector_b) ].

(** A service that answers every prompt with the same vector. *)
Definition constant_service (prompt : pystr)
  : Http.reply (Http.embeddings_body Z) := answers vector_a.

(** In the trees of the examples no directory comes after [data], so
    that the walk lists a new file of [data] after everything else. *)
Definition listed_last (t : Quiescent.tree) (p : path) : nat := List.length t.

(** Stand-in for the bytes of a serialized index. *)
Definition index_bytes (idx : Faiss.index Z) : list byte :=
  repeat x00 (Faiss.ntotal idx).

(** A tree with the (empty) data directory and one document. *)
Definition small_tree : Quiescent.tree :=
  [ (div root (lit "data"), Quiescent.Directory 4096);
    (div root (lit "a.md"), Quiescent.RegularFile (bytes_of "hello")) ].

(** A server error whose body nevertheless carries a vector. *)
Definition error_with_vector : Http.reply (Http.embeddings_body Z) :=
  Http.Answer 1 500 (Http.EmbObject (Some (Http.Numbers vector_a))).

(** A file of 800 two-byte characters (U+00E9), 1600 bytes in all. *)
Definition accented : list byte :=
  flat_map (fun _ => [xc3; xa9]) (seq 0 800).

Definition with_accented_file : list IngestLocal.entry :=
  [ regular "e.md" accented (answers vector_a) ].

(** Squared Euclidean distance on integer vectors, and its ranking. *)
Definition sqdist (q x : Faiss.vec Z) : Z :=
  fold_right (fun p acc => ((fst p - snd p) * (fst p - snd p) + acc)%Z) 0%Z
             (combine q x).

Definition closer (q x y : Faiss.vec Z) : bool :=
  (sqdist q x <=? sqdist q y)%Z.

(** The small integers of the examples give no distance that overflows. *)
Definition finite (q x : Faiss.vec Z) : bool := true.

(** The files of the examples. *)
Definition files (p : pystr) : result (list byte) :=
  if str_eqb p (lit "/home/u/HARALD/a.md") then Ok (bytes_of "alpha")
  else if str_eqb p (lit "/home/u/HARALD/b.md") then Ok (bytes_of "beta")
  else if str_eqb p (lit "/home/u/HARALD/c.md") then Ok (bytes_of "gamma")
  else if str_eqb p (lit "/home/u/HARALD/e.md") then Ok accented
  else Raise FileNotFoundError.

Definition record (p : string) (size : Z) : file_record :=
  {| r_path := lit p; r_bytes := size |}.

(** A corpus of three documents. *)
Definition corpus3 : Faiss.index Z * list file_record :=
  ({| Faiss.d := 2; Faiss.xb := [[1; 0]; [0; 1]; [5; 5]]%Z |},
   [ record "/home/u/HARALD/a.md" 5; record "/home/u/HARALD/b.md" 4;
     record "/home/u/HARALD/c.md" 5 ]).

(** A corpus of one document. *)
Definition corpus1 : Faiss.index Z * list file_record :=
  ({| Faiss.d := 2; Faiss.xb := [[1; 0]]%Z |},
   [ record "/home/u/HARALD/a.md" 5 ]).

(** What the run over [with_vanishing_file] leaves on disk: the rows of
    [a.md] and [b.md], and the one record of [b.md]. *)
Definition shifted_corpus : Faiss.index Z * list file_record :=
  ({| Faiss.d := 2; Faiss.xb := [vector_a; vector_b] |},
   [ record "/home/u/HARALD/b.md" 4 ]).

(** The chat service answers "fine" after [latency] seconds. *)
Definition chat_after (latency : Z) : Http.reply Http.chat_body :=
  Http.Answer latency 200 (Http.ChatObject (Some (Some (lit "fine")))).

Definition ask_world (corpus : Faiss.index Z * list file_record)
  (args : list pystr) (e : Http.reply (Http.embeddings_body Z))
  (c : Http.reply Http.chat_body) : AskLocal.world :=
  {| AskLocal.w_index := fst corpus;
     AskLocal.w_meta := snd corpus;
     AskLocal.w_argv := lit "scripts/ask_local.py" :: args;
     AskLocal.w_embeddings := e;
     AskLocal.w_files := files;
     AskLocal.w_chat := c |}.

End Examples.

(** ** Vocabulary of the further statements *)

Module CoverageSpec.
Import Py PathLib Proc.

Section Vocabulary.
Context {scalar : Type}.

Local Abbreviation vec := (Faiss.vec scalar).
Local Abbreviation entry := (IngestLocal.entry (scalar := scalar)).
Local Abbreviation world := (AskLocal.world (scalar := scalar)).

(** The service gives the vector [v]: it answers within the 600 seconds,
    with a status outside the client and server error classes, and a
    body whose ["embedding"] is the sequence of numbers [v]. *)
Definition healthy (w : Http.reply (Http.embeddings_body scalar)) (v : vec)
  : Prop :=
  exists latency status,
    w = Http.Answer latency status (Http.EmbObject (Some (Http.Numbers v)))
    /\ (latency <= 600)%Z /\ ~ (400 <= status < 600)%Z.

(** The request an entry gives rise to: one if it is eligible and its
    text could be read, none otherwise. *)
Definition requests_of (e : entry) : list Http.request :=
  if IngestSpec.eligible e then
    match IngestLocal.e_read e with
    | Ok bs => [IngestSpec.embed_request (IngestSpec.chunk_of bs)]
    | Raise _ => []
    end
  else [].

(** An entry whose vector is kept although its record could not be
    built. *)
Definition record_lost (e : entry) : bool := negb (IngestSpec.restat_ok e).

(** The counts of the progress lines of a trace, in order. *)
Fixpoint progress_lines (t : list (event scalar)) : list Z :=
  match t with
  | [] => []
  | Print (MsgProcessed n) :: rest => n :: progress_lines rest
  | _ :: rest => progress_lines rest
  end.

(** The multiples of ten among [first + 1, ..., first + count]. *)
Definition tens_between (first count : nat) : list Z :=
  filter (fun z => (z mod 10 =? 0)%Z) (map Z.of_nat (seq (S first) count)).

(** What a trace prints, in order. *)
Fixpoint prints (t : list (event scalar)) : list message :=
  match t with
  | [] => []
  | Print m :: rest => m :: prints rest
  | _ :: rest => prints rest
  end.

(** The writes of a trace, in order. *)
Definition is_write (ev : event scalar) : bool :=
  match ev with
  | WriteIndex _ _ | WriteJson _ _ => true
  | _ => false
  end.

(** What the last step of ask makes of the chat service: the content to
    print, or the exception that ends the run.  The status is not looked
    at. *)
Definition chat_outcome (w : Http.reply Http.chat_body) : result pystr :=
  match w with
  | Http.Unreachable => Raise ConnectionError
  | Http.Answer _ _ Http.ChatNotJson => Raise JSONDecodeError
  | Http.Answer _ _ (Http.ChatObject None) => Raise KeyError
  | Http.Answer _ _ (Http.ChatObject (Some None)) => Raise KeyError
  | Http.Answer _ _ (Http.ChatObject (Some (Some c))) => Ok c
  | Http.Answer _ _ Http.ChatOther => Raise TypeError
  end.

Section Ask.
Variable closer : vec -> vec -> vec -> bool.
Variable finite : vec -> vec -> bool.

(** The retrieval of ask succeeds with the blocks [texts]: the question
    is embedded, the search accepts the vector, and the file of every
    label can be looked up and read. *)
Definition retrieved (w : world) (texts : list pystr) : Prop :=
  exists q latency status labels,
    AskLocal.w_embeddings w
      = Http.Answer latency status (Http.EmbObject (Some (Http.Numbers q)))
    /\ (latency <= 600)%Z
    /\ Faiss.search closer finite (AskLocal.w_index w) q 3 = Ok labels
    /\ Forall2 (AskSpec.block_of w) labels texts.

End Ask.

End Vocabulary.

End CoverageSpec.

(** ** Further concrete worlds *)

Module MoreExamples.
Import Py PathLib Proc Examples.

(** Two documents whose vectors differ in length. *)
Definition with_mixed_dimensions : list IngestLocal.entry :=
  [ regular "a.md" (bytes_of "alpha") (answers [1; 0]%Z);
    regular "b.md" (bytes_of "beta") (answers [1]%Z) ].

(** Two documents, ingested in full. *)
Definition two_documents : list IngestLocal.entry :=
  [ regular "a.md" (bytes_of "alpha") (answers vector_a);
    regular "b.md" (bytes_of "beta") (answers vector_b) ].

End MoreExamples.

(** * Facts *)

(** ** The ingest loop *)

Section IngestFacts.
Import Py PathLib Proc IngestSpec.
Context {scalar : Type}.
Variable ROOT : path.

Local Abbreviation entry := (IngestLocal.entry (scalar := scalar)).
Local Abbreviation store := (IngestLocal.store (scalar := scalar)).

Lemma str_eqb_eq (a b : pystr) : str_eqb a b = true <-> a = b.
Proof.
  unfold str_eqb. destruct (list_eq_dec N.eq_dec a b); split; congruence.
Qed.

Lemma lower_eq_ignoring_case (s t : pystr) :
  lower t = t -> str_eqb (lower s) t = equal_ignoring_case s t.
Proof.
  revert t. induction s as [|x s IH]; intros [|y t] Ht; simpl; try reflexivity.
  - simpl in Ht. injection Ht as Hy Ht'.
    specialize (IH t Ht'). unfold same_letter. rewrite Hy.
    destruct (N.eqb_spec (lower_cp x) y) as [E|E]; simpl.
    + rewrite <- IH. unfold str_eqb.
      destruct (list_eq_dec N.eq_dec (lower_cp x :: lower s) (y :: t)) as [E1|E1];
      destruct (list_eq_dec N.eq_dec (lower s) t) as [E2|E2]; try reflexivity.
      * injection E1 as _ E1. contradiction.
      * exfalso. apply E1. now f_equal.
    + unfold str_eqb.
      destruct (list_eq_dec N.eq_dec (lower_cp x :: lower s) (y :: t)) as [E1|E1];
        [injection E1 as E1 _; contradiction | reflexivity].
Qed.

Lemma allowed_suffix_spec (p : path) :
  IngestLocal.allowed_suffix p = extension_matches p.
Proof.
  unfold IngestLocal.allowed_suffix, extension_matches.
  rewrite !lower_eq_ignoring_case by reflexivity. reflexivity.
Qed.

Lemma unusable_not_embedded (w : Http.reply (Http.embeddings_body scalar)) :
  unusable w = true -> embedded w = None.
Proof.
  unfold unusable, embedded. destruct w as [|latency status b]; [discriminate|].
  destruct b as [|[[xs| |]|]|[|]|]; try reflexivity;
    rewrite andb_false_r; discriminate.
Qed.

Lemma embed_spec {S} (text : pystr) w (s : S) :
  exists log : list (event scalar),
    IngestLocal.embed text w s
      = (embed_outcome w, s, Post (embed_request text) :: log)
    /\ forallb is_loop_line log = true
    /\ List.length log
       = match embed_outcome w with Ok None => 1%nat | _ => 0%nat end.
Proof.
  unfold IngestLocal.embed, try_except, requests_post, bind, emit, lift,
    embed_outcome, unusable, embedded.
  destruct w as [|latency status b]; simpl.
  - eexists; repeat split; reflexivity.
  - replace (latency <=? 600)%Z with (negb (600 <? latency)%Z)
      by (rewrite Z.ltb_antisym, negb_involutive; reflexivity).
    destruct (600 <? latency)%Z; simpl.
    + destruct b as [|[[xs| |]|]|[|]|]; eexists; repeat split; reflexivity.
    + unfold Http.raise_for_status_result, error_status; simpl.
      destruct ((400 <=? status) && (status <? 600))%Z; simpl.
      * destruct b as [|[[xs| |]|]|[|]|]; eexists; repeat split; reflexivity.
      * destruct b as [|[[xs| |]|]|[|]|]; simpl; eexists; repeat split;
          reflexivity.
Qed.


Lemma loop_body_raises (e : entry) (s : store) :
  filter_raises e = true ->
  exists ex, IngestLocal.e_stat e = Raise ex
             /\ IngestLocal.loop_body e s = (Raise ex, s, []).
Proof.
  unfold filter_raises, IngestLocal.loop_body, IngestLocal.selected.
  rewrite allowed_suffix_spec.
  destruct (extension_matches (IngestLocal.e_path e)); simpl; [|discriminate].
  destruct (IngestLocal.e_stat e) as [n|ex]; [discriminate|].
  intros _. exists ex. split; reflexivity.
Qed.

Lemma loop_body_runs (e : entry) (s : store) :
  filter_raises e = false ->
  exists log : list (event scalar),
    IngestLocal.loop_body e s = (Ok tt, step s e, calls e ++ log)
    /\ forallb is_loop_line log = true
    /\ (eligible e = true -> restat_ok e = false \/ vector_of e = None ->
        failure_logged e log).
Proof.
  unfold filter_raises, IngestLocal.loop_body, IngestLocal.selected, step,
    calls, restat_ok, vector_of, eligible, failure_logged.
  rewrite allowed_suffix_spec.
  destruct (extension_matches (IngestLocal.e_path e)); simpl.
  2:{ intros _. exists []. repeat split; try reflexivity. discriminate. }
  destruct (IngestLocal.e_stat e) as [n|ex]; [intros _|discriminate].
  unfold bind at 1; simpl.
  destruct (0 <? n)%Z; simpl.
  2:{ exists []. repeat split; try reflexivity. discriminate. }
  unfold try_except, IngestLocal.read_text, bind, emit, lift; simpl.
  destruct (IngestLocal.e_read e) as [bs|ex]; simpl.
  2:{ eexists. split; [reflexivity|]. split; [reflexivity|].
      intros _ _. right. exists ex. now left. }
  destruct (embed_spec (slice_to 800 (decode_text bs)) (IngestLocal.e_reply e) s)
    as [log [Hrun [Hlog _]]].
  rewrite Hrun; simpl. unfold embed_outcome.
  destruct (unusable (IngestLocal.e_reply e)) eqn:Hun; simpl.
  { rewrite (unusable_not_embedded _ Hun).
    eexists. split; [reflexivity|]. split.
    { rewrite !forallb_app, Hlog. reflexivity. }
    intros _ _. right. exists TypeError. rewrite !in_app_iff. simpl. auto. }
  destruct (embedded (IngestLocal.e_reply e)) as [v|]; simpl.
  - unfold modify; simpl.
    destruct (IngestLocal.e_restat e) as [size|ex]; simpl.
    + unfold get, print, emit, ret; simpl.
      destruct (_ mod 10 =? 0)%Z; simpl.
      * eexists. split; [reflexivity|]. split.
        { rewrite forallb_app, Hlog. reflexivity. }
        intros _ [H|H]; discriminate.
      * eexists. split; [rewrite !app_nil_r; reflexivity|]. split; [exact Hlog|].
        intros _ [H|H]; discriminate.
    + eexists. split; [reflexivity|]. split.
      { rewrite !forallb_app, Hlog. reflexivity. }
      intros _ _. right. exists ex. rewrite !in_app_iff. simpl. auto.
  - unfold print, emit; simpl.
    eexists. split; [reflexivity|]. split.
    { rewrite !forallb_app, Hlog. reflexivity. }
    intros _ _. left. rewrite !in_app_iff. simpl. auto.
Qed.


Lemma outside_calls_app (t u : list (event scalar)) :
  outside_calls (t ++ u) = outside_calls t ++ outside_calls u.
Proof. apply filter_app. Qed.

Lemma outside_calls_prints (log : list (event scalar)) :
  forallb is_print log = true -> outside_calls log = [].
Proof.
  induction log as [|ev log IH]; simpl; [reflexivity|].
  intros H. apply andb_prop in H as [Hev Hlog]. rewrite Hev. simpl. auto.
Qed.

Lemma loop_lines_are_prints (log : list (event scalar)) :
  forallb is_loop_line log = true -> forallb is_print log = true.
Proof.
  induction log as [|ev log IH]; simpl; [reflexivity|].
  intros H. apply andb_prop in H as [Hev Hlog]. rewrite (IH Hlog).
  destruct ev; try discriminate. reflexivity.
Qed.

Lemma loop_lines_not_closing (log : list (event scalar)) (ev : event scalar) :
  forallb is_loop_line log = true -> In ev log -> closing_line ev = false.
Proof.
  intros H Hin. rewrite forallb_forall in H. specialize (H ev Hin).
  destruct ev as [| | | | |m]; try reflexivity. destruct m; try reflexivity; discriminate.
Qed.

Lemma calls_not_closing (e : entry) (ev : event scalar) :
  In ev (calls e) -> closing_line ev = false.
Proof.
  unfold calls. destruct (eligible e); [|intros []].
  destruct (IngestLocal.e_read e); simpl; intuition (subst; reflexivity).
Qed.

Lemma outside_calls_calls (e : entry) : outside_calls (calls e) = calls e.
Proof.
  unfold calls. destruct (eligible e); [|reflexivity].
  destruct (IngestLocal.e_read e); reflexivity.
Qed.

Lemma failure_logged_app_l (e : entry) (t u : list (event scalar)) :
  failure_logged e t -> failure_logged e (t ++ u).
Proof.
  intros [H|[ex H]]; [left|right; exists ex]; apply in_or_app; now left.
Qed.

Lemma failure_logged_app_r (e : entry) (t u : list (event scalar)) :
  failure_logged e u -> failure_logged e (t ++ u).
Proof.
  intros [H|[ex H]]; [left|right; exists ex]; apply in_or_app; now right.
Qed.

(** The loop, entry by entry. *)
Lemma for_each_spec (l : list entry) (s : store) :
  exists r t,
    for_each l IngestLocal.loop_body s = (r, fold_left step (scanned l) s, t)
    /\ outside_calls t = flat_map calls (scanned l)
    /\ (existsb filter_raises l = false -> r = Ok tt)
    /\ (existsb filter_raises l = true -> exists ex, r = Raise ex)
    /\ (forall e, In e (scanned l) -> eligible e = true ->
        restat_ok e = false \/ vector_of e = None -> failure_logged e t)
    /\ (forall ev, In ev t -> closing_line ev = false).
Proof.
  revert s. induction l as [|e l IH]; intros s; simpl.
  - exists (Ok tt), []. repeat split; try reflexivity; try discriminate.
    + intros e [].
    + intros ev [].
  - destruct (filter_raises e) eqn:Hf; simpl.
    + destruct (loop_body_raises e s Hf) as [ex [_ Hrun]].
      unfold bind. rewrite Hrun.
      exists (Raise ex), []. repeat split; try reflexivity; try discriminate.
      * intros _. now exists ex.
      * intros e' [].
      * intros ev [].
    + destruct (loop_body_runs e s Hf) as [log [Hrun [Hlog Hfail]]].
      destruct (IH (step s e))
        as [r [t [Hrest [Hcalls [Hok [Hraise [Hlogged Hclosing]]]]]]].
      unfold bind. rewrite Hrun, Hrest.
      exists r, ((calls e ++ log) ++ t). repeat split; auto.
      * rewrite !outside_calls_app, outside_calls_calls,
          (outside_calls_prints _ (loop_lines_are_prints _ Hlog)),
          app_nil_r, Hcalls. reflexivity.
      * intros e' [<-|Hin] Hel Hbad.
        -- apply failure_logged_app_l, failure_logged_app_r. auto.
        -- apply failure_logged_app_r. auto.
      * intros ev Hin. rewrite !in_app_iff in Hin.
        destruct Hin as [[Hin|Hin]|Hin];
          eauto using calls_not_closing, loop_lines_not_closing.
Qed.


Lemma persist_spec (s : store) :
  IngestLocal.persist ROOT s =
  match IngestLocal.docs s with
  | [] => (Ok tt, s, [Print MsgNoFiles])
  | _ :: _ =>
    if uniform (IngestLocal.docs s) then (Ok tt, s, persist_events ROOT s)
    else (Raise ValueError, s, [])
  end.
Proof.
  unfold IngestLocal.persist, persist_events, bind, get, lift, emit, print.
  simpl. destruct (IngestLocal.docs s) as [|a rest] eqn:Hd; simpl; [reflexivity|].
  match goal with
  | |- context [forallb ?f rest] => destruct (forallb f rest) eqn:Hu
  end; simpl; [|reflexivity].
  unfold Faiss.add; simpl. rewrite Nat.eqb_refl, Hu. reflexivity.
Qed.

Lemma written_index_outside (t : list (event scalar)) :
  IngestLocal.written_index (outside_calls t) = IngestLocal.written_index t.
Proof.
  induction t as [|ev t IH]; simpl; [reflexivity|].
  destruct ev; simpl; auto.
Qed.

Lemma written_meta_outside (t : list (event scalar)) :
  IngestLocal.written_meta (outside_calls t) = IngestLocal.written_meta t.
Proof.
  induction t as [|ev t IH]; simpl; [reflexivity|].
  destruct ev; simpl; auto.
Qed.

Lemma written_index_calls (l : list entry) (u : list (event scalar)) :
  IngestLocal.written_index (flat_map calls l ++ u) = IngestLocal.written_index u.
Proof.
  induction l as [|e l IH]; simpl; [reflexivity|].
  rewrite <- app_assoc. unfold calls at 1.
  destruct (eligible e); simpl; [|exact IH].
  destruct (IngestLocal.e_read e); simpl; exact IH.
Qed.

Lemma written_meta_calls (l : list entry) (u : list (event scalar)) :
  IngestLocal.written_meta (flat_map calls l ++ u) = IngestLocal.written_meta u.
Proof.
  induction l as [|e l IH]; simpl; [reflexivity|].
  rewrite <- app_assoc. unfold calls at 1.
  destruct (eligible e); simpl; [|exact IH].
  destruct (IngestLocal.e_read e); simpl; exact IH.
Qed.

Lemma scanned_all (l : list entry) :
  existsb filter_raises l = false -> scanned l = l.
Proof.
  induction l as [|e l IH]; simpl; [reflexivity|].
  intros H. apply orb_false_elim in H as [He Hl]. rewrite He, IH; auto.
Qed.

(** A run in which the filter raises: the exception ends the process
    before anything is written. *)
Lemma run_aborted (l : list entry) :
  existsb filter_raises l = true ->
  exists ex t,
    IngestLocal.run ROOT l = (Raise ex, fold_left step (scanned l) IngestLocal.initial, t)
    /\ outside_calls t = flat_map calls (scanned l)
    /\ (forall ev, In ev t -> closing_line ev = false).
Proof.
  intros H. unfold IngestLocal.run, IngestLocal.main.
  destruct (for_each_spec l IngestLocal.initial)
    as [r [t [Hrun [Hcalls [_ [Hraise [_ Hclosing]]]]]]].
  destruct (Hraise H) as [ex ->].
  exists ex, t. unfold bind. rewrite Hrun. auto.
Qed.

(** A run in which the filter raises nowhere gets to the part after the
    loop, with the store the entries have built up. *)
Lemma run_completed (l : list entry) :
  existsb filter_raises l = false ->
  exists r t u,
    IngestLocal.persist ROOT (fold_left step l IngestLocal.initial)
      = (r, fold_left step l IngestLocal.initial, u)
    /\ IngestLocal.run ROOT l
      = (r, fold_left step l IngestLocal.initial, t ++ u)
    /\ outside_calls t = flat_map calls l
    /\ (forall e, In e l -> eligible e = true ->
        restat_ok e = false \/ vector_of e = None -> failure_logged e t)
    /\ (forall ev, In ev t -> closing_line ev = false).
Proof.
  intros H. unfold IngestLocal.run, IngestLocal.main.
  destruct (for_each_spec l IngestLocal.initial)
    as [r [t [Hrun [Hcalls [Hok [_ [Hlogged Hclosing]]]]]]].
  rewrite (Hok H) in Hrun. rewrite (scanned_all l H) in *.
  unfold bind. rewrite Hrun.
  destruct (IngestLocal.persist ROOT (fold_left step l IngestLocal.initial))
    as [[r' s'] u] eqn:Hp.
  assert (s' = fold_left step l IngestLocal.initial) as ->.
  { rewrite persist_spec in Hp.
    destruct (IngestLocal.docs _); [|destruct (uniform _)]; congruence. }
  exists r', t, u. repeat split; auto.
Qed.

End IngestFacts.

(** ** Which entries ingest looks at *)

Section IngestFilter.
Import Py PathLib Proc IngestSpec.
Context {scalar : Type}.
Variable ROOT : path.

Local Abbreviation entry := (IngestLocal.entry (scalar := scalar)).
Local Abbreviation store := (IngestLocal.store (scalar := scalar)).

Lemma reads_app (t u : list (event scalar)) : reads (t ++ u) = reads t ++ reads u.
Proof.
  induction t as [|ev t IH]; simpl; [reflexivity|].
  destruct ev; simpl; rewrite ?IH; reflexivity.
Qed.

Lemma posts_app (t u : list (event scalar)) : posts (t ++ u) = posts t ++ posts u.
Proof.
  induction t as [|ev t IH]; simpl; [reflexivity|].
  destruct ev; simpl; rewrite ?IH; reflexivity.
Qed.

Lemma reads_outside (t : list (event scalar)) : reads (outside_calls t) = reads t.
Proof.
  induction t as [|ev t IH]; simpl; [reflexivity|].
  destruct ev; simpl; rewrite ?IH; reflexivity.
Qed.

Lemma posts_outside (t : list (event scalar)) : posts (outside_calls t) = posts t.
Proof.
  induction t as [|ev t IH]; simpl; [reflexivity|].
  destruct ev; simpl; rewrite ?IH; reflexivity.
Qed.

Lemma reads_calls (l : list entry) :
  reads (flat_map calls l)
  = map (fun e => str (IngestLocal.e_path e)) (filter eligible l).
Proof.
  induction l as [|e l IH]; simpl; [reflexivity|].
  rewrite reads_app, IH. unfold calls.
  destruct (eligible e); simpl; [|reflexivity].
  destruct (IngestLocal.e_read e); reflexivity.
Qed.

Lemma posts_calls (l : list entry) (req : Http.request) :
  In req (posts (flat_map calls l)) ->
  exists e bs, In e l /\ eligible e = true
               /\ IngestLocal.e_read e = Ok bs
               /\ req = embed_request (chunk_of bs).
Proof.
  induction l as [|e l IH]; simpl; [intros []|].
  rewrite posts_app, in_app_iff. intros [H|H].
  - unfold calls in H. destruct (eligible e) eqn:He; simpl in H; [|destruct H].
    destruct (IngestLocal.e_read e) as [bs|ex] eqn:Hr; simpl in H; [|destruct H].
    destruct H as [<-|[]]. exists e, bs. auto.
  - destruct (IH H) as [e' [bs [Hin Hrest]]]. exists e', bs. auto.
Qed.

Lemma scanned_incl (l : list entry) (e : entry) : In e (scanned l) -> In e l.
Proof.
  induction l as [|e' l IH]; simpl; [auto|].
  destruct (filter_raises e'); simpl; [intros []|]. intros [H|H]; auto.
Qed.

Lemma vector_of_eligible (e : entry) (v : Faiss.vec scalar) :
  vector_of e = Some v -> eligible e = true.
Proof. unfold vector_of. destruct (eligible e); [reflexivity|discriminate]. Qed.

Lemma meta_fold (l : list entry) (s : store) (rec : file_record) :
  In rec (IngestLocal.meta (fold_left step l s)) ->
  In rec (IngestLocal.meta s)
  \/ exists e, In e l /\ eligible e = true
               /\ r_path rec = str (IngestLocal.e_path e).
Proof.
  revert s. induction l as [|e l IH]; intros s; simpl; [auto|].
  intros H. destruct (IH _ H) as [H0|[e' [Hin Hrest]]].
  - unfold step in H0. destruct (vector_of e) as [v|] eqn:Hv; [|auto].
    destruct (IngestLocal.e_restat e) as [size|ex]; simpl in H0; [|auto].
    apply in_app_iff in H0 as [H0|[<-|[]]]; [auto|].
    right. exists e. split; [now left|]. split; [|reflexivity].
    exact (vector_of_eligible e Hv).
  - right. exists e'. split; [now right|exact Hrest].
Qed.

Lemma persist_quiet (s : store) :
  reads (snd (IngestLocal.persist ROOT s)) = []
  /\ posts (snd (IngestLocal.persist ROOT s)) = [].
Proof.
  rewrite persist_spec.
  destruct (IngestLocal.docs s); [|destruct (uniform _)]; split; reflexivity.
Qed.

(** The calls of a whole run, whether it ends well or not. *)
Lemma run_calls (l : list entry) :
  reads (trace (IngestLocal.run ROOT l)) = reads (flat_map calls (scanned l))
  /\ posts (trace (IngestLocal.run ROOT l)) = posts (flat_map calls (scanned l))
  /\ final (IngestLocal.run ROOT l) = fold_left step (scanned l) IngestLocal.initial.
Proof.
  destruct (existsb filter_raises l) eqn:H.
  - destruct (run_aborted ROOT l H) as [ex [t [-> [Hc _]]]]. unfold trace, final; simpl.
    rewrite <- Hc, reads_outside, posts_outside. auto.
  - destruct (run_completed ROOT l H) as [r [t [u [Hp [-> [Hc _]]]]]].
    unfold trace, final; simpl. rewrite (scanned_all l H).
    destruct (persist_quiet (fold_left step l IngestLocal.initial)) as [Hr Hq].
    rewrite Hp in Hr, Hq. simpl in Hr, Hq.
    rewrite reads_app, posts_app, Hr, Hq, !app_nil_r, <- Hc,
      reads_outside, posts_outside. auto.
Qed.

Lemma run_reads_sound (l : list entry) (p : pystr) :
  In p (reads (trace (IngestLocal.run ROOT l))) ->
  exists e, In e l /\ eligible e = true /\ p = str (IngestLocal.e_path e).
Proof.
  destruct (run_calls l) as [Hr _]. intros Hin.
  rewrite Hr, reads_calls in Hin.
  apply in_map_iff in Hin as [e [<- He]].
  apply filter_In in He as [He1 He2].
  exists e. auto using scanned_incl.
Qed.

Lemma run_posts_sound (l : list entry) (req : Http.request) :
  In req (posts (trace (IngestLocal.run ROOT l))) ->
  exists e bs, In e l /\ eligible e = true
               /\ IngestLocal.e_read e = Ok bs
               /\ req = embed_request (chunk_of bs).
Proof.
  destruct (run_calls l) as [_ [Hp _]]. intros Hin. rewrite Hp in Hin.
  destruct (posts_calls _ _ Hin) as [e [bs [He Hrest]]].
  exists e, bs. auto using scanned_incl.
Qed.

Lemma run_meta_sound (l : list entry) (rec : file_record) :
  In rec (IngestLocal.meta (final (IngestLocal.run ROOT l))) ->
  exists e, In e l /\ eligible e = true
            /\ r_path rec = str (IngestLocal.e_path e).
Proof.
  destruct (run_calls l) as [_ [_ Hf]]. intros Hin. rewrite Hf in Hin.
  destruct (meta_fold _ _ _ Hin) as [[]|[e [He Hrest]]].
  exists e. auto using scanned_incl.
Qed.

Lemma run_reads_complete (l : list entry) :
  existsb filter_raises l = false ->
  reads (trace (IngestLocal.run ROOT l))
  = map (fun e => str (IngestLocal.e_path e)) (filter eligible l).
Proof.
  destruct (run_calls l) as [Hr _]. intros H.
  rewrite Hr, (scanned_all l H). apply reads_calls.
Qed.

(** The statement of C8 on the part of the listing the loop gets to.
    Whatever ingest reads, sends to the embedding service or puts
    into the metadata belongs to an entry whose extension is [.md] or
    [.json] without regard to case and whose size is strictly positive;
    the files it reads are exactly those entries among the ones the loop
    gets to, in the order of the listing; and the loop gets to all
    entries when the size lookup of the filter raises nowhere. *)
Theorem ingest_considers_exactly_eligible (l : list entry) :
  (forall p, In p (reads (trace (IngestLocal.run ROOT l))) ->
     exists e, In e l /\ eligible e = true /\ p = str (IngestLocal.e_path e))
  /\ (forall req, In req (posts (trace (IngestLocal.run ROOT l))) ->
        exists e bs, In e l /\ eligible e = true
                     /\ IngestLocal.e_read e = Ok bs
                     /\ req = embed_request (chunk_of bs))
  /\ (forall rec, In rec (IngestLocal.meta (final (IngestLocal.run ROOT l))) ->
        exists e, In e l /\ eligible e = true
                  /\ r_path rec = str (IngestLocal.e_path e))
  /\ reads (trace (IngestLocal.run ROOT l))
     = map (fun e => str (IngestLocal.e_path e)) (filter eligible (scanned l))
  /\ (existsb filter_raises l = false ->
      reads (trace (IngestLocal.run ROOT l))
      = map (fun e => str (IngestLocal.e_path e)) (filter eligible l)).
Proof.
  split; [exact (run_reads_sound l)|].
  split; [exact (run_posts_sound l)|].
  split; [exact (run_meta_sound l)|].
  split; [|exact (run_reads_complete l)].
  destruct (run_calls l) as [Hr _]. rewrite Hr. apply reads_calls.
Qed.

End IngestFilter.

(** ** What ingest leaves on disk *)

Section IngestOutputs.
Import Py PathLib Proc IngestSpec.
Context {scalar : Type}.
Variable ROOT : path.

Local Abbreviation entry := (IngestLocal.entry (scalar := scalar)).
Local Abbreviation store := (IngestLocal.store (scalar := scalar)).

Lemma written_by_loop (l : list entry) (t u : list (event scalar)) :
  outside_calls t = flat_map calls l ->
  IngestLocal.written_index (t ++ u) = IngestLocal.written_index u
  /\ IngestLocal.written_meta (t ++ u) = IngestLocal.written_meta u.
Proof.
  intros Hc.
  rewrite <- written_index_outside, <- written_meta_outside.
  rewrite outside_calls_app, Hc, written_index_calls, written_meta_calls.
  rewrite written_index_outside, written_meta_outside. auto.
Qed.

(** A run the filter aborts writes nothing and prints no closing line. *)
Lemma aborted_run_writes_nothing (l : list entry) :
  existsb filter_raises l = true ->
  no_output (IngestLocal.run ROOT l)
  /\ (exists ex, outcome (IngestLocal.run ROOT l) = Raise ex)
  /\ (forall ev, In ev (trace (IngestLocal.run ROOT l)) -> closing_line ev = false).
Proof.
  intros H. destruct (run_aborted ROOT l H) as [ex [t [-> [Hc Hclosing]]]].
  unfold no_output, trace, outcome; simpl.
  destruct (written_by_loop (scanned l) t [] Hc) as [Hi Hm].
  rewrite app_nil_r in Hi, Hm. rewrite Hi, Hm. repeat split; eauto.
Qed.

(** A run in which the filter raises nowhere ends in one of three ways,
    decided by the vectors collected. *)
Lemma completed_run_outputs (l : list entry) :
  existsb filter_raises l = false ->
  let s := fold_left step l IngestLocal.initial in
  match IngestLocal.docs s with
  | [] =>
    outcome (IngestLocal.run ROOT l) = Ok tt
    /\ no_output (IngestLocal.run ROOT l)
    /\ In (Print MsgNoFiles) (trace (IngestLocal.run ROOT l))
  | a :: _ =>
    if uniform (IngestLocal.docs s) then
      outcome (IngestLocal.run ROOT l) = Ok tt
      /\ persisted (IngestLocal.run ROOT l)
           {| Faiss.d := List.length a; Faiss.xb := IngestLocal.docs s |}
           (IngestLocal.meta s)
      /\ ~ In (Print MsgNoFiles) (trace (IngestLocal.run ROOT l))
    else
      outcome (IngestLocal.run ROOT l) = Raise ValueError
      /\ no_output (IngestLocal.run ROOT l)
      /\ (forall ev, In ev (trace (IngestLocal.run ROOT l)) ->
            closing_line ev = false)
  end.
Proof.
  intros H s.
  destruct (run_completed ROOT l H) as [r [t [u [Hp [Hrun [Hc [_ Hclosing]]]]]]].
  fold s in Hp, Hrun. rewrite persist_spec in Hp.
  unfold persisted, no_output. rewrite Hrun. unfold outcome, trace; simpl.
  destruct (written_by_loop l t u Hc) as [-> ->].
  destruct (IngestLocal.docs s) as [|a rest] eqn:Hd.
  - injection Hp as <- <-. simpl.
    repeat split; auto. apply in_or_app. right. now left.
  - destruct (uniform (a :: rest)).
    + injection Hp as <- <-.
      unfold persist_events. rewrite Hd. simpl. repeat split; auto.
      intros Hin. apply in_app_iff in Hin as [Hin|Hin].
      * specialize (Hclosing _ Hin). discriminate.
      * simpl in Hin. intuition discriminate.
    + injection Hp as <- <-. simpl.
      repeat split; auto. rewrite app_nil_r. exact Hclosing.
Qed.

Lemma docs_fold (l : list entry) (s : store) :
  IngestLocal.docs (fold_left step l s) = IngestLocal.docs s ++ vectors l.
Proof.
  unfold vectors. revert s. induction l as [|e l IH]; intros s; simpl.
  - now rewrite app_nil_r.
  - rewrite IH. unfold step.
    destruct (vector_of e) as [v|]; simpl; [|reflexivity].
    destruct (IngestLocal.e_restat e); simpl; now rewrite <- app_assoc.
Qed.

(** Where every size lookup for a record succeeds, vectors and records
    grow side by side. *)
Lemma rows_fold (l : list entry) (s : store) :
  forallb restat_ok l = true ->
  IngestLocal.docs (fold_left step l s)
    = IngestLocal.docs s ++ map fst (rows_of l)
  /\ IngestLocal.meta (fold_left step l s)
    = IngestLocal.meta s ++ map snd (rows_of l).
Proof.
  revert s. induction l as [|e l IH]; intros s; simpl.
  - now rewrite !app_nil_r.
  - intros H. apply andb_prop in H as [He Hl].
    destruct (IH (step s e) Hl) as [-> ->].
    unfold step, row_of, restat_ok in *.
    destruct (vector_of e) as [v|]; simpl; [|auto].
    destruct (IngestLocal.e_restat e); simpl; [|discriminate].
    rewrite <- !app_assoc. auto.
Qed.

Lemma rows_of_sound (l : list entry) (v : Faiss.vec scalar) (rec : file_record) :
  In (v, rec) (rows_of l) ->
  exists e, In e l /\ eligible e = true
            /\ embedded (IngestLocal.e_reply e) = Some v
            /\ r_path rec = str (IngestLocal.e_path e)
            /\ IngestLocal.e_restat e = Ok (r_bytes rec).
Proof.
  unfold rows_of. rewrite in_flat_map. intros [e [Hin Hrow]].
  exists e. split; [exact Hin|].
  unfold row_of, vector_of in Hrow.
  destruct (eligible e); [|destruct Hrow].
  destruct (IngestLocal.e_read e); [|destruct Hrow].
  destruct (embedded (IngestLocal.e_reply e)) as [v'|]; [|destruct Hrow].
  destruct (IngestLocal.e_restat e) as [size|]; [|destruct Hrow].
  destruct Hrow as [Hrow|[]]. injection Hrow as -> <-. auto.
Qed.

End IngestOutputs.

(** ** Rows and records *)

Section IngestAlignment.
Import Py PathLib Proc IngestSpec.
Context {scalar : Type}.
Variable ROOT : path.

Local Abbreviation entry := (IngestLocal.entry (scalar := scalar)).

Lemma combine_fst_snd {A B} (l : list (A * B)) :
  combine (map fst l) (map snd l) = l.
Proof.
  induction l as [|[a b] l IH]; simpl; [reflexivity|]. now rewrite IH.
Qed.

Lemma nth_error_pairs {A B} (l : list (A * B)) (i : nat) (a : A) (b : B) :
  nth_error (map fst l) i = Some a ->
  nth_error (map snd l) i = Some b ->
  nth_error l i = Some (a, b).
Proof.
  revert i. induction l as [|[x y] l IH]; intros [|i]; simpl; try discriminate.
  - congruence.
  - apply IH.
Qed.

Lemma persisted_not_aborted (l : list entry) idx records :
  persisted (IngestLocal.run ROOT l) idx records ->
  existsb filter_raises l = false.
Proof.
  intros [Hi _]. destruct (existsb filter_raises l) eqn:H; [|reflexivity].
  destruct (aborted_run_writes_nothing ROOT l H) as [[Hn _] _].
  congruence.
Qed.

(** What a run has written is what its store held. *)
Lemma persisted_is_store (l : list entry) idx records :
  persisted (IngestLocal.run ROOT l) idx records ->
  Faiss.xb idx = vectors l
  /\ records = IngestLocal.meta (fold_left step l IngestLocal.initial).
Proof.
  intros Hp. pose proof (persisted_not_aborted l Hp) as H.
  pose proof (completed_run_outputs ROOT l H) as Hout. simpl in Hout.
  pose proof (docs_fold l IngestLocal.initial) as Hd. simpl in Hd.
  destruct Hp as [Hi Hm].
  destruct (IngestLocal.docs (fold_left step l IngestLocal.initial))
    as [|a rest] eqn:Hdocs.
  - destruct Hout as [_ [[Hn _] _]]. congruence.
  - destruct (uniform (a :: rest)).
    + destruct Hout as [_ [[Hi' Hm'] _]].
      rewrite Hi in Hi'. rewrite Hm in Hm'.
      injection Hi' as ->. injection Hm' as ->. simpl. auto.
    + destruct Hout as [_ [[Hn _] _]]. congruence.
Qed.

(** A run that writes its files has at least one row to write. *)
Lemma persisted_index_not_empty (l : list entry) idx records :
  persisted (IngestLocal.run ROOT l) idx records -> Faiss.xb idx <> [].
Proof.
  intros Hp. pose proof (persisted_not_aborted l Hp) as H.
  pose proof (completed_run_outputs ROOT l H) as Hout. simpl in Hout.
  destruct Hp as [Hi Hm].
  destruct (IngestLocal.docs (fold_left step l IngestLocal.initial))
    as [|a rest] eqn:Hdocs.
  - destruct Hout as [_ [[Hn _] _]]. congruence.
  - destruct (uniform (a :: rest)).
    + destruct Hout as [_ [[Hi' _] _]]. rewrite Hi in Hi'.
      injection Hi' as ->. discriminate.
    + destruct Hout as [_ [[Hn _] _]]. congruence.
Qed.

(** The statement of C1 on the runs in which no size lookup for a record
    fails: the index has one row per record, and row [i] is the vector
    of the entry whose path record [i] carries. *)
Theorem rows_match_records_when_restat_succeeds (l : list entry) idx records :
  forallb restat_ok l = true ->
  persisted (IngestLocal.run ROOT l) idx records ->
  List.length (Faiss.xb idx) = List.length records
  /\ combine (Faiss.xb idx) records = rows_of l
  /\ forall i v rec,
       nth_error (Faiss.xb idx) i = Some v ->
       nth_error records i = Some rec ->
       exists e, In e l /\ eligible e = true
                 /\ embedded (IngestLocal.e_reply e) = Some v
                 /\ r_path rec = str (IngestLocal.e_path e).
Proof.
  intros Hok Hp.
  destruct (persisted_is_store l Hp) as [Hx Hm].
  destruct (rows_fold l IngestLocal.initial Hok) as [Hd Hr].
  pose proof (docs_fold l IngestLocal.initial) as Hv.
  simpl in Hd, Hr, Hv. rewrite Hv in Hd.
  rewrite Hx, Hm, Hr, Hd.
  split; [now rewrite !length_map|].
  split; [apply combine_fst_snd|].
  intros i v rec Hv' Hrec.
  assert (Hin : In (v, rec) (rows_of l)).
  { apply nth_error_In with (n := i). now apply nth_error_pairs. }
  destruct (rows_of_sound l v rec Hin) as [e [He [Hel [Hemb [Hpath _]]]]].
  exists e. auto.
Qed.

End IngestAlignment.

(** C1 (code): [a.md] passes the filter, is read and embedded, and its
    vector is appended to [docs]; the size lookup for its record then
    raises, the handler of the loop prints the error, and the loop goes
    on.  The run ends well and writes an index of two rows next to a
    metadata list of one record, and that record, at position 0, is the
    one of [b.md] while row 0 is the vector of [a.md]. *)
Theorem rows_shift_after_failed_restat :
  let r := IngestLocal.run Examples.root Examples.with_vanishing_file in
  IngestSpec.outcome r = Py.Ok tt
  /\ IngestSpec.persisted r
       {| Faiss.d := 2; Faiss.xb := [Examples.vector_a; Examples.vector_b] |}
       [ {| Proc.r_path := Py.lit "/home/u/HARALD/b.md"; Proc.r_bytes := 4 |} ]
  /\ In (Proc.Print (Proc.MsgFileError (Py.lit "/home/u/HARALD/a.md")
                                         Py.FileNotFoundError))
        (IngestSpec.trace r).
Proof.
  vm_compute. repeat split; auto 10.
Qed.

(** C7 (code): the size lookup of the filter is outside the [try].  On a
    link without target named [x.md] it raises, and the run is over:
    the good file listed after it is never read, nothing is written and
    nothing is printed, not even the diagnostic. *)
Theorem dangling_link_ends_the_run :
  IngestLocal.run Examples.root Examples.with_dangling_link
  = (Py.Raise Py.FileNotFoundError, IngestLocal.initial, []).
Proof. reflexivity. Qed.

(** ** Files that fail *)

Section IngestFailures.
Import Py PathLib Proc IngestSpec.
Context {scalar : Type}.
Variable ROOT : path.

Local Abbreviation entry := (IngestLocal.entry (scalar := scalar)).

(** The statement of C7 on the runs in which the size lookup of the
    filter raises nowhere (and the vectors have one length): a file that
    is considered and yields no vector is logged and skipped, the run
    ends well, and it writes nothing and prints the diagnostic exactly
    when no file has yielded a vector. *)
Theorem failures_are_skipped_when_filter_succeeds (l : list entry) :
  existsb filter_raises l = false ->
  uniform (vectors l) = true ->
  outcome (IngestLocal.run ROOT l) = Ok tt
  /\ (forall e, In e l -> eligible e = true -> vector_of e = None ->
        failure_logged e (trace (IngestLocal.run ROOT l)))
  /\ (vectors l = [] ->
        no_output (IngestLocal.run ROOT l)
        /\ In (Print MsgNoFiles) (trace (IngestLocal.run ROOT l)))
  /\ (vectors l <> [] ->
        (exists idx records, persisted (IngestLocal.run ROOT l) idx records)
        /\ ~ In (Print MsgNoFiles) (trace (IngestLocal.run ROOT l))).
Proof.
  intros H Hu.
  pose proof (completed_run_outputs ROOT l H) as Hout. simpl in Hout.
  pose proof (docs_fold l IngestLocal.initial) as Hd. simpl in Hd.
  rewrite Hd in Hout.
  destruct (run_completed ROOT l H) as [r [t [u [_ [Hrun [_ [Hlogged _]]]]]]].
  split; [|split; [|split]].
  - destruct (vectors l); [|rewrite Hu in Hout]; apply Hout.
  - intros e He Hel Hv. rewrite Hrun. unfold trace; simpl.
    apply failure_logged_app_l. auto.
  - intros Hv. rewrite Hv in Hout. destruct Hout as [_ Hout]. exact Hout.
  - intros Hv. destruct (vectors l) as [|a rest]; [congruence|].
    rewrite Hu in Hout. destruct Hout as [_ [Hp Hn]]. eauto.
Qed.

End IngestFailures.

(** ** The index library *)

Section FaissFacts.
Import Py.
Context {scalar : Type}.
Variable closer : Faiss.vec scalar -> Faiss.vec scalar -> Faiss.vec scalar -> bool.
Variable finite : Faiss.vec scalar -> Faiss.vec scalar -> bool.

Lemma insert_length (q : Faiss.vec scalar) c l :
  List.length (Faiss.insert closer q c l) = S (List.length l).
Proof.
  induction l as [|c' l IH]; simpl; [reflexivity|].
  destruct (closer q (snd c') (snd c)); simpl; [now rewrite IH|reflexivity].
Qed.

Lemma insert_In (q : Faiss.vec scalar) c l x :
  In x (Faiss.insert closer q c l) <-> x = c \/ In x l.
Proof.
  induction l as [|c' l IH]; simpl; [intuition|].
  destruct (closer q (snd c') (snd c)); simpl; [rewrite IH|]; intuition.
Qed.

Lemma fold_insert_length (q : Faiss.vec scalar) cands acc :
  List.length (fold_left (fun a c => Faiss.insert closer q c a) cands acc)
  = (List.length cands + List.length acc)%nat.
Proof.
  revert acc. induction cands as [|c cands IH]; intros acc; simpl; [reflexivity|].
  rewrite IH, insert_length. lia.
Qed.

Lemma fold_insert_In (q : Faiss.vec scalar) cands acc x :
  In x (fold_left (fun a c => Faiss.insert closer q c a) cands acc)
  <-> In x cands \/ In x acc.
Proof.
  revert acc. induction cands as [|c cands IH]; intros acc; simpl; [intuition|].
  rewrite IH, insert_In. intuition.
Qed.

(** The ranking lists every row once: it is as long as the index. *)
Lemma ranked_length (idx : Faiss.index scalar) (q : Faiss.vec scalar) :
  List.length (Faiss.ranked closer finite idx q)
  = List.length (Faiss.candidates finite idx q).
Proof.
  unfold Faiss.ranked. rewrite fold_insert_length. simpl. lia.
Qed.

(** No more rows can enter a result than the index has. *)
Lemma candidates_bound (idx : Faiss.index scalar) (q : Faiss.vec scalar) :
  (List.length (Faiss.candidates finite idx q) <= Faiss.ntotal idx)%nat.
Proof.
  unfold Faiss.candidates.
  etransitivity; [apply filter_length_le|].
  rewrite length_combine, length_seq. unfold Faiss.ntotal. lia.
Qed.

Lemma combine_seq_In {A} (l : list A) (base i : nat) (a : A) :
  In (i, a) (combine (seq base (List.length l)) l) ->
  (base <= i < base + List.length l)%nat /\ nth_error l (i - base) = Some a.
Proof.
  revert base. induction l as [|x l IH]; intros base; simpl; [intros []|].
  intros [H|H].
  - injection H as <- <-. rewrite Nat.sub_diag. split; [lia|reflexivity].
  - destruct (IH _ H) as [Hr Hn]. split; [lia|].
    replace (i - base)%nat with (S (i - S base)) by lia. exact Hn.
Qed.

(** Every ranked position is a position of the index, with its row. *)
Lemma ranked_positions (idx : Faiss.index scalar) (q : Faiss.vec scalar) c :
  In c (Faiss.ranked closer finite idx q) ->
  (fst c < Faiss.ntotal idx)%nat
  /\ nth_error (Faiss.xb idx) (fst c) = Some (snd c).
Proof.
  unfold Faiss.ranked. rewrite fold_insert_In. intros [H|[]].
  apply filter_In in H as [H _].
  destruct c as [i v]. unfold Faiss.ntotal in *.
  destruct (combine_seq_In _ _ _ _ H) as [Hr Hn]. simpl.
  rewrite Nat.sub_0_r in Hn. split; [lia|exact Hn].
Qed.

(** A search gives [k] labels. *)
Lemma search_length (idx : Faiss.index scalar) (q : Faiss.vec scalar) k labels :
  Faiss.search closer finite idx q k = Ok labels -> List.length labels = k.
Proof.
  unfold Faiss.search. destruct (_ =? _)%nat; [|discriminate].
  intros H. injection H as <-.
  rewrite length_app, length_map, repeat_length, length_firstn. lia.
Qed.

(** A search fails only on a query of the wrong dimension. *)
Lemma search_succeeds (idx : Faiss.index scalar) (q : Faiss.vec scalar) k :
  List.length q = Faiss.d idx ->
  exists labels, Faiss.search closer finite idx q k = Ok labels.
Proof.
  intros H. unfold Faiss.search. rewrite H, Nat.eqb_refl. eauto.
Qed.

(** With no more rows than slots, the labels are the positions of all
    the rows that can enter the result, followed by [-1] in every slot
    left. *)
Lemma search_padding (idx : Faiss.index scalar) (q : Faiss.vec scalar) k :
  List.length q = Faiss.d idx ->
  (Faiss.ntotal idx <= k)%nat ->
  exists hits,
    Faiss.search closer finite idx q k
      = Ok (hits ++ repeat (-1)%Z (k - List.length hits))
    /\ List.length hits = List.length (Faiss.candidates finite idx q)
    /\ (List.length hits <= Faiss.ntotal idx)%nat
    /\ (forall i, In i hits -> (0 <= i < Z.of_nat (Faiss.ntotal idx))%Z).
Proof.
  intros Hq Hk. unfold Faiss.search. rewrite Hq, Nat.eqb_refl.
  pose proof (ranked_length idx q) as Hlen.
  pose proof (candidates_bound idx q) as Hb.
  rewrite firstn_all2 by lia.
  exists (map (fun c => Z.of_nat (fst c)) (Faiss.ranked closer finite idx q)).
  rewrite length_map, Hlen. repeat split; try lia.
  - apply in_map_iff in H as [c [<- Hc]]. lia.
  - apply in_map_iff in H as [c [<- Hc]].
    destruct (ranked_positions idx q c Hc). lia.
Qed.

(** *** The hits are the nearest rows

    This part rests on the distances being comparable: any two rows can
    be compared, and the comparison is transitive. *)

Section Ranking.
Variable q : Faiss.vec scalar.
Hypothesis closer_total :
  forall x y, closer q x y = false -> closer q y x = true.
Hypothesis closer_trans :
  forall x y z, closer q x y = true -> closer q y z = true ->
                closer q x z = true.

Local Abbreviation no_farther :=
  (fun c c' : nat * Faiss.vec scalar => closer q (snd c) (snd c') = true).

Lemma insert_perm c l : Permutation (Faiss.insert closer q c l) (c :: l).
Proof.
  induction l as [|c' l IH]; simpl; [reflexivity|].
  destruct (closer q (snd c') (snd c)); [|reflexivity].
  rewrite IH. apply perm_swap.
Qed.

Lemma insert_sorted c l :
  Sorted no_farther l -> Sorted no_farther (Faiss.insert closer q c l).
Proof.
  induction l as [|c' l IH]; simpl; intros Hs.
  - repeat constructor.
  - inversion Hs as [|? ? Hl Hhd]; subst.
    destruct (closer q (snd c') (snd c)) eqn:E.
    + constructor; [apply IH; exact Hl|].
      destruct l as [|c'' l]; simpl.
      * constructor. exact E.
      * destruct (closer q (snd c'') (snd c)); constructor;
          [now inversion Hhd|exact E].
    + constructor; [exact Hs|]. constructor. now apply closer_total.
Qed.

Lemma fold_insert_perm cands acc :
  Permutation (fold_left (fun a c => Faiss.insert closer q c a) cands acc)
              (cands ++ acc).
Proof.
  revert acc. induction cands as [|c cands IH]; intros acc; simpl; [reflexivity|].
  rewrite IH, insert_perm. apply Permutation_sym, Permutation_middle.
Qed.

Lemma fold_insert_sorted cands acc :
  Sorted no_farther acc ->
  Sorted no_farther (fold_left (fun a c => Faiss.insert closer q c a) cands acc).
Proof.
  revert acc. induction cands as [|c cands IH]; intros acc Hs; simpl; [exact Hs|].
  apply IH, insert_sorted, Hs.
Qed.

Lemma sorted_split (a b : list (nat * Faiss.vec scalar)) :
  Sorted no_farther (a ++ b) ->
  forall x y, In x a -> In y b -> no_farther x y.
Proof.
  intros Hs. apply Sorted_StronglySorted in Hs.
  2:{ intros x y z. apply closer_trans. }
  induction a as [|c a IH]; simpl in *; [intros x y []|].
  inversion Hs as [|? ? Hrest Hall]; subst.
  intros x y [<-|Hx] Hy.
  - rewrite Forall_forall in Hall. apply Hall, in_or_app. now right.
  - now apply IH.
Qed.

(** The labels of a search are the positions of the rows nearest to the
    query: the rows that can enter a result split into hits and rest,
    the labels are the positions of the hits (then [-1]), there are as
    many hits as the index can give, and no hit is farther than a row of
    the rest. *)
Lemma search_returns_nearest (idx : Faiss.index scalar) (k : nat)
  (labels : list Z) :
  Faiss.search closer finite idx q k = Ok labels ->
  exists hits rest,
    Permutation (hits ++ rest) (Faiss.candidates finite idx q)
    /\ labels = map (fun c => Z.of_nat (fst c)) hits
                ++ repeat (-1)%Z (k - List.length hits)
    /\ List.length hits = Nat.min k (List.length (Faiss.candidates finite idx q))
    /\ forall h r, In h hits -> In r rest ->
                   closer q (snd h) (snd r) = true.
Proof.
  unfold Faiss.search. destruct (_ =? _)%nat; [|discriminate].
  intros H. injection H as <-.
  exists (firstn k (Faiss.ranked closer finite idx q)),
         (skipn k (Faiss.ranked closer finite idx q)).
  split; [|split; [reflexivity|split]].
  - rewrite firstn_skipn. unfold Faiss.ranked.
    rewrite fold_insert_perm, app_nil_r. reflexivity.
  - rewrite length_firstn, ranked_length. reflexivity.
  - apply sorted_split. rewrite firstn_skipn. unfold Faiss.ranked.
    apply fold_insert_sorted. constructor.
Qed.

End Ranking.

End FaissFacts.

(** ** The ask script *)

Section AskFacts.
Import Py PathLib Proc AskSpec.
Context {scalar : Type}.
Variable closer : Faiss.vec scalar -> Faiss.vec scalar -> Faiss.vec scalar -> bool.
Variable finite : Faiss.vec scalar -> Faiss.vec scalar -> bool.

Local Abbreviation world := (AskLocal.world (scalar := scalar)).

(** The embedding call of ask: one request, and a failure of the service
    comes out as an exception. *)
Lemma ask_embed_fails (prompt : pystr)
  (w : Http.reply (Http.embeddings_body scalar)) (ex : exn) :
  embedding_failure w = Some ex ->
  AskLocal.embed prompt w tt
  = (Raise ex, tt, [Post (IngestSpec.embed_request prompt)]).
Proof.
  unfold embedding_failure, AskLocal.embed, requests_post, bind, emit, lift.
  destruct w as [|latency status b]; simpl.
  - intros H. injection H as <-. reflexivity.
  - destruct (600 <? latency)%Z; simpl.
    + intros H. injection H as <-. reflexivity.
    + destruct b as [|[[xs| |]|]|[|]|]; simpl; intros H;
        try discriminate; injection H as <-; reflexivity.
Qed.

Lemma ask_embed_succeeds (prompt : pystr) (latency status : Z)
  (xs : list scalar) :
  (latency <= 600)%Z ->
  AskLocal.embed prompt
    (Http.Answer latency status (Http.EmbObject (Some (Http.Numbers xs)))) tt
  = (Ok xs, tt, [Post (IngestSpec.embed_request prompt)]).
Proof.
  intros H. unfold AskLocal.embed, requests_post, bind, emit, lift. simpl.
  destruct (Z.ltb_spec 600 latency); [lia|]. reflexivity.
Qed.

(** The blocks of the context, one per label, each read in turn. *)
Lemma blocks_read (w : world) (labels : list Z) (texts : list pystr) :
  Forall2 (block_of w) labels texts ->
  exists paths,
    Forall2 (path_at w) labels paths
    /\ map_M (AskLocal.block w) labels tt
       = (Ok texts, tt, map (fun p => ReadText p) paths).
Proof.
  induction 1 as [|i text labels texts [record [bs [Hrec [Hbs ->]]]] _ IH].
  - exists []. split; [constructor|reflexivity].
  - destruct IH as [paths [Hpaths Hrun]].
    exists (r_path record :: paths). split.
    + constructor; [|exact Hpaths]. exists record. auto.
    + simpl. unfold bind at 1. unfold AskLocal.block at 1.
      unfold AskLocal.read_text, bind, lift, emit. rewrite Hrec. simpl.
      rewrite Hbs. simpl.
      unfold bind in Hrun. rewrite Hrun. simpl. now rewrite app_nil_r.
Qed.

Lemma three_of {A} (l : list A) :
  List.length l = 3%nat -> exists a b c, l = [a; b; c].
Proof.
  destruct l as [|a [|b [|c [|x l]]]]; simpl; try discriminate. eauto.
Qed.

Lemma bind_ok {S A B} (m : M scalar S A) (k : A -> M scalar S B)
  (s s1 : S) (a : A) (t1 : list (event scalar)) :
  m s = (Ok a, s1, t1) ->
  bind m k s = (fst (fst (k a s1)), snd (fst (k a s1)), t1 ++ snd (k a s1)).
Proof.
  intros H. unfold bind. rewrite H. now destruct (k a s1) as [[r s2] t2].
Qed.

Lemma bind_trace_prefix {S A B} (m : M scalar S A) (k : A -> M scalar S B)
  (s : S) :
  exists rest, snd (bind m k s) = snd (m s) ++ rest.
Proof.
  unfold bind. destruct (m s) as [[[a|ex] s1] t1]; simpl.
  - destruct (k a s1) as [[r s2] t2]. simpl. eauto.
  - exists []. now rewrite app_nil_r.
Qed.

(** Once the question is embedded, the index is searched, for 3
    neighbours, whatever it holds. *)
Lemma ask_searches_for_three (w : world) (q : Faiss.vec scalar)
  (latency status : Z) :
  AskLocal.w_embeddings w
    = Http.Answer latency status (Http.EmbObject (Some (Http.Numbers q))) ->
  (latency <= 600)%Z ->
  exists rest,
    snd (AskLocal.run closer finite w)
    = Post (IngestSpec.embed_request (AskLocal.question (AskLocal.w_argv w)))
      :: Search q 3 :: rest.
Proof.
  intros Hemb Hlat. unfold AskLocal.run, AskLocal.main.
  rewrite Hemb.
  erewrite bind_ok; [|apply ask_embed_succeeds; exact Hlat].
  match goal with
  | |- context [bind (AskLocal.index_search ?c ?f ?i ?v ?k) ?K tt] =>
    destruct (@bind_trace_prefix _ _ _ (AskLocal.index_search c f i v k) K tt)
      as [rest Hrest]
  end.
  simpl. rewrite Hrest.
  unfold AskLocal.index_search, bind, emit, lift. simpl.
  destruct (Faiss.search closer finite (AskLocal.w_index w) q 3); simpl; eauto.
Qed.

(** C6.  Once the question is embedded, the index is searched for the 3
    nearest rows, whatever the size of the corpus; and when every later
    step succeeds, the three files the labels point to are read and cut,
    the three blocks joined by blank lines and followed by a blank line
    and the question go to the chat service as one user message, and the
    content of its answer is printed as it is. *)
Theorem ask_retrieves_three_blocks (w : world)
  (q : Faiss.vec scalar) (latency_e status_e : Z) :
  AskLocal.w_embeddings w
    = Http.Answer latency_e status_e (Http.EmbObject (Some (Http.Numbers q))) ->
  (latency_e <= 600)%Z ->
  (exists rest,
     snd (AskLocal.run closer finite w)
     = Post (IngestSpec.embed_request (AskLocal.question (AskLocal.w_argv w)))
       :: Search q 3 :: rest)
  /\ forall (labels : list Z) (texts : list pystr)
       (latency_c status_c : Z) (reply_text : pystr),
      Faiss.search closer finite (AskLocal.w_index w) q 3 = Ok labels ->
      Forall2 (block_of w) labels texts ->
      AskLocal.w_chat w
        = Http.Answer latency_c status_c
            (Http.ChatObject (Some (Some reply_text))) ->
      exists i1 i2 i3 p1 p2 p3 t1 t2 t3,
        labels = [i1; i2; i3] /\ texts = [t1; t2; t3]
        /\ path_at w i1 p1 /\ path_at w i2 p2 /\ path_at w i3 p3
        /\ AskLocal.run closer finite w
           = (Ok tt,
              [ Post (IngestSpec.embed_request
                        (AskLocal.question (AskLocal.w_argv w)));
                Search q 3;
                ReadText p1; ReadText p2; ReadText p3;
                Post (chat_request
                        (t1 ++ blank_line ++ t2 ++ blank_line ++ t3
                         ++ blank_line
                         ++ AskLocal.question (AskLocal.w_argv w)));
                Print (MsgText reply_text) ]).
Proof.
  intros Hemb Hlat. split; [exact (ask_searches_for_three w Hemb Hlat)|].
  intros labels texts latency_c status_c reply_text Hsearch Hblocks Hchat.
  destruct (three_of labels (search_length _ _ _ _ _ Hsearch)) as [i1 [i2 [i3 ->]]].
  destruct (blocks_read Hblocks) as [paths [Hpaths Hrun]].
  inversion Hblocks as [|? t1 ? l1 _ H1]; subst.
  inversion H1 as [|? t2 ? l2 _ H2]; subst.
  inversion H2 as [|? t3 ? l3 _ H3]; subst.
  inversion H3; subst.
  inversion Hpaths as [|? p1 ? k1 Hp1 G1]; subst.
  inversion G1 as [|? p2 ? k2 Hp2 G2]; subst.
  inversion G2 as [|? p3 ? k3 Hp3 G3]; subst.
  inversion G3; subst.
  exists i1, i2, i3, p1, p2, p3, t1, t2, t3. repeat split; auto.
  unfold AskLocal.run, AskLocal.main.
  unfold bind at 1. rewrite Hemb, (ask_embed_succeeds _ _ _ Hlat).
  unfold bind at 1. unfold AskLocal.index_search, bind, emit, lift.
  rewrite Hsearch. simpl fst. cbv beta iota.
  rewrite Hrun. unfold requests_post, bind, emit, lift. rewrite Hchat. simpl.
  unfold chat_request, AskLocal.user_message, blank_line. simpl.
  repeat (rewrite <- app_assoc; simpl). reflexivity.
Qed.

Lemma join_empty (sep : pystr) (parts : list pystr) :
  sep <> [] -> (join sep parts = [] <-> parts = [] \/ parts = [[]]).
Proof.
  intros Hsep. destruct parts as [|a [|b rest]]; simpl.
  - intuition.
  - split; [intros ->; auto|]. intros [H|H]; [discriminate|congruence].
  - split.
    + intros H. apply app_eq_nil in H as [_ H].
      apply app_eq_nil in H as [H _]. contradiction.
    + intros [H|H]; discriminate.
Qed.

(** C9, as the code has it.  The default question is used exactly when
    the arguments joined by spaces give the empty string, which is the
    case without arguments and with a single empty argument; in every
    other case the question is the arguments joined by single spaces. *)
Theorem question_defaults_when_joined_is_empty (argv : list pystr) :
  (tl argv = [] \/ tl argv = [[]] ->
   AskLocal.question argv = lit "List all entity names.")
  /\ (~ (tl argv = [] \/ tl argv = [[]]) ->
      AskLocal.question argv = join (lit " ") (tl argv)).
Proof.
  unfold AskLocal.question, or_else.
  pose proof (@join_empty (lit " ") (tl argv)) as H.
  destruct (join (lit " ") (tl argv)) as [|c s] eqn:Hj; simpl.
  - split; [reflexivity|]. intros Hn. exfalso. apply Hn, H; [discriminate|reflexivity].
  - split; [|reflexivity]. intros Hd. apply H in Hd; discriminate.
Qed.

Lemma getitem_last {A} (l : list A) (dflt : A) :
  l <> [] -> getitem l (-1) = Ok (last l dflt).
Proof.
  intros Hl. destruct (exists_last Hl) as [l' [x ->]].
  unfold getitem. rewrite length_app, last_last. simpl List.length.
  replace (-1 <? 0)%Z with true by reflexivity.
  assert (Hj : (-1 + Z.of_nat (List.length l' + 1))%Z = Z.of_nat (List.length l'))
    by lia.
  rewrite Hj.
  destruct (Z.leb_spec 0 (Z.of_nat (List.length l'))); [|lia].
  destruct (Z.ltb_spec (Z.of_nat (List.length l')) (Z.of_nat (List.length l' + 1)));
    [|lia].
  simpl. rewrite Nat2Z.id, nth_error_app2, Nat.sub_diag by lia. reflexivity.
Qed.

End AskFacts.

(** ** Failing and slow requests *)

Section Requests.
Import Py PathLib Proc IngestSpec AskSpec.
Context {scalar : Type}.
Variable closer : Faiss.vec scalar -> Faiss.vec scalar -> Faiss.vec scalar -> bool.
Variable finite : Faiss.vec scalar -> Faiss.vec scalar -> bool.
Variable ROOT : path.

Local Abbreviation entry := (IngestLocal.entry (scalar := scalar)).
Local Abbreviation world := (AskLocal.world (scalar := scalar)).

(** In ingest, a request that times out, an answer with an error status
    and a body without ["embedding"] all give no vector. *)
Lemma ingest_embed_signals_failure {S}
  (text : pystr) (w : Http.reply (Http.embeddings_body scalar)) (s : S) :
  timed_out w \/ error_answer w \/ lacks_embedding w ->
  exists log,
    IngestLocal.embed text w s = (Ok None, s, Post (embed_request text) :: log).
Proof.
  intros H. destruct (embed_spec text w s) as [log [Hrun _]].
  exists log. rewrite Hrun. repeat f_equal.
  destruct H as [[lat [st [b [-> Hl]]]]|[[lat [st [b [-> [Hl Hs]]]]]|[lat [st ->]]]];
    unfold embed_outcome, unusable, embedded.
  - destruct (Z.leb_spec lat 600); [lia|]. simpl.
    destruct b as [|[[xs| |]|]|[|]|]; reflexivity.
  - assert (He : error_status st = true).
    { unfold error_status.
      destruct (Z.leb_spec 400 st); [|lia]. destruct (Z.ltb_spec st 600); [|lia].
      reflexivity. }
    rewrite He. simpl. rewrite !andb_false_r. simpl.
    destruct b as [|[[xs| |]|]|[|]|]; reflexivity.
  - rewrite andb_false_r. reflexivity.
Qed.

(** The loop then skips the file: nothing is added to the store, the
    skip is printed, and the loop goes on. *)
Lemma ingest_skips_on_embedding_failure (e : entry) (s : IngestLocal.store) :
  eligible e = true ->
  timed_out (IngestLocal.e_reply e) \/ error_answer (IngestLocal.e_reply e)
  \/ lacks_embedding (IngestLocal.e_reply e) ->
  exists t, IngestLocal.loop_body e s = (Ok tt, s, t) /\ failure_logged e t.
Proof.
  intros He Hw.
  assert (Hemb : embedded (IngestLocal.e_reply e) = None).
  { destruct (ingest_embed_signals_failure [] tt Hw) as [log Hrun].
    destruct (embed_spec [] (IngestLocal.e_reply e) tt) as [log' [Hrun' _]].
    rewrite Hrun in Hrun'. injection Hrun' as Ho _. unfold embed_outcome in Ho.
    destruct (unusable (IngestLocal.e_reply e)); [discriminate|]. congruence. }
  assert (Hv : vector_of e = None).
  { unfold vector_of. rewrite He. now destruct (IngestLocal.e_read e). }
  assert (Hf : filter_raises e = false).
  { unfold eligible, filter_raises in *.
    destruct (extension_matches _); [|reflexivity].
    destruct (IngestLocal.e_stat e); [reflexivity|discriminate]. }
  destruct (loop_body_runs e s Hf) as [log [Hrun [_ Hlog]]].
  exists (calls e ++ log). split.
  - rewrite Hrun. unfold step. now rewrite Hv.
  - apply failure_logged_app_r. auto.
Qed.


(** A timeout and a missing field are such failures. *)
Lemma ask_embedding_failures (w : Http.reply (Http.embeddings_body scalar)) :
  (timed_out w -> embedding_failure w = Some Timeout)
  /\ (lacks_embedding w -> (forall latency status b,
        w = Http.Answer latency status b -> (latency <= 600)%Z) ->
      embedding_failure w = Some KeyError).
Proof.
  split.
  - intros [lat [st [b [-> Hl]]]]. simpl.
    destruct (Z.ltb_spec 600 lat); [reflexivity|lia].
  - intros [lat [st ->]] Hl. simpl. specialize (Hl _ _ _ eq_refl).
    destruct (Z.ltb_spec 600 lat); [lia|reflexivity].
Qed.

(** Every request of an ingest run carries the timeout of 600 seconds. *)
Lemma ingest_requests_have_timeout (l : list entry) (req : Http.request) :
  In req (posts (trace (IngestLocal.run ROOT l))) ->
  Http.timeout req = Some 600%Z.
Proof.
  intros H.
  destruct (run_posts_sound ROOT l req H) as [e [bs [_ [_ [_ ->]]]]].
  reflexivity.
Qed.

End Requests.

(** ** The requests of ask *)

Section AskRequests.
Import Py PathLib Proc IngestSpec AskSpec.
Context {scalar : Type}.
Variable closer : Faiss.vec scalar -> Faiss.vec scalar -> Faiss.vec scalar -> bool.
Variable finite : Faiss.vec scalar -> Faiss.vec scalar -> bool.

Local Abbreviation world := (AskLocal.world (scalar := scalar)).

Lemma block_posts_nothing (w : world) (i : Z) :
  posts (snd (AskLocal.block w i tt)) = [].
Proof.
  unfold AskLocal.block, AskLocal.read_text, bind, lift, emit.
  destruct (getitem (AskLocal.w_meta w) i) as [record|ex]; simpl; [|reflexivity].
  destruct (AskLocal.w_files w (r_path record)); reflexivity.
Qed.

Lemma blocks_post_nothing (w : world) (labels : list Z) :
  posts (snd (map_M (AskLocal.block w) labels tt)) = [].
Proof.
  induction labels as [|i labels IH]; simpl; [reflexivity|].
  unfold bind at 1. pose proof (block_posts_nothing w i) as Hb.
  destruct (AskLocal.block w i tt) as [[[text|ex] []] t]; simpl in *; [|exact Hb].
  unfold bind.
  destruct (map_M (AskLocal.block w) labels tt) as [[[texts|ex] []] t'];
    simpl in *; rewrite ?app_nil_r, posts_app, Hb, IH; reflexivity.
Qed.

(** The requests of a run of ask: the embeddings request with its
    timeout of 600 seconds and, if the run gets that far, the chat
    request, which has none. *)
Lemma ask_requests (w : world) :
  exists context,
    posts (snd (AskLocal.run closer finite w))
      = [embed_request (AskLocal.question (AskLocal.w_argv w))]
    \/ posts (snd (AskLocal.run closer finite w))
      = [embed_request (AskLocal.question (AskLocal.w_argv w));
         chat_request (context ++ blank_line
                       ++ AskLocal.question (AskLocal.w_argv w))].
Proof.
  unfold AskLocal.run.
  destruct (AskLocal.main closer finite w tt) as [[r []] t] eqn:Hmain. simpl.
  unfold AskLocal.main in Hmain.
  set (question := AskLocal.question (AskLocal.w_argv w)) in *.
  unfold bind at 1 in Hmain.
  destruct (embedding_failure (AskLocal.w_embeddings w)) as [ex|] eqn:Hf.
  - rewrite (ask_embed_fails _ _ Hf) in Hmain. injection Hmain as _ <-.
    exists []. left. reflexivity.
  - destruct (AskLocal.w_embeddings w) as [|latency status [|[[xs| |]|]|[|]|]];
      simpl in Hf; try discriminate;
      destruct (Z.ltb_spec 600 latency); try discriminate.
    rewrite ask_embed_succeeds in Hmain by lia.
    unfold bind at 1 in Hmain.
    unfold AskLocal.index_search in Hmain. unfold bind at 1 in Hmain.
    unfold emit, lift in Hmain.
    destruct (Faiss.search closer finite (AskLocal.w_index w) xs 3) as [labels|ex];
      simpl in Hmain; [|injection Hmain as _ <-; exists []; left; reflexivity].
    unfold bind at 1 in Hmain.
    pose proof (blocks_post_nothing w labels) as Hb.
    destruct (map_M (AskLocal.block w) labels tt) as [[[texts|ex] []] t'];
      simpl in Hb;
      [|injection Hmain as _ <-; exists []; left; simpl; now rewrite Hb].
    exists (join [10; 10]%N texts). right.
    unfold requests_post, bind, emit, lift in Hmain.
    destruct (AskLocal.w_chat w) as [|latency' status' [|[[c|]|]|]];
      simpl in Hmain; injection Hmain as _ <-; simpl;
      rewrite posts_app, Hb; reflexivity.
Qed.

End AskRequests.

(** C3 (code): the embedding call of ask does not look at the status.
    An answer with status 500 whose body has an ["embedding"] gives a
    vector there (and the run goes on to print an answer), where the
    embedding call of ingest, which calls [raise_for_status], gives
    [None]. *)
Theorem ask_embed_accepts_error_status :
  AskLocal.embed (Py.lit "q") Examples.error_with_vector tt
  = (Py.Ok Examples.vector_a, tt,
     [Proc.Post (IngestSpec.embed_request (Py.lit "q"))])
  /\ fst (fst (IngestLocal.embed (Py.lit "q") Examples.error_with_vector tt))
     = Py.Ok None
  /\ fst (AskLocal.run Examples.closer Examples.finite
            (Examples.ask_world Examples.corpus3 [Py.lit "q"]
               Examples.error_with_vector (Examples.chat_after 3)))
     = Py.Ok tt.
Proof. vm_compute. auto. Qed.

(** C5 (code): the chat request is sent without a timeout.  With a chat
    service that needs a whole day the run still ends well and prints
    the answer; of its two requests the first has the timeout of 600
    seconds and the second has none. *)
Theorem chat_request_has_no_timeout :
  let r := AskLocal.run Examples.closer Examples.finite
             (Examples.ask_world Examples.corpus3 [Py.lit "who"]
                (Examples.answers [1; 1]%Z) (Examples.chat_after 86400)) in
  fst r = Py.Ok tt
  /\ map Http.timeout (IngestSpec.posts (snd r)) = [Some 600%Z; None]
  /\ In (Proc.Print (Proc.MsgText (Py.lit "fine"))) (snd r).
Proof. vm_compute. auto 10. Qed.

(** C8 (code): [a.md] and [b.md] both have an accepted extension and a
    positive size, and the link [x.md] between them has no target.  The
    size lookup of the filter raises for the link, outside the [try] of
    the loop, and ends the process: [a.md] has been read, embedded and
    recorded, nothing is written, and [b.md] is never read, never
    embedded and never recorded. *)
Theorem eligible_file_behind_a_dangling_link_is_not_considered :
  let l := Examples.with_link_in_the_middle in
  let r := IngestLocal.run Examples.root l in
  map IngestSpec.eligible l = [true; false; true]
  /\ IngestSpec.outcome r = Py.Raise Py.FileNotFoundError
  /\ IngestSpec.reads (IngestSpec.trace r) = [Py.lit "/home/u/HARALD/a.md"]
  /\ IngestSpec.posts (IngestSpec.trace r)
     = [IngestSpec.embed_request (Py.lit "alpha")]
  /\ IngestLocal.meta (IngestSpec.final r)
     = [Examples.record "/home/u/HARALD/a.md" 5]
  /\ IngestSpec.no_output r.
Proof. vm_compute. repeat split; reflexivity. Qed.

(** C10 (code): ask on the corpus the run of C1 has left behind, two
    rows and one record.  The search gives the two rows and [-1] for the
    slot left; the record of the first label is read, and the lookup of
    the second label, which has no record, raises [IndexError]: the run
    ends there, before the slot with [-1] is looked at, and nothing is
    sent to the chat service. *)
Theorem ask_on_a_shifted_corpus_raises_index_error :
  let w := Examples.ask_world Examples.shifted_corpus [Py.lit "who"]
             (Examples.answers [1; 0]%Z) (Examples.chat_after 1) in
  IngestSpec.persisted
    (IngestLocal.run Examples.root Examples.with_vanishing_file)
    (AskLocal.w_index w) (AskLocal.w_meta w)
  /\ Faiss.ntotal (AskLocal.w_index w) = 2%nat
  /\ Faiss.search Examples.closer Examples.finite (AskLocal.w_index w)
       [1; 0]%Z 3
     = Py.Ok [0; 1; -1]%Z
  /\ AskLocal.run Examples.closer Examples.finite w
     = (Py.Raise Py.IndexError,
        [ Proc.Post (IngestSpec.embed_request (Py.lit "who"));
          Proc.Search [1; 0]%Z 3;
          Proc.ReadText (Py.lit "/home/u/HARALD/b.md") ]).
Proof. vm_compute. repeat split; reflexivity. Qed.

(** ** The text that is embedded and the text that is re-read *)

Section Chunks.
Import Py PathLib Proc IngestSpec AskSpec.
Context {scalar : Type}.
Variable ROOT : path.

Local Abbreviation entry := (IngestLocal.entry (scalar := scalar)).
Local Abbreviation world := (AskLocal.world (scalar := scalar)).

Lemma utf8_width_bound (c : codepoint) : (1 <= utf8_width c <= 4)%nat.
Proof.
  unfold utf8_width.
  destruct (c <? 128)%N; [lia|]. destruct (c <? 2048)%N; [lia|].
  destruct (c <? 65536)%N; lia.
Qed.

Lemma utf8_size_bound (s : pystr) :
  (List.length s <= utf8_size s <= 4 * List.length s)%nat.
Proof.
  induction s as [|c s IH]; simpl; [lia|].
  pose proof (utf8_width_bound c). lia.
Qed.

(** A slice is a prefix of at most the requested length. *)
Lemma slice_to_prefix {A} (n : nat) (s : list A) :
  (List.length (slice_to n s) <= n)%nat
  /\ exists rest, s = slice_to n s ++ rest.
Proof.
  unfold slice_to. split.
  - rewrite length_firstn. lia.
  - exists (skipn n s). now rewrite firstn_skipn.
Qed.

(** The block of a position whose record and file are there. *)
Lemma block_reads_prefix (w : world) (i : Z) (record : file_record)
  (bs : list byte) :
  getitem (AskLocal.w_meta w) i = Ok record ->
  AskLocal.w_files w (r_path record) = Ok bs ->
  AskLocal.block w i tt
  = (Ok (slice_to 800 (decode_text bs)), tt, [ReadText (r_path record)]).
Proof.
  intros Hrec Hbs.
  unfold AskLocal.block, AskLocal.read_text, bind, lift, emit.
  rewrite Hrec. simpl. rewrite Hbs. reflexivity.
Qed.

(** C4, as the code has it.  The text ingest sends for a file, and the
    text ask puts into the context for a hit, is the decoded text of the
    file cut after 800 characters: a prefix of the text of at most 800
    code points, which may take up to 3200 bytes. *)
Theorem chunks_hold_at_most_800_characters :
  (forall (l : list entry) (req : Http.request),
     In req (posts (trace (IngestLocal.run ROOT l))) ->
     exists e bs,
       In e l /\ eligible e = true /\ IngestLocal.e_read e = Ok bs
       /\ req = embed_request (slice_to 800 (decode_text bs)))
  /\ (forall (w : world) (i : Z) (record : file_record) (bs : list byte),
        getitem (AskLocal.w_meta w) i = Ok record ->
        AskLocal.w_files w (r_path record) = Ok bs ->
        AskLocal.block w i tt
        = (Ok (slice_to 800 (decode_text bs)), tt, [ReadText (r_path record)]))
  /\ (forall bs : list byte,
        (List.length (slice_to 800 (decode_text bs)) <= 800)%nat
        /\ (utf8_size (slice_to 800 (decode_text bs)) <= 3200)%nat
        /\ exists rest,
             decode_text bs = slice_to 800 (decode_text bs) ++ rest).
Proof.
  split; [|split].
  - intros l req H. exact (run_posts_sound ROOT l req H).
  - exact block_reads_prefix.
  - intros bs.
    destruct (slice_to_prefix 800 (decode_text bs)) as [Hlen Hpre].
    pose proof (utf8_size_bound (slice_to 800 (decode_text bs))).
    repeat split; [exact Hlen|lia|exact Hpre].
Qed.

End Chunks.

(** C4 (as stated, refuted): a file of 800 two-byte characters.  Ingest
    sends all 800 characters, the whole 1600 bytes of the file, and ask
    puts as much into the context. *)
Lemma chunk_of_accented_file_exceeds_800_bytes :
  List.length Examples.accented = 1600%nat
  /\ IngestSpec.posts (IngestSpec.trace
       (IngestLocal.run Examples.root Examples.with_accented_file))
     = [IngestSpec.embed_request (repeat 233%N 800)]
  /\ fst (fst (AskLocal.block
       (Examples.ask_world
          (Faiss.IndexFlatL2 2, [Examples.record "/home/u/HARALD/e.md" 1600])
          [] (Examples.answers [1; 1]%Z) (Examples.chat_after 1)) 0 tt))
     = Py.Ok (repeat 233%N 800)
  /\ Py.utf8_size (repeat 233%N 800) = 1600%nat
  /\ ~ (Py.utf8_size (repeat 233%N 800) <= 800)%nat.
Proof.
  split; [reflexivity|]. split; [vm_compute; reflexivity|].
  split; [vm_compute; reflexivity|].
  assert (H : Py.utf8_size (repeat 233%N 800) = 1600%nat) by (vm_compute; reflexivity).
  split; [exact H|]. rewrite H. lia.
Qed.

(** ** Two runs in a row *)

Section TwoRuns.
Import Py PathLib Proc IngestSpec Quiescent TwoRunsSpec.
Context {scalar : Type}.
Variable ROOT : path.
Variable service : pystr -> Http.reply (Http.embeddings_body scalar).
Variable serialize : Faiss.index scalar -> list byte.
Variable place : Quiescent.tree -> path -> nat.

Local Abbreviation tree := (Quiescent.tree).
Local Abbreviation observe := (Quiescent.observe service).
Local Abbreviation write_file := (Quiescent.write_file place).

Lemma path_eqb_eq (p q : path) : path_eqb p q = true -> p = q.
Proof.
  unfold path_eqb.
  destruct (list_eq_dec (list_eq_dec N.eq_dec) p q); [auto|discriminate].
Qed.

(** In a quiescent tree the size lookup for a record never fails. *)
Lemma observe_restat_ok (t : tree) :
  forallb restat_ok (map observe t) = true.
Proof.
  induction t as [|[p n] t IH]; simpl; [reflexivity|].
  rewrite IH, andb_true_r. unfold restat_ok, Quiescent.observe.
  destruct n; simpl.
  - now destruct (vector_of _).
  - now destruct (vector_of _).
  - unfold vector_of, eligible. simpl. now rewrite andb_false_r.
Qed.

(** A regular file never makes the filter raise. *)
Lemma write_file_filter (t : tree) (p : path) (content : list byte) :
  existsb filter_raises (map observe t) = false ->
  existsb filter_raises (map observe (write_file t p content)) = false.
Proof.
  assert (Hreg : forall q c,
            filter_raises (observe (q, RegularFile c)) = false).
  { intros q c. unfold filter_raises. simpl. apply andb_false_r. }
  unfold Quiescent.write_file. destruct (listed t p).
  - induction t as [|[p' n] t IH]; simpl; [reflexivity|].
    intros H. apply orb_false_elim in H as [H1 H2].
    destruct (path_eqb p' p); simpl.
    + now rewrite Hreg, H2.
    + now rewrite H1, IH.
  - intros H. rewrite <- (firstn_skipn (place t p) t) in H.
    rewrite map_app, existsb_app in H. apply orb_false_elim in H as [H1 H2].
    rewrite map_app, existsb_app, H1. simpl. now rewrite Hreg, H2.
Qed.

Local Abbreviation contribution := (TwoRunsSpec.contribution ROOT service).

Lemma foreign_rows (t : tree) :
  filter (not_own_metadata ROOT) (map snd (rows_of (map observe t)))
  = flat_map contribution t.
Proof.
  induction t as [|pn t IH]; simpl; [reflexivity|].
  unfold rows_of in *. simpl. rewrite map_app, filter_app, IH. reflexivity.
Qed.

(** Writing a file whose entries contribute nothing changes nothing. *)
Lemma write_file_contribution (t : tree) (p : path) (content : list byte) :
  (forall n, contribution (p, n) = []) ->
  flat_map contribution (write_file t p content) = flat_map contribution t.
Proof.
  intros Hp. unfold Quiescent.write_file. destruct (listed t p).
  - induction t as [|[p' n] t IH]; simpl; [reflexivity|].
    destruct (path_eqb p' p) eqn:E; simpl.
    + apply path_eqb_eq in E. subst p'. now rewrite !Hp.
    + now rewrite IH.
  - rewrite flat_map_app. simpl. rewrite Hp. simpl.
    rewrite <- flat_map_app, firstn_skipn. reflexivity.
Qed.

Lemma row_of_path (e : IngestLocal.entry (scalar := scalar)) v rec :
  row_of e = Some (v, rec) -> r_path rec = str (IngestLocal.e_path e).
Proof.
  unfold row_of. destruct (vector_of e); [|discriminate].
  destruct (IngestLocal.e_restat e); [|discriminate].
  intros H. injection H as _ <-. reflexivity.
Qed.

Lemma meta_file_contributes_nothing (n : node) :
  contribution (meta_file ROOT, n) = [].
Proof.
  unfold contribution.
  destruct (row_of (observe (meta_file ROOT, n))) as [[v rec]|] eqn:Hrow;
    [|reflexivity].
  apply row_of_path in Hrow. simpl.
  unfold not_own_metadata. rewrite Hrow.
  replace (IngestLocal.e_path (observe (meta_file ROOT, n)))
    with (meta_file ROOT) by (destruct n; reflexivity).
  unfold str_eqb. destruct (list_eq_dec _ _ _); [reflexivity|contradiction].
Qed.

Lemma index_file_not_eligible (n : node) :
  eligible (observe (index_file ROOT, n)) = false.
Proof.
  unfold eligible.
  replace (IngestLocal.e_path (observe (index_file ROOT, n)))
    with (index_file ROOT) by (destruct n; reflexivity).
  assert (H : extension_matches (index_file ROOT) = false).
  { unfold extension_matches, suffix, name, index_file, div.
    rewrite last_last. reflexivity. }
  now rewrite H.
Qed.

Lemma index_file_contributes_nothing (n : node) :
  contribution (index_file ROOT, n) = [].
Proof.
  unfold contribution, row_of, vector_of.
  now rewrite index_file_not_eligible.
Qed.

(** The metadata in memory at the end of a run that is not aborted. *)
Lemma quiescent_meta (t : tree) :
  existsb filter_raises (map observe t) = false ->
  meta_of (ingest ROOT service t) = map snd (rows_of (map observe t)).
Proof.
  intros H. unfold meta_of, ingest.
  destruct (run_calls ROOT (map observe t)) as [_ [_ Hf]].
  unfold final in Hf. rewrite Hf, (scanned_all _ H).
  destruct (rows_fold (map observe t) IngestLocal.initial (observe_restat_ok t))
    as [_ Hm].
  exact Hm.
Qed.

Lemma second_run_foreign_paths (t : tree) :
  foreign_paths ROOT (meta_of (second_run ROOT service serialize place t))
  = foreign_paths ROOT (meta_of (ingest ROOT service t)).
Proof.
  unfold second_run, tree_after.
  destruct (IngestLocal.written_index (snd (ingest ROOT service t)))
    as [idx|] eqn:Hi; [|reflexivity].
  destruct (IngestLocal.written_meta (snd (ingest ROOT service t)))
    as [records|] eqn:Hm; [|reflexivity].
  assert (Hp : persisted (ingest ROOT service t) idx records) by (split; assumption).
  pose proof (persisted_not_aborted _ _ Hp) as H1.
  pose proof (write_file_filter _ (meta_file ROOT)
                (Json.ascii_bytes (Json.dumps records))
                (write_file_filter _ (index_file ROOT) (serialize idx) H1)) as H2.
  unfold foreign_paths. rewrite (quiescent_meta _ H1), (quiescent_meta _ H2).
  rewrite !foreign_rows.
  rewrite (@write_file_contribution _ _ _ meta_file_contributes_nothing).
  rewrite (@write_file_contribution _ _ _ index_file_contributes_nothing).
  reflexivity.
Qed.

(** What a run of a quiescent tree has written is its metadata in
    memory, with one row of the index per record. *)
Lemma quiescent_persisted (t : tree) idx records :
  persisted (ingest ROOT service t) idx records ->
  records = meta_of (ingest ROOT service t)
  /\ List.length (Faiss.xb idx) = List.length records.
Proof.
  intros Hp. pose proof (persisted_not_aborted _ _ Hp) as H.
  destruct (persisted_is_store _ _ Hp) as [_ Hm].
  destruct (rows_match_records_when_restat_succeeds ROOT _
              (observe_restat_ok t) Hp) as [Hlen _].
  split; [|exact Hlen].
  rewrite Hm. unfold meta_of, ingest.
  destruct (run_calls ROOT (map observe t)) as [_ [_ Hf]].
  unfold final in Hf. now rewrite Hf, (scanned_all _ H).
Qed.

(** C2, as the code has it.  Of two runs in a row on a tree nobody else
    touches, with a service that is a function of the prompt, the second
    ingests the same files in the same order as the first, apart from the
    metadata file [DATA/repo.meta.json] itself, which the first run
    writes below [ROOT] and the second may ingest; and in both runs the
    index written has one row per record. *)
Theorem two_runs_agree_apart_from_own_metadata (t : tree) :
  foreign_paths ROOT (meta_of (second_run ROOT service serialize place t))
  = foreign_paths ROOT (meta_of (ingest ROOT service t))
  /\ forall idx1 records1 idx2 records2,
       persisted (ingest ROOT service t) idx1 records1 ->
       persisted (second_run ROOT service serialize place t) idx2 records2 ->
       foreign_paths ROOT records2 = foreign_paths ROOT records1
       /\ List.length (Faiss.xb idx1) = List.length records1
       /\ List.length (Faiss.xb idx2) = List.length records2.
Proof.
  split; [apply second_run_foreign_paths|].
  intros idx1 records1 idx2 records2 H1 H2.
  destruct (quiescent_persisted _ H1) as [-> Hl1].
  unfold second_run in H2.
  destruct (quiescent_persisted _ H2) as [-> Hl2].
  split; [apply second_run_foreign_paths|]. split; assumption.
Qed.

End TwoRuns.

(** C2 (as stated, refuted): a tree with one document, a service that
    answers every prompt with the same vector.  The first run writes an
    index of one row and the metadata of [a.md]; the second run finds
    [data/repo.meta.json], a non-empty [.json] file, ingests it as well
    and writes two rows and two records. *)
Lemma second_run_ingests_its_own_metadata :
  let first := Quiescent.ingest Examples.root Examples.constant_service
                 Examples.small_tree in
  let second := Quiescent.second_run Examples.root Examples.constant_service
                  Examples.index_bytes Examples.listed_last Examples.small_tree in
  IngestSpec.persisted first
    {| Faiss.d := 2; Faiss.xb := [Examples.vector_a] |}
    [Examples.record "/home/u/HARALD/a.md" 5]
  /\ IngestSpec.persisted second
       {| Faiss.d := 2; Faiss.xb := [Examples.vector_a; Examples.vector_a] |}
       [Examples.record "/home/u/HARALD/a.md" 5;
        Examples.record "/home/u/HARALD/data/repo.meta.json" 45]
  /\ map Proc.r_path (Quiescent.meta_of second)
     <> map Proc.r_path (Quiescent.meta_of first).
Proof.
  split; [vm_compute; auto|]. split; [vm_compute; auto|].
  vm_compute. discriminate.
Qed.

(** ** The statements at concrete worlds *)

(** The scenario of the specification: [a.md] and [b.json] are embedded
    and recorded, [c.txt] is not. *)
Example scenario_ingests_two_files :
  let r := IngestLocal.run Examples.root Examples.scenario in
  IngestSpec.outcome r = Py.Ok tt
  /\ IngestSpec.reads (IngestSpec.trace r)
     = [Py.lit "/home/u/HARALD/a.md"; Py.lit "/home/u/HARALD/b.json"]
  /\ IngestLocal.meta (IngestSpec.final r)
     = [Examples.record "/home/u/HARALD/a.md" 500;
        Examples.record "/home/u/HARALD/b.json" 10]
  /\ IngestSpec.persisted r
       {| Faiss.d := 2; Faiss.xb := [Examples.vector_a; Examples.vector_b] |}
       [Examples.record "/home/u/HARALD/a.md" 500;
        Examples.record "/home/u/HARALD/b.json" 10].
Proof. vm_compute. auto 10. Qed.

Lemma ingest_considers_exactly_eligible_witness :
  existsb IngestSpec.filter_raises Examples.scenario = false
  /\ IngestSpec.reads
       (IngestSpec.trace (IngestLocal.run Examples.root Examples.scenario))
     = map (fun e => PathLib.str (IngestLocal.e_path e))
           (filter IngestSpec.eligible Examples.scenario).
Proof.
  split; [reflexivity|].
  apply (proj2 (proj2 (proj2 (proj2
           (ingest_considers_exactly_eligible Examples.root Examples.scenario))))).
  reflexivity.
Defined.

Lemma ask_retrieves_three_blocks_witness :
  let w := Examples.ask_world Examples.corpus3 [Py.lit "who"]
             (Examples.answers [1; 1]%Z) (Examples.chat_after 3) in
  exists i1 i2 i3 p1 p2 p3 t1 t2 t3,
    [0; 1; 2]%Z = [i1; i2; i3]
    /\ [Py.lit "alpha"; Py.lit "beta"; Py.lit "gamma"] = [t1; t2; t3]
    /\ AskSpec.path_at w i1 p1 /\ AskSpec.path_at w i2 p2
    /\ AskSpec.path_at w i3 p3
    /\ AskLocal.run Examples.closer Examples.finite w
       = (Py.Ok tt,
          [ Proc.Post (IngestSpec.embed_request
                         (AskLocal.question (AskLocal.w_argv w)));
            Proc.Search [1; 1]%Z 3;
            Proc.ReadText p1; Proc.ReadText p2; Proc.ReadText p3;
            Proc.Post (AskSpec.chat_request
                         (t1 ++ AskSpec.blank_line ++ t2 ++ AskSpec.blank_line
                          ++ t3 ++ AskSpec.blank_line
                          ++ AskLocal.question (AskLocal.w_argv w)));
            Proc.Print (Proc.MsgText (Py.lit "fine")) ]).
Proof.
  intros w.
  assert (Hemb : AskLocal.w_embeddings w
                 = Http.Answer 2 200
                     (Http.EmbObject (Some (Http.Numbers [1; 1]%Z))))
    by reflexivity.
  assert (Hlat : (2 <= 600)%Z) by lia.
  apply (proj2 (@ask_retrieves_three_blocks Z Examples.closer Examples.finite w [1; 1]%Z
                  2 200 Hemb Hlat)
           [0; 1; 2]%Z [Py.lit "alpha"; Py.lit "beta"; Py.lit "gamma"]
           3%Z 200%Z (Py.lit "fine")).
  - reflexivity.
  - repeat constructor.
    + exists (Examples.record "/home/u/HARALD/a.md" 5), (Examples.bytes_of "alpha").
      repeat split; reflexivity.
    + exists (Examples.record "/home/u/HARALD/b.md" 4), (Examples.bytes_of "beta").
      repeat split; reflexivity.
    + exists (Examples.record "/home/u/HARALD/c.md" 5), (Examples.bytes_of "gamma").
      repeat split; reflexivity.
  - reflexivity.
Defined.

Lemma question_defaults_when_joined_is_empty_witness :
  AskLocal.question [Py.lit "scripts/ask_local.py"]
  = Py.lit "List all entity names."
  /\ AskLocal.question [Py.lit "scripts/ask_local.py"; Py.lit "who"; Py.lit "is"]
     = Py.join (Py.lit " ") [Py.lit "who"; Py.lit "is"].
Proof.
  split.
  - apply (proj1 (question_defaults_when_joined_is_empty
                    [Py.lit "scripts/ask_local.py"])).
    left. reflexivity.
  - apply (proj2 (question_defaults_when_joined_is_empty
                    [Py.lit "scripts/ask_local.py"; Py.lit "who"; Py.lit "is"])).
    simpl. intros [H|H]; discriminate.
Defined.

(** C9 (as stated, refuted): with one argument, the empty string, there
    are arguments, and yet the question is the default and not the
    arguments joined, which is the empty string. *)
Lemma single_empty_argument_gets_default :
  let argv := [Py.lit "scripts/ask_local.py"; []] in
  tl argv <> []
  /\ AskLocal.question argv = Py.lit "List all entity names."
  /\ AskLocal.question argv <> Py.join (Py.lit " ") (tl argv).
Proof. simpl. repeat split; discriminate. Qed.

(** With one document in the corpus, all three blocks are read from its
    file. *)
Example one_document_is_read_three_times :
  IngestSpec.reads
    (snd (AskLocal.run Examples.closer Examples.finite
            (Examples.ask_world Examples.corpus1 []
               (Examples.answers [1; 0]%Z) (Examples.chat_after 3))))
  = [Py.lit "/home/u/HARALD/a.md"; Py.lit "/home/u/HARALD/a.md";
     Py.lit "/home/u/HARALD/a.md"].
Proof. vm_compute. reflexivity. Qed.

Lemma chunks_hold_at_most_800_characters_witness :
  (exists e bs,
     In e Examples.with_accented_file /\ IngestSpec.eligible e = true
     /\ IngestLocal.e_read e = Py.Ok bs
     /\ IngestSpec.embed_request (repeat 233%N 800)
        = IngestSpec.embed_request (Py.slice_to 800 (Py.decode_text bs)))
  /\ AskLocal.block
       (Examples.ask_world Examples.corpus1 []
          (Examples.answers [1; 0]%Z) (Examples.chat_after 3)) 0 tt
     = (Py.Ok (Py.slice_to 800 (Py.decode_text (Examples.bytes_of "alpha"))), tt,
        [Proc.ReadText (Proc.r_path (Examples.record "/home/u/HARALD/a.md" 5))]).
Proof.
  split.
  - apply (proj1 (@chunks_hold_at_most_800_characters Z Examples.root)
             Examples.with_accented_file).
    vm_compute. left. reflexivity.
  - apply (proj1 (proj2 (@chunks_hold_at_most_800_characters Z Examples.root))).
    + reflexivity.
    + reflexivity.
Defined.

Lemma two_runs_agree_apart_from_own_metadata_witness :
  TwoRunsSpec.foreign_paths Examples.root
    [Examples.record "/home/u/HARALD/a.md" 5;
     Examples.record "/home/u/HARALD/data/repo.meta.json" 45]
  = TwoRunsSpec.foreign_paths Examples.root
      [Examples.record "/home/u/HARALD/a.md" 5]
  /\ List.length [Examples.vector_a] = 1%nat
  /\ List.length [Examples.vector_a; Examples.vector_a] = 2%nat.
Proof.
  apply (proj2 (two_runs_agree_apart_from_own_metadata Examples.root
                  Examples.constant_service Examples.index_bytes Examples.listed_last
                  Examples.small_tree)
           {| Faiss.d := 2; Faiss.xb := [Examples.vector_a] |}
           [Examples.record "/home/u/HARALD/a.md" 5]
           {| Faiss.d := 2; Faiss.xb := [Examples.vector_a; Examples.vector_a] |}
           [Examples.record "/home/u/HARALD/a.md" 5;
            Examples.record "/home/u/HARALD/data/repo.meta.json" 45]).
  - vm_compute. auto.
  - vm_compute. auto.
Defined.

(** ** The decoder on examples *)

Section Decoder.
Import Py.

(** Plain ASCII without carriage returns decodes to itself. *)
Lemma decode_text_ascii (bs : list byte) :
  forallb (fun b => (Byte.to_N b <? 128)%N && negb (Byte.to_N b =? 13)%N) bs
    = true ->
  decode_text bs = map Byte.to_N bs.
Proof.
  unfold decode_text. induction bs as [|b bs IH]; simpl; [reflexivity|].
  intros H. apply andb_prop in H as [Hb Hbs]. apply andb_prop in Hb as [H1 H2].
  rewrite H1. simpl. apply negb_true_iff in H2. rewrite H2, IH by exact Hbs.
  reflexivity.
Qed.

(** Two, three and four byte characters. *)
Example decode_multibyte :
  utf8_decode [xc3; xa9; xe2; x82; xac; xf0; x9f; x98; x80]
  = [233; 8364; 128512]%N.
Proof. reflexivity. Qed.

(** A stray continuation byte, an invalid lead byte, an overlong form, a
    surrogate and a sequence cut short are dropped; what surrounds them
    stays. *)
Example decode_drops_ill_formed :
  utf8_decode [x41; x80; x42; xff; x43; xc0; x80; x44; xed; xa0; x80; x45;
               xe2; x82; x46; xf0; x9f]
  = [65; 66; 67; 68; 69; 70]%N.
Proof. reflexivity. Qed.

(** Line ends. *)
Example decode_line_ends :
  decode_text [x61; x0d; x0a; x62; x0d; x63; x0a]
  = [97; 10; 98; 10; 99; 10]%N.
Proof. reflexivity. Qed.

End Decoder.

(** * More of the two scripts *)

(** ** The embedding call of ingest *)

Section MoreEmbed.
Import Py PathLib Proc IngestSpec CoverageSpec.
Context {scalar : Type}.

Lemma embedded_healthy (w : Http.reply (Http.embeddings_body scalar))
  (v : Faiss.vec scalar) :
  embedded w = Some v <-> healthy w v.
Proof.
  unfold embedded, healthy, error_status. split.
  - destruct w as [|lat st [|[[xs| |]|]|[|]|]]; try discriminate.
    destruct (Z.leb_spec lat 600); simpl; [|discriminate].
    destruct (Z.leb_spec 400 st); destruct (Z.ltb_spec st 600); simpl;
      try discriminate; intros E; injection E as ->;
      exists lat, st; repeat split; auto; lia.
  - intros [lat [st [-> [Hl Hs]]]].
    destruct (Z.leb_spec lat 600); [|lia]. simpl.
    destruct (Z.leb_spec 400 st); destruct (Z.ltb_spec st 600); simpl;
      try reflexivity. lia.
Qed.

(** The whole of what [embed] does, in one equation. *)
Lemma embed_runs {S} (text : pystr)
  (w : Http.reply (Http.embeddings_body scalar)) (s : S) :
  exists log : list (event scalar),
    IngestLocal.embed text w s
      = (embed_outcome w, s, Post (embed_request text) :: log)
    /\ forallb is_print log = true
    /\ progress_lines log = []
    /\ List.length log
       = match embed_outcome w with Ok None => 1%nat | _ => 0%nat end.
Proof.
  unfold IngestLocal.embed, try_except, requests_post, bind, emit, lift,
    embed_outcome, unusable, embedded.
  destruct w as [|latency status b]; simpl.
  - eexists; repeat split; reflexivity.
  - replace (latency <=? 600)%Z with (negb (600 <? latency)%Z)
      by (rewrite Z.ltb_antisym, negb_involutive; reflexivity).
    destruct (600 <? latency)%Z; simpl.
    + destruct b as [|[[xs| |]|]|[|]|]; eexists; repeat split; reflexivity.
    + unfold Http.raise_for_status_result, error_status; simpl.
      destruct ((400 <=? status) && (status <? 600))%Z; simpl;
        destruct b as [|[[xs| |]|]|[|]|]; simpl; eexists; repeat split;
          reflexivity.
Qed.


End MoreEmbed.

(** ** Counting in the loop of ingest *)

Section MoreLoop.
Import Py PathLib Proc IngestSpec CoverageSpec.
Context {scalar : Type}.
Variable ROOT : path.

Local Abbreviation entry := (IngestLocal.entry (scalar := scalar)).
Local Abbreviation store := (IngestLocal.store (scalar := scalar)).

Lemma progress_lines_app (t u : list (event scalar)) :
  progress_lines (t ++ u) = progress_lines t ++ progress_lines u.
Proof.
  induction t as [|ev t IH]; simpl; [reflexivity|].
  destruct ev as [| | | | |m]; simpl; auto. destruct m; simpl; rewrite ?IH; auto.
Qed.

(** The progress line of one entry: printed when the entry is ingested
    in full and the count it brings is a multiple of ten. *)
Lemma loop_body_lines (e : entry) (s : store) :
  filter_raises e = false ->
  progress_lines (snd (IngestLocal.loop_body e s))
  = match row_of e with
    | Some _ =>
      if ((IngestLocal.file_count s + 1) mod 10 =? 0)%Z
      then [(IngestLocal.file_count s + 1)%Z] else []
    | None => []
    end.
Proof.
  unfold filter_raises, IngestLocal.loop_body, IngestLocal.selected,
    row_of, vector_of, eligible.
  rewrite allowed_suffix_spec.
  destruct (extension_matches (IngestLocal.e_path e)); simpl; [|reflexivity].
  destruct (IngestLocal.e_stat e) as [n|ex]; [intros _|discriminate].
  unfold bind at 1; simpl.
  destruct (0 <? n)%Z; simpl; [|reflexivity].
  unfold try_except, IngestLocal.read_text, bind, emit, lift; simpl.
  destruct (IngestLocal.e_read e) as [bs|ex]; simpl; [|reflexivity].
  destruct (embed_runs (slice_to 800 (decode_text bs)) (IngestLocal.e_reply e) s)
    as [log [Hrun [_ [Hlog _]]]].
  rewrite Hrun; simpl. unfold embed_outcome.
  destruct (unusable (IngestLocal.e_reply e)) eqn:Hun; simpl.
  { rewrite (unusable_not_embedded _ Hun), !progress_lines_app, Hlog.
    reflexivity. }
  destruct (embedded (IngestLocal.e_reply e)) as [v|]; simpl.
  - unfold modify; simpl.
    destruct (IngestLocal.e_restat e) as [size|ex]; simpl.
    + unfold get, print, emit, ret; simpl.
      destruct (_ mod 10 =? 0)%Z; simpl;
        rewrite ?progress_lines_app, Hlog; reflexivity.
    + rewrite !progress_lines_app, Hlog. reflexivity.
  - unfold print, emit; simpl. rewrite !progress_lines_app, Hlog. reflexivity.
Qed.

(** The records grow by the rows of the entries, whatever else fails. *)
Lemma meta_fold_rows (l : list entry) (s : store) :
  IngestLocal.meta (fold_left step l s)
  = IngestLocal.meta s ++ map snd (rows_of l).
Proof.
  revert s. induction l as [|e l IH]; intros s; simpl.
  - now rewrite app_nil_r.
  - rewrite IH. unfold rows_of, step, row_of. simpl.
    destruct (vector_of e) as [v|]; simpl; [|reflexivity].
    destruct (IngestLocal.e_restat e); simpl; [|reflexivity].
    now rewrite <- app_assoc.
Qed.

(** The counter and the vectors along a listing. *)
Lemma count_fold (l : list entry) (s : store) :
  IngestLocal.file_count (fold_left step l s)
    = (IngestLocal.file_count s + Z.of_nat (List.length (rows_of l)))%Z
  /\ List.length (IngestLocal.docs (fold_left step l s))
    = (List.length (IngestLocal.docs s) + List.length (rows_of l)
       + List.length (filter record_lost l))%nat.
Proof.
  revert s. induction l as [|e l IH]; intros s; simpl.
  - split; lia.
  - destruct (IH (step s e)) as [-> ->].
    unfold rows_of, step, row_of, record_lost, restat_ok. simpl.
    destruct (vector_of e) as [v|]; simpl; [|split; lia].
    destruct (IngestLocal.e_restat e); simpl;
      rewrite ?length_app; simpl; split; lia.
Qed.

Lemma tens_between_step (first count : nat) :
  tens_between first (S count)
  = (if (Z.of_nat (S first) mod 10 =? 0)%Z then [Z.of_nat (S first)] else [])
    ++ tens_between (S first) count.
Proof.
  unfold tens_between. cbn [seq map filter].
  destruct (Z.of_nat (S first) mod 10 =? 0)%Z; reflexivity.
Qed.

(** The progress lines of the loop. *)
Lemma for_each_lines (l : list entry) (s : store) (c : nat) :
  IngestLocal.file_count s = Z.of_nat c ->
  progress_lines (snd (for_each l IngestLocal.loop_body s))
  = tens_between c (List.length (rows_of (scanned l))).
Proof.
  revert s c. induction l as [|e l IH]; intros s c Hc; simpl; [reflexivity|].
  destruct (filter_raises e) eqn:Hf.
  - destruct (loop_body_raises e s Hf) as [ex [_ Hrun]].
    unfold bind. rewrite Hrun. reflexivity.
  - pose proof (loop_body_lines e s Hf) as Hlines.
    destruct (loop_body_runs e s Hf) as [log [Hrun _]].
    unfold bind. rewrite Hrun in *. simpl in Hlines.
    destruct (for_each l IngestLocal.loop_body (step s e)) as [[r s2] t2] eqn:Hrest.
    simpl. rewrite progress_lines_app, Hlines.
    change t2 with (snd (r, s2, t2)). rewrite <- Hrest.
    unfold rows_of. simpl. fold (rows_of (scanned l)).
    unfold step. unfold row_of at 2. unfold row_of at 1.
    destruct (vector_of e) as [v|]; simpl; [|apply IH; exact Hc].
    destruct (IngestLocal.e_restat e) as [size|ex]; simpl.
    + rewrite tens_between_step, Nat2Z.inj_succ, <- Hc.
      unfold Z.succ. f_equal. apply IH. simpl. lia.
    + apply IH. exact Hc.
Qed.

End MoreLoop.

(** ** Whole runs of ingest *)

Section MoreRuns.
Import Py PathLib Proc IngestSpec CoverageSpec.
Context {scalar : Type}.
Variable ROOT : path.

Local Abbreviation entry := (IngestLocal.entry (scalar := scalar)).
Local Abbreviation store := (IngestLocal.store (scalar := scalar)).

Lemma posts_calls_exact (l : list entry) :
  posts (flat_map calls l) = flat_map requests_of l.
Proof.
  induction l as [|e l IH]; simpl; [reflexivity|].
  rewrite posts_app, IH. unfold calls, requests_of.
  destruct (eligible e); simpl; [|reflexivity].
  destruct (IngestLocal.e_read e); reflexivity.
Qed.

(** X2.  Ingest sends exactly one embedding request per eligible file
    whose text could be read, in the order of the listing, and no other
    request: no retry after a failure, no request for a file that could
    not be read, no batching. *)
Theorem ingest_sends_one_request_per_readable_file (l : list entry) :
  posts (trace (IngestLocal.run ROOT l)) = flat_map requests_of (scanned l)
  /\ (List.length (posts (trace (IngestLocal.run ROOT l)))
      <= List.length (filter eligible l))%nat
  /\ (existsb filter_raises l = false ->
      posts (trace (IngestLocal.run ROOT l)) = flat_map requests_of l).
Proof.
  destruct (run_calls ROOT l) as [_ [Hp _]].
  rewrite Hp, posts_calls_exact. split; [reflexivity|]. split.
  - clear Hp. induction l as [|e l IH]; simpl; [lia|].
    destruct (filter_raises e) eqn:Hf; simpl.
    + lia.
    + rewrite length_app. unfold requests_of at 1.
      destruct (eligible e); simpl;
        [destruct (IngestLocal.e_read e); simpl; lia|lia].
  - intros H. now rewrite (scanned_all l H).
Qed.

(** The trace of a run is the trace of the loop followed by what the
    part after the loop emits, which has no progress line. *)
Lemma run_lines (l : list entry) :
  progress_lines (trace (IngestLocal.run ROOT l))
  = progress_lines (snd (for_each l IngestLocal.loop_body IngestLocal.initial)).
Proof.
  unfold IngestLocal.run, IngestLocal.main, trace, bind.
  destruct (for_each l IngestLocal.loop_body IngestLocal.initial)
    as [[[[]|ex] s1] t1]; simpl; [|reflexivity].
  rewrite persist_spec.
  destruct (IngestLocal.docs s1); [|destruct (uniform _)]; simpl;
    rewrite progress_lines_app; simpl; now rewrite app_nil_r.
Qed.

(** X3.  At the end of every run the counter [file_count] is the number
    of metadata records, and [docs] holds one vector per record plus one
    for every file whose size lookup failed after its embedding had
    succeeded: the metadata never has more entries than [docs]. *)
Theorem counter_counts_the_records (l : list entry) :
  IngestLocal.file_count (final (IngestLocal.run ROOT l))
    = Z.of_nat (List.length (IngestLocal.meta (final (IngestLocal.run ROOT l))))
  /\ List.length (IngestLocal.docs (final (IngestLocal.run ROOT l)))
    = (List.length (IngestLocal.meta (final (IngestLocal.run ROOT l)))
       + List.length (filter record_lost (scanned l)))%nat.
Proof.
  destruct (run_calls ROOT l) as [_ [_ ->]].
  destruct (count_fold (scanned l) IngestLocal.initial) as [-> ->].
  rewrite meta_fold_rows. simpl. rewrite length_map. split; lia.
Qed.

(** X4.  The progress lines of a run are "Processed 10 files...",
    "Processed 20 files...", and so on, one for every full ten of
    metadata records, in this order and no other. *)
Theorem progress_is_reported_every_ten_files (l : list entry) :
  progress_lines (trace (IngestLocal.run ROOT l))
  = tens_between 0
      (List.length (IngestLocal.meta (final (IngestLocal.run ROOT l)))).
Proof.
  rewrite run_lines.
  rewrite (for_each_lines l IngestLocal.initial 0 eq_refl).
  destruct (run_calls ROOT l) as [_ [_ ->]].
  rewrite meta_fold_rows. simpl. now rewrite length_map.
Qed.

(** X5.  When the vectors of a run do not all have one length, the loop
    still does all its work, and [np.stack] then raises [ValueError]:
    the run ends with that exception, writes neither file and prints no
    closing line. *)
Theorem mixed_dimensions_end_the_run (l : list entry) :
  existsb filter_raises l = false ->
  uniform (vectors l) = false ->
  outcome (IngestLocal.run ROOT l) = Raise ValueError
  /\ no_output (IngestLocal.run ROOT l)
  /\ (forall ev, In ev (trace (IngestLocal.run ROOT l)) ->
        closing_line ev = false)
  /\ posts (trace (IngestLocal.run ROOT l)) = flat_map requests_of l.
Proof.
  intros H Hu.
  pose proof (completed_run_outputs ROOT l H) as Hout. simpl in Hout.
  pose proof (docs_fold l IngestLocal.initial) as Hd. simpl in Hd.
  rewrite Hd in Hout.
  destruct (vectors l) as [|a rest] eqn:Hv; [discriminate|].
  rewrite Hu in Hout. destruct Hout as [Ho [Hn Hc]].
  repeat split; auto; try apply Hn.
  destruct (run_calls ROOT l) as [_ [Hp _]].
  now rewrite Hp, posts_calls_exact, (scanned_all l H).
Qed.

Lemma loop_trace_has_no_write (l : list entry) (t : list (event scalar)) :
  outside_calls t = flat_map calls l ->
  forallb (fun ev => negb (is_write ev)) t = true.
Proof.
  intros Hc. apply forallb_forall. intros ev Hin.
  destruct (is_print ev) eqn:Hp.
  - destruct ev; try discriminate. reflexivity.
  - assert (Hout : In ev (outside_calls t)).
    { apply filter_In. split; [exact Hin|]. now rewrite Hp. }
    rewrite Hc in Hout. apply in_flat_map in Hout as [e [_ He]].
    unfold calls in He. destruct (eligible e); [|destruct He].
    destruct He as [<-|He]; [reflexivity|].
    destruct (IngestLocal.e_read e); simpl in He; [|destruct He].
    destruct He as [<-|[]]. reflexivity.
Qed.

(** X6.  A run with at least one vector, all of one length, ends with
    three events and writes nothing before them: the index with the
    vectors as rows, in the order of the listing, and their common
    length as dimension; then the metadata; then the line "Ingested n
    files", [n] being the number of metadata records. *)
Theorem successful_run_ends_with_its_outputs (l : list entry)
  (a : Faiss.vec scalar) (rest : list (Faiss.vec scalar)) :
  existsb filter_raises l = false ->
  vectors l = a :: rest ->
  uniform (vectors l) = true ->
  exists t,
    IngestLocal.run ROOT l
    = (Ok tt, fold_left step l IngestLocal.initial,
       t ++ [ WriteIndex (IngestLocal.index_path ROOT)
                {| Faiss.d := List.length a; Faiss.xb := vectors l |};
              WriteJson (IngestLocal.meta_path ROOT) (map snd (rows_of l));
              Print (MsgIngested (Z.of_nat (List.length (rows_of l)))
                                 (str (IngestLocal.DATA ROOT))) ])
    /\ forallb (fun ev => negb (is_write ev)) t = true
    /\ Forall (fun v => List.length v = List.length a) (vectors l).
Proof.
  intros H Hv Hu.
  destruct (run_completed ROOT l H) as [r [t [u [Hp [Hrun [Hc _]]]]]].
  rewrite persist_spec in Hp.
  pose proof (docs_fold l IngestLocal.initial) as Hd. simpl in Hd.
  pose proof (meta_fold_rows l IngestLocal.initial) as Hm. simpl in Hm.
  rewrite Hd, Hu, Hv in Hp. injection Hp as <- <-.
  exists t. split; [|split].
  - rewrite Hrun. unfold persist_events. rewrite Hd, Hm, length_map, Hv.
    reflexivity.
  - exact (loop_trace_has_no_write l t Hc).
  - rewrite Hv in *. simpl in Hu. constructor; [reflexivity|].
    apply Forall_forall. intros v Hin.
    rewrite forallb_forall in Hu. apply Nat.eqb_eq, Hu, Hin.
Qed.

End MoreRuns.

Lemma mixed_dimensions_end_the_run_witness :
  IngestSpec.outcome
    (IngestLocal.run Examples.root MoreExamples.with_mixed_dimensions)
  = Py.Raise Py.ValueError
  /\ IngestSpec.no_output
       (IngestLocal.run Examples.root MoreExamples.with_mixed_dimensions).
Proof.
  destruct (@mixed_dimensions_end_the_run Z Examples.root
              MoreExamples.with_mixed_dimensions)
    as [Ho [Hn _]]; [reflexivity|reflexivity|].
  split; [exact Ho|exact Hn].
Defined.

Lemma successful_run_ends_with_its_outputs_witness :
  exists t,
    IngestLocal.run Examples.root MoreExamples.two_documents
    = (Py.Ok tt,
       fold_left IngestSpec.step MoreExamples.two_documents IngestLocal.initial,
       t ++ [ Proc.WriteIndex (IngestLocal.index_path Examples.root)
                {| Faiss.d := List.length Examples.vector_a;
                   Faiss.xb := IngestSpec.vectors MoreExamples.two_documents |};
              Proc.WriteJson (IngestLocal.meta_path Examples.root)
                (map snd (IngestSpec.rows_of MoreExamples.two_documents));
              Proc.Print
                (Proc.MsgIngested
                   (Z.of_nat (List.length
                                (IngestSpec.rows_of MoreExamples.two_documents)))
                   (PathLib.str (IngestLocal.DATA Examples.root))) ])
    /\ forallb (fun ev => negb (CoverageSpec.is_write ev)) t = true
    /\ Forall (fun v => List.length v = List.length Examples.vector_a)
              (IngestSpec.vectors MoreExamples.two_documents).
Proof.
  apply (@successful_run_ends_with_its_outputs Z Examples.root
           MoreExamples.two_documents Examples.vector_a [Examples.vector_b]).
  - reflexivity.
  - reflexivity.
  - reflexivity.
Defined.

(** ** Whole runs of ask *)

Section MoreAsk.
Import Py PathLib Proc IngestSpec AskSpec CoverageSpec.
Context {scalar : Type}.
Variable closer : Faiss.vec scalar -> Faiss.vec scalar -> Faiss.vec scalar -> bool.
Variable finite : Faiss.vec scalar -> Faiss.vec scalar -> bool.

Local Abbreviation world := (AskLocal.world (scalar := scalar)).

Lemma prints_app (t u : list (event scalar)) :
  prints (t ++ u) = prints t ++ prints u.
Proof.
  induction t as [|ev t IH]; simpl; [reflexivity|].
  destruct ev; simpl; rewrite ?IH; reflexivity.
Qed.

(** One element of the generator. *)
Lemma block_eq (w : world) (i : Z) :
  AskLocal.block w i tt
  = match getitem (AskLocal.w_meta w) i with
    | Raise ex => (Raise ex, tt, [])
    | Ok record =>
      match AskLocal.w_files w (r_path record) with
      | Ok bs => (Ok (slice_to 800 (decode_text bs)), tt,
                  [ReadText (r_path record)])
      | Raise ex => (Raise ex, tt, [ReadText (r_path record)])
      end
    end.
Proof.
  unfold AskLocal.block, AskLocal.read_text, bind, lift, emit.
  destruct (getitem (AskLocal.w_meta w) i) as [record|ex]; simpl; [|reflexivity].
  destruct (AskLocal.w_files w (r_path record)); reflexivity.
Qed.

(** The generator of the context: either every label has its block, or
    the first label without one ends it with an exception.  It only
    reads. *)
Lemma blocks_outcome (w : world) (labels : list Z) :
  exists t,
    posts t = [] /\ prints t = []
    /\ ((exists texts,
           Forall2 (block_of w) labels texts
           /\ map_M (AskLocal.block w) labels tt = (Ok texts, tt, t))
        \/ (exists ex,
              map_M (AskLocal.block w) labels tt = (Raise ex, tt, t)
              /\ forall texts, ~ Forall2 (block_of w) labels texts)).
Proof.
  induction labels as [|i labels IH]; simpl.
  - exists []. repeat split. left. exists []. split; [constructor|reflexivity].
  - unfold bind. rewrite block_eq.
    destruct (getitem (AskLocal.w_meta w) i) as [record|ex] eqn:Hrec.
    2:{ exists []. repeat split. right. exists ex. split; [reflexivity|].
        intros texts Hf. inversion Hf as [|? ? ? ? [r [bs [Hr _]]]]; subst.
        congruence. }
    destruct (AskLocal.w_files w (r_path record)) as [bs|ex] eqn:Hbs.
    2:{ exists [ReadText (r_path record)]. repeat split. right. exists ex.
        split; [reflexivity|].
        intros texts Hf. inversion Hf as [|? ? ? ? [r [bs [Hr [Hb _]]]]]; subst.
        congruence. }
    destruct IH as [t [Hp [Hq [[texts [Hf Hrun]]|[ex [Hrun Hnot]]]]]];
      rewrite Hrun.
    + exists (ReadText (r_path record) :: t). simpl.
      split; [exact Hp|]. split; [exact Hq|]. left.
      exists (slice_to 800 (decode_text bs) :: texts). split.
      * constructor; [|exact Hf]. exists record, bs. auto.
      * now rewrite app_nil_r.
    + exists (ReadText (r_path record) :: t). simpl.
      split; [exact Hp|]. split; [exact Hq|]. right. exists ex. split.
      * reflexivity.
      * intros texts Hf. inversion Hf; subst. eapply Hnot; eauto.
Qed.

(** The four ways a run of ask can go. *)
Lemma ask_run_cases (w : world) :
  let question := AskLocal.question (AskLocal.w_argv w) in
  (exists ex,
     embedding_failure (AskLocal.w_embeddings w) = Some ex
     /\ AskLocal.run closer finite w = (Raise ex, [Post (embed_request question)]))
  \/ (exists q latency status,
        AskLocal.w_embeddings w
          = Http.Answer latency status (Http.EmbObject (Some (Http.Numbers q)))
        /\ (latency <= 600)%Z
        /\ ((exists ex,
               Faiss.search closer finite (AskLocal.w_index w) q 3 = Raise ex
               /\ AskLocal.run closer finite w
                  = (Raise ex, [Post (embed_request question); Search q 3]))
            \/ (exists labels t,
                  Faiss.search closer finite (AskLocal.w_index w) q 3 = Ok labels
                  /\ posts t = [] /\ prints t = []
                  /\ ((exists ex,
                         (forall texts, ~ Forall2 (block_of w) labels texts)
                         /\ AskLocal.run closer finite w
                            = (Raise ex,
                               Post (embed_request question) :: Search q 3 :: t))
                      \/ (exists texts,
                            Forall2 (block_of w) labels texts
                            /\ AskLocal.run closer finite w
                               = (match chat_outcome (AskLocal.w_chat w) with
                                  | Ok _ => Ok tt
                                  | Raise ex => Raise ex
                                  end,
                                  Post (embed_request question) :: Search q 3
                                  :: t
                                  ++ Post (chat_request
                                             (join blank_line texts ++ blank_line
                                              ++ question))
                                  :: match chat_outcome (AskLocal.w_chat w) with
                                     | Ok c => [Print (MsgText c)]
                                     | Raise _ => []
                                     end)))))).
Proof.
  intros question.
  destruct (embedding_failure (AskLocal.w_embeddings w)) as [ex|] eqn:Hf.
  - left. exists ex. split; [reflexivity|].
    unfold AskLocal.run, AskLocal.main, bind.
    now rewrite (ask_embed_fails _ _ Hf).
  - right.
    destruct (AskLocal.w_embeddings w) as [|latency status [|[[q| |]|]|[|]|]] eqn:Hw;
      simpl in Hf; try discriminate;
      destruct (Z.ltb_spec 600 latency) as [|Hlat]; try discriminate.
    exists q, latency, status. split; [reflexivity|]. split; [exact Hlat|].
    set (R := AskLocal.run closer finite w).
    assert (HR : R = AskLocal.run closer finite w) by reflexivity. clearbody R.
    unfold AskLocal.run, AskLocal.main in HR. fold question in HR.
    unfold bind at 1 in HR. rewrite Hw, (ask_embed_succeeds _ _ _ Hlat) in HR.
    unfold bind at 1 in HR.
    unfold AskLocal.index_search in HR. unfold bind at 1 in HR.
    unfold emit, lift in HR.
    destruct (Faiss.search closer finite (AskLocal.w_index w) q 3) as [labels|ex];
      simpl in HR.
    2:{ left. exists ex. split; [reflexivity|exact HR]. }
    right. unfold bind at 1 in HR.
    destruct (blocks_outcome w labels)
      as [t [Hp [Hq [[texts [Hall Hrun]]|[ex [Hrun Hnot]]]]]];
      rewrite Hrun in HR;
      exists labels, t; (split; [reflexivity|]);
      (split; [exact Hp|]); (split; [exact Hq|]).
    + right. exists texts. split; [exact Hall|].
      rewrite HR. unfold requests_post, bind, emit, lift.
      unfold chat_request, AskLocal.user_message, blank_line, chat_outcome.
      destruct (AskLocal.w_chat w) as [|latency' status' [|[[c|]|]|]]; simpl;
        rewrite <- ?app_assoc; reflexivity.
    + left. exists ex. split; [exact Hnot|]. rewrite HR. reflexivity.
Qed.

Lemma block_of_functional (w : world) (labels : list Z) (a b : list pystr) :
  Forall2 (block_of w) labels a -> Forall2 (block_of w) labels b -> a = b.
Proof.
  intros Ha. revert b. induction Ha as [|i x labels a Hx _ IH]; intros b Hb.
  - now inversion Hb.
  - inversion Hb as [|? y ? b' Hy Hb']; subst. f_equal; [|now apply IH].
    destruct Hx as [r1 [bs1 [Hr1 [Hb1 ->]]]].
    destruct Hy as [r2 [bs2 [Hr2 [Hb2 ->]]]].
    congruence.
Qed.

(** X7.  The chat request is sent exactly when the whole retrieval has
    succeeded: the question was embedded, the search accepted the
    vector, and the file of each of the three labels could be looked up
    and read.  Its single user message is then the three blocks joined
    by blank lines, a blank line and the question.  In every other case
    the embeddings request is the only request of the run, which ends
    with an exception and prints nothing: no chat request is ever sent
    with a partial context. *)
Theorem chat_request_needs_the_whole_retrieval (w : world) :
  (forall texts, retrieved closer finite w texts ->
     posts (snd (AskLocal.run closer finite w))
     = [ embed_request (AskLocal.question (AskLocal.w_argv w));
         chat_request (join blank_line texts ++ blank_line
                       ++ AskLocal.question (AskLocal.w_argv w)) ])
  /\ ((forall texts, ~ retrieved closer finite w texts) ->
      posts (snd (AskLocal.run closer finite w))
      = [ embed_request (AskLocal.question (AskLocal.w_argv w)) ]
      /\ (exists ex, fst (AskLocal.run closer finite w) = Raise ex)
      /\ prints (snd (AskLocal.run closer finite w)) = []).
Proof.
  destruct (ask_run_cases w) as [[ex [Hf Hrun]]|[q [lat [st [Hw [Hlat Hrest]]]]]].
  - rewrite Hrun; simpl; split.
    + intros texts [q [lat [st [labels [Hw [Hlat _]]]]]].
      rewrite Hw in Hf. simpl in Hf.
      destruct (Z.ltb_spec 600 lat); [lia|discriminate].
    + intros _. repeat split. now exists ex.
  - destruct Hrest as [[ex [Hs Hrun]]|[labels [t [Hs [Hp [Hq Hrest]]]]]].
    + rewrite Hrun; simpl; split.
      * intros texts [q' [lat' [st' [labels [Hw' [_ [Hs' _]]]]]]].
        rewrite Hw in Hw'. injection Hw' as _ _ <-. congruence.
      * intros _. repeat split. now exists ex.
    + destruct Hrest as [[ex [Hnot Hrun]]|[texts [Hall Hrun]]];
        rewrite Hrun; simpl; split.
      * intros texts [q' [lat' [st' [labels' [Hw' [_ [Hs' Hall]]]]]]].
        rewrite Hw in Hw'. injection Hw' as _ _ <-.
        rewrite Hs in Hs'. injection Hs' as <-.
        exfalso. exact (Hnot texts Hall).
      * intros _. rewrite Hp, Hq. repeat split. now exists ex.
      * intros texts' [q' [lat' [st' [labels' [Hw' [_ [Hs' Hall']]]]]]].
        rewrite Hw in Hw'. injection Hw' as _ _ <-.
        rewrite Hs in Hs'. injection Hs' as <-.
        rewrite (block_of_functional Hall' Hall).
        rewrite posts_app, Hp. simpl.
        destruct (chat_outcome (AskLocal.w_chat w)); reflexivity.
      * intros Hnone. exfalso. apply (Hnone texts).
        exists q, lat, st, labels. auto.
Qed.


(** X9.  A run of ask prints one line, the content of the chat answer,
    as its last event, exactly when it ends well; a run that ends with
    an exception has printed nothing.  The answer is printed whatever
    the status of the chat response is; a chat service that cannot be
    reached, a body that is not JSON, one without ["message"] or
    without ["content"] in it, or one of another shape, ends the run
    with an exception. *)
Theorem ask_prints_the_answer_or_nothing (w : world) :
  (exists c t,
     chat_outcome (AskLocal.w_chat w) = Ok c
     /\ AskLocal.run closer finite w = (Ok tt, t ++ [Print (MsgText c)])
     /\ prints (snd (AskLocal.run closer finite w)) = [MsgText c])
  \/ (exists ex,
        fst (AskLocal.run closer finite w) = Raise ex
        /\ prints (snd (AskLocal.run closer finite w)) = []).
Proof.
  destruct (ask_run_cases w) as [[ex [Hf Hrun]]|[q [lat [st [Hw [Hlat Hrest]]]]]].
  - right. exists ex. rewrite Hrun. auto.
  - destruct Hrest as [[ex [Hs Hrun]]|[labels [t [Hs [Hp [Hq Hrest]]]]]].
    + right. exists ex. rewrite Hrun. auto.
    + destruct Hrest as [[ex [Hnot Hrun]]|[texts [Hall Hrun]]]; rewrite Hrun.
      * right. exists ex. simpl. auto.
      * destruct (chat_outcome (AskLocal.w_chat w)) as [c|ex]; simpl.
        -- left. exists c.
           exists (Post (embed_request (AskLocal.question (AskLocal.w_argv w)))
                   :: Search q 3
                   :: t ++ [Post (chat_request
                                    (join blank_line texts ++ blank_line
                                     ++ AskLocal.question (AskLocal.w_argv w)))]).
           split; [reflexivity|]. split.
           ++ simpl. rewrite <- app_assoc. reflexivity.
           ++ rewrite prints_app, Hq. reflexivity.
        -- right. exists ex. split; [reflexivity|].
           rewrite prints_app, Hq. reflexivity.
Qed.

(** X10.  When the vector of the question has another length than the
    dimension of the index, the search raises [AssertionError] and the
    run ends there: no file is read and no chat request is sent. *)
Theorem wrong_dimension_ends_ask (w : world) (q : Faiss.vec scalar)
  (latency status : Z) :
  AskLocal.w_embeddings w
    = Http.Answer latency status (Http.EmbObject (Some (Http.Numbers q))) ->
  (latency <= 600)%Z ->
  List.length q <> Faiss.d (AskLocal.w_index w) ->
  AskLocal.run closer finite w
  = (Raise AssertionError,
     [ Post (embed_request (AskLocal.question (AskLocal.w_argv w)));
       Search q 3 ]).
Proof.
  intros Hw Hlat Hd.
  assert (Hs : Faiss.search closer finite (AskLocal.w_index w) q 3 = Raise AssertionError).
  { unfold Faiss.search. apply Nat.eqb_neq in Hd. now rewrite Hd. }
  destruct (ask_run_cases w)
    as [[ex [Hf Hrun]]|[q' [lat' [st' [Hw' [Hlat' Hrest]]]]]].
  - rewrite Hw in Hf. simpl in Hf.
    destruct (Z.ltb_spec 600 latency); [lia|discriminate].
  - rewrite Hw in Hw'. injection Hw' as _ _ <-.
    destruct Hrest as [[ex [Hs' Hrun]]|[labels [t [Hs' _]]]]; [|congruence].
    rewrite Hs in Hs'. injection Hs' as <-. exact Hrun.
Qed.

End MoreAsk.

(** ** Fewer than three rows *)

Section PaddedSlots.
Import Py PathLib Proc IngestSpec AskSpec CoverageSpec.
Context {scalar : Type}.
Variable closer : Faiss.vec scalar -> Faiss.vec scalar -> Faiss.vec scalar -> bool.
Variable finite : Faiss.vec scalar -> Faiss.vec scalar -> bool.

Local Abbreviation world := (AskLocal.world (scalar := scalar)).

Lemma Forall2_repeat {A B} (R : A -> B -> Prop) (a : A) (b : B) (n : nat) :
  R a b -> Forall2 R (repeat a n) (repeat b n).
Proof. intros H. induction n; simpl; constructor; auto. Qed.

Lemma path_at_functional (w : world) (labels : list Z) (a b : list pystr) :
  Forall2 (path_at w) labels a -> Forall2 (path_at w) labels b -> a = b.
Proof.
  intros Ha. revert b. induction Ha as [|i x labels a Hx _ IH]; intros b Hb.
  - now inversion Hb.
  - inversion Hb as [|? y ? b' Hy Hb']; subst. f_equal; [|now apply IH].
    destruct Hx as [r1 [Hr1 ->]]. destruct Hy as [r2 [Hr2 ->]]. congruence.
Qed.

(** The run from the blocks on, once they have all been read. *)
Lemma run_after_retrieval (w : world) (q : Faiss.vec scalar)
  (latency status : Z) (labels : list Z) (texts : list pystr)
  (t : list (event scalar)) :
  AskLocal.w_embeddings w
    = Http.Answer latency status (Http.EmbObject (Some (Http.Numbers q))) ->
  (latency <= 600)%Z ->
  Faiss.search closer finite (AskLocal.w_index w) q 3 = Ok labels ->
  map_M (AskLocal.block w) labels tt = (Ok texts, tt, t) ->
  AskLocal.run closer finite w
  = (match chat_outcome (AskLocal.w_chat w) with
     | Ok _ => Ok tt
     | Raise ex => Raise ex
     end,
     Post (embed_request (AskLocal.question (AskLocal.w_argv w)))
     :: Search q 3
     :: t
     ++ Post (chat_request
                (join blank_line texts ++ blank_line
                 ++ AskLocal.question (AskLocal.w_argv w)))
     :: match chat_outcome (AskLocal.w_chat w) with
        | Ok c => [Print (MsgText c)]
        | Raise _ => []
        end).
Proof.
  intros Hw Hlat Hs Hb.
  set (R := AskLocal.run closer finite w).
  assert (HR : R = AskLocal.run closer finite w) by reflexivity. clearbody R.
  unfold AskLocal.run, AskLocal.main in HR.
  unfold bind at 1 in HR. rewrite Hw, (ask_embed_succeeds _ _ _ Hlat) in HR.
  unfold bind at 1 in HR.
  unfold AskLocal.index_search in HR. unfold bind at 1 in HR.
  unfold emit, lift in HR. rewrite Hs in HR. simpl in HR.
  unfold bind at 1 in HR. rewrite Hb in HR.
  rewrite HR. unfold requests_post, bind, emit, lift.
  unfold chat_request, AskLocal.user_message, blank_line, chat_outcome.
  destruct (AskLocal.w_chat w) as [|latency' status' [|[[c|]|]|]]; simpl;
    rewrite <- ?app_assoc; reflexivity.
Qed.

(** The statement of C10 on the runs that get to the slots left empty.
    Against an index of fewer than three rows the search returns the
    positions of the rows it can return, followed by [-1] in every slot
    left, of which there is one at least.  The lookup of [-1] in a
    metadata list that is not empty is its last record.  So when the
    rows found have their records and files, the run reads the file of
    the last record once more for every slot left, puts its first 800
    characters into the context each time, and sends the chat request:
    no [IndexError], and no slot skipped. *)
Theorem padded_slots_are_read_from_the_last_record (w : world)
  (q : Faiss.vec scalar) (latency status : Z) :
  AskLocal.w_embeddings w
    = Http.Answer latency status (Http.EmbObject (Some (Http.Numbers q))) ->
  (latency <= 600)%Z ->
  List.length q = Faiss.d (AskLocal.w_index w) ->
  (Faiss.ntotal (AskLocal.w_index w) < 3)%nat ->
  AskLocal.w_meta w <> [] ->
  exists hits,
    Faiss.search closer finite (AskLocal.w_index w) q 3
      = Ok (hits ++ repeat (-1)%Z (3 - List.length hits))
    /\ (List.length hits <= Faiss.ntotal (AskLocal.w_index w))%nat
    /\ (forall i, In i hits ->
         (0 <= i < Z.of_nat (Faiss.ntotal (AskLocal.w_index w)))%Z)
    /\ getitem (AskLocal.w_meta w) (-1) = Ok (last_record w)
    /\ forall (texts paths : list pystr) (bs : list byte),
         Forall2 (block_of w) hits texts ->
         Forall2 (path_at w) hits paths ->
         AskLocal.w_files w (r_path (last_record w)) = Ok bs ->
         AskLocal.run closer finite w
         = (match chat_outcome (AskLocal.w_chat w) with
            | Ok _ => Ok tt
            | Raise ex => Raise ex
            end,
            Post (embed_request (AskLocal.question (AskLocal.w_argv w)))
            :: Search q 3
            :: map (fun p => ReadText p)
                   (paths ++ repeat (r_path (last_record w))
                                    (3 - List.length hits))
            ++ Post (chat_request
                       (join blank_line
                             (texts ++ repeat (slice_to 800 (decode_text bs))
                                              (3 - List.length hits))
                        ++ blank_line
                        ++ AskLocal.question (AskLocal.w_argv w)))
            :: match chat_outcome (AskLocal.w_chat w) with
               | Ok c => [Print (MsgText c)]
               | Raise _ => []
               end).
Proof.
  intros Hw Hlat Hq Hn Hne.
  destruct (@search_padding _ closer finite (AskLocal.w_index w) q 3 Hq)
    as [hits [Hs [_ [Hle Hv]]]]; [lia|].
  pose proof (getitem_last {| r_path := []; r_bytes := 0 |} Hne) as Hlast.
  fold (last_record w) in Hlast.
  exists hits. split; [exact Hs|]. split; [exact Hle|].
  split; [exact Hv|]. split; [exact Hlast|].
  intros texts paths bs Hblocks Hpaths Hfile.
  assert (Hall : Forall2 (block_of w)
                   (hits ++ repeat (-1)%Z (3 - List.length hits))
                   (texts ++ repeat (slice_to 800 (decode_text bs))
                                    (3 - List.length hits))).
  { apply Forall2_app; [exact Hblocks|]. apply Forall2_repeat.
    exists (last_record w), bs. auto. }
  destruct (blocks_read Hall) as [paths' [Hp' Hrun]].
  assert (E : paths' = paths ++ repeat (r_path (last_record w))
                                       (3 - List.length hits)).
  { apply (path_at_functional Hp'). apply Forall2_app; [exact Hpaths|].
    apply Forall2_repeat. exists (last_record w). auto. }
  subst paths'.
  exact (run_after_retrieval w Hw Hlat Hs Hrun).
Qed.

End PaddedSlots.

Lemma padded_slots_are_read_from_the_last_record_at_one_document :
  let w := Examples.ask_world Examples.corpus1 []
             (Examples.answers [1; 0]%Z) (Examples.chat_after 3) in
  AskLocal.run Examples.closer Examples.finite w
  = (Py.Ok tt,
     [ Proc.Post (IngestSpec.embed_request (Py.lit "List all entity names."));
       Proc.Search [1; 0]%Z 3;
       Proc.ReadText (Py.lit "/home/u/HARALD/a.md");
       Proc.ReadText (Py.lit "/home/u/HARALD/a.md");
       Proc.ReadText (Py.lit "/home/u/HARALD/a.md");
       Proc.Post
         (AskSpec.chat_request
            (Py.join AskSpec.blank_line
                     [Py.lit "alpha"; Py.lit "alpha"; Py.lit "alpha"]
             ++ AskSpec.blank_line ++ Py.lit "List all entity names."));
       Proc.Print (Proc.MsgText (Py.lit "fine")) ]).
Proof.
  intros w.
  destruct (@padded_slots_are_read_from_the_last_record Z Examples.closer
              Examples.finite w [1; 0]%Z 2%Z 200%Z)
    as [hits [Hs [Hle [_ [_ Hrun]]]]].
  - reflexivity.
  - lia.
  - reflexivity.
  - unfold Faiss.ntotal. simpl. lia.
  - discriminate.
  - assert (hits = [0%Z]) as ->.
    { unfold Faiss.ntotal in Hle. simpl in Hle.
      destruct hits as [|h [|h' hits]]; [| |simpl in Hle; lia].
      - revert Hs. vm_compute. discriminate.
      - vm_compute in Hs. injection Hs as <-. reflexivity. }
    rewrite (Hrun [Py.lit "alpha"] [Py.lit "/home/u/HARALD/a.md"]
               (Examples.bytes_of "alpha")).
    + reflexivity.
    + repeat constructor.
      exists (Examples.record "/home/u/HARALD/a.md" 5), (Examples.bytes_of "alpha").
      repeat split; reflexivity.
    + repeat constructor.
      exists (Examples.record "/home/u/HARALD/a.md" 5). split; reflexivity.
    + reflexivity.
Defined.

(** ** From ingest to ask *)

Section MoreTogether.
Import Py PathLib Proc IngestSpec AskSpec CoverageSpec.
Context {scalar : Type}.
Variable ROOT : path.
Variable closer : Faiss.vec scalar -> Faiss.vec scalar -> Faiss.vec scalar -> bool.
Variable finite : Faiss.vec scalar -> Faiss.vec scalar -> bool.

Local Abbreviation entry := (IngestLocal.entry (scalar := scalar)).
Local Abbreviation world := (AskLocal.world (scalar := scalar)).

Lemma firstn_incl_In {A} (k : nat) (l : list A) (x : A) :
  In x (firstn k l) -> In x l.
Proof.
  intros H. rewrite <- (firstn_skipn k l). apply in_or_app. now left.
Qed.

(** The labels of a search are positions of rows, or [-1]. *)
Lemma search_labels_range (idx : Faiss.index scalar) (q : Faiss.vec scalar)
  (k : nat) (labels : list Z) :
  Faiss.search closer finite idx q k = Ok labels ->
  Forall (fun i => (-1 <= i < Z.of_nat (Faiss.ntotal idx))%Z) labels.
Proof.
  unfold Faiss.search. destruct (_ =? _)%nat; [|discriminate].
  intros H. injection H as <-. apply Forall_app. split.
  - apply Forall_forall. intros i Hi.
    apply in_map_iff in Hi as [c [<- Hc]].
    apply firstn_incl_In in Hc.
    destruct (@ranked_positions _ closer finite _ _ _ Hc). lia.
  - apply Forall_forall. intros i Hi. apply repeat_spec in Hi. lia.
Qed.

(** A position of a list that is not empty, or [-1], has an element. *)
Lemma getitem_in_range {A} (l : list A) (i : Z) :
  l <> [] ->
  (-1 <= i < Z.of_nat (List.length l))%Z ->
  exists a, getitem l i = Ok a /\ In a l.
Proof.
  intros Hne Hi. unfold getitem. cbv zeta.
  assert (Hn : (0 < Z.of_nat (List.length l))%Z).
  { destruct l; [congruence|simpl List.length; lia]. }
  set (j := (if (i <? 0)%Z then (i + Z.of_nat (List.length l))%Z else i)).
  assert (Hj : (0 <= j < Z.of_nat (List.length l))%Z).
  { unfold j. destruct (Z.ltb_spec i 0); lia. }
  destruct (Z.leb_spec 0 j); [|lia].
  destruct (Z.ltb_spec j (Z.of_nat (List.length l))); [|lia].
  simpl. destruct (nth_error l (Z.to_nat j)) as [a|] eqn:Hnth.
  - exists a. split; [reflexivity|]. eapply nth_error_In; eauto.
  - apply nth_error_None in Hnth. lia.
Qed.

Lemma blocks_exist (w : world) (P : pystr -> Prop) (labels : list Z) :
  Forall (fun i => exists text, block_of w i text /\ P text) labels ->
  exists texts, Forall2 (block_of w) labels texts /\ Forall P texts.
Proof.
  induction 1 as [|i labels [text [Hb Hp]] _ [texts [Hf Hall]]].
  - exists []. split; constructor.
  - exists (text :: texts). split; constructor; assumption.
Qed.

(** The requests of a run whose retrieval succeeds. *)
Lemma retrieved_posts (w : world) (texts : list pystr) :
  retrieved closer finite w texts ->
  posts (snd (AskLocal.run closer finite w))
  = [ embed_request (AskLocal.question (AskLocal.w_argv w));
      chat_request (join blank_line texts ++ blank_line
                    ++ AskLocal.question (AskLocal.w_argv w)) ].
Proof.
  intros [q [lat [st [labels [Hw [Hlat [Hs Hall]]]]]]].
  destruct (ask_run_cases closer finite w)
    as [[ex [Hf Hrun]]|[q' [lat' [st' [Hw' [Hlat' Hrest]]]]]].
  - rewrite Hw in Hf. simpl in Hf.
    destruct (Z.ltb_spec 600 lat); [lia|discriminate].
  - rewrite Hw in Hw'. injection Hw' as _ _ <-.
    destruct Hrest as [[ex [Hs' Hrun]]|[labels' [t [Hs' [Hp [Hq Hrest]]]]]];
      [congruence|].
    rewrite Hs in Hs'. injection Hs' as <-.
    destruct Hrest as [[ex [Hnot Hrun]]|[texts' [Hall' Hrun]]].
    + exfalso. exact (Hnot texts Hall).
    + rewrite Hrun. simpl. rewrite (block_of_functional Hall Hall').
      rewrite posts_app, Hp. simpl.
      destruct (chat_outcome (AskLocal.w_chat w)); reflexivity.
Qed.

(** X11.  Ask on what ingest has written.  Let a run of ingest in which
    no size lookup for a record failed write an index and its metadata,
    and let ask load the two, obtain for its question a vector of the
    dimension of the index, and be able to read every file ingest
    considered.  Then no lookup [meta[i]] fails, whatever the number of
    documents: the context has exactly three blocks, each the first 800
    characters of the current text of a file that ingest considered, and
    the chat request with these blocks and the question is sent. *)
Theorem ask_over_an_ingested_corpus (l : list entry)
  (idx : Faiss.index scalar) (records : list file_record) (w : world)
  (q : Faiss.vec scalar) (latency status : Z) :
  forallb restat_ok l = true ->
  persisted (IngestLocal.run ROOT l) idx records ->
  AskLocal.w_index w = idx ->
  AskLocal.w_meta w = records ->
  AskLocal.w_embeddings w
    = Http.Answer latency status (Http.EmbObject (Some (Http.Numbers q))) ->
  (latency <= 600)%Z ->
  List.length q = Faiss.d idx ->
  (forall e, In e l -> eligible e = true ->
     exists bs, AskLocal.w_files w (str (IngestLocal.e_path e)) = Ok bs) ->
  exists texts,
    List.length texts = 3%nat
    /\ Forall (fun text =>
                 exists e bs,
                   In e l /\ eligible e = true
                   /\ AskLocal.w_files w (str (IngestLocal.e_path e)) = Ok bs
                   /\ text = slice_to 800 (decode_text bs)) texts
    /\ posts (snd (AskLocal.run closer finite w))
       = [ embed_request (AskLocal.question (AskLocal.w_argv w));
           chat_request (join blank_line texts ++ blank_line
                         ++ AskLocal.question (AskLocal.w_argv w)) ].
Proof.
  intros Hok Hp Hi Hm Hw Hlat Hq Hfiles.
  destruct (rows_match_records_when_restat_succeeds ROOT l Hok Hp) as [Hlen _].
  pose proof (persisted_index_not_empty _ _ Hp) as Hne.
  destruct (persisted_is_store _ _ Hp) as [_ Hrec].
  destruct (@search_succeeds _ closer finite idx q 3 Hq) as [labels Hs].
  pose proof (@search_labels_range idx q 3 labels Hs) as Hrange.
  pose proof (@search_length _ closer finite idx q 3 labels Hs) as Hthree.
  assert (Hblocks :
            Forall (fun i =>
                      exists text,
                        block_of w i text
                        /\ exists e bs,
                             In e l /\ eligible e = true
                             /\ AskLocal.w_files w (str (IngestLocal.e_path e))
                                = Ok bs
                             /\ text = slice_to 800 (decode_text bs)) labels).
  { eapply Forall_impl; [|exact Hrange]. intros i Hi'.
    destruct (@getitem_in_range _ records i) as [rec [Hget Hin]].
    - intros E. apply Hne. apply length_zero_iff_nil. now rewrite Hlen, E.
    - unfold Faiss.ntotal in Hi'. now rewrite Hlen in Hi'.
    - rewrite Hrec in Hin.
      destruct (meta_fold _ _ _ Hin) as [[]|[e [He [Hel Hpath]]]].
      destruct (Hfiles e He Hel) as [bs Hbs].
      exists (slice_to 800 (decode_text bs)). split.
      + exists rec, bs. rewrite Hm, Hpath. auto.
      + exists e, bs. auto. }
  destruct (@blocks_exist w _ labels Hblocks) as [texts [Hf2 Hall]].
  exists texts. split; [|split].
  - etransitivity; [symmetry; exact (Forall2_length Hf2)|exact Hthree].
  - exact Hall.
  - apply retrieved_posts. exists q, latency, status, labels.
    rewrite Hi. auto.
Qed.

End MoreTogether.

Lemma ask_over_an_ingested_corpus_witness :
  let w :=
    Examples.ask_world
      ({| Faiss.d := 2; Faiss.xb := [Examples.vector_a; Examples.vector_b] |},
       [ Examples.record "/home/u/HARALD/a.md" 5;
         Examples.record "/home/u/HARALD/b.md" 4 ])
      [Py.lit "who"] (Examples.answers Examples.vector_a)
      (Examples.chat_after 1) in
  exists texts,
    List.length texts = 3%nat
    /\ Forall (fun text =>
                 exists e bs,
                   In e MoreExamples.two_documents
                   /\ IngestSpec.eligible e = true
                   /\ AskLocal.w_files w (PathLib.str (IngestLocal.e_path e))
                      = Py.Ok bs
                   /\ text = Py.slice_to 800 (Py.decode_text bs)) texts
    /\ IngestSpec.posts (snd (AskLocal.run Examples.closer Examples.finite w))
       = [ IngestSpec.embed_request (AskLocal.question (AskLocal.w_argv w));
           AskSpec.chat_request
             (Py.join AskSpec.blank_line texts ++ AskSpec.blank_line
              ++ AskLocal.question (AskLocal.w_argv w)) ].
Proof.
  intros w.
  apply (@ask_over_an_ingested_corpus Z Examples.root Examples.closer Examples.finite
           MoreExamples.two_documents
           {| Faiss.d := 2; Faiss.xb := [Examples.vector_a; Examples.vector_b] |}
           [ Examples.record "/home/u/HARALD/a.md" 5;
             Examples.record "/home/u/HARALD/b.md" 4 ]
           w Examples.vector_a 2%Z 200%Z).
  - reflexivity.
  - vm_compute. auto.
  - reflexivity.
  - reflexivity.
  - reflexivity.
  - lia.
  - reflexivity.
  - intros e [<-|[<-|[]]] _; eexists; reflexivity.
Defined.

(** ** A second run after a first *)

Section MoreTwoRuns.
Import Py PathLib Proc IngestSpec Quiescent TwoRunsSpec CoverageSpec.
Context {scalar : Type}.
Variable ROOT : path.
Variable service : pystr -> Http.reply (Http.embeddings_body scalar).
Variable serialize : Faiss.index scalar -> list byte.
Variable place : Quiescent.tree -> path -> nat.

Local Abbreviation tree := (Quiescent.tree).
Local Abbreviation observe := (Quiescent.observe service).
Local Abbreviation write_file := (Quiescent.write_file place).

(** A file that has been written is in the tree, with its content. *)
Lemma write_file_In (t : tree) (p : path) (content : list byte) :
  In (p, RegularFile content) (write_file t p content).
Proof.
  unfold Quiescent.write_file. destruct (listed t p) eqn:Hl.
  - unfold listed in Hl. induction t as [|[p' n] t IH]; simpl in *;
      [discriminate|].
    destruct (path_eqb p' p) eqn:E.
    + apply path_eqb_eq in E. subst p'. now left.
    + right. apply IH. exact Hl.
  - apply in_or_app. right. now left.
Qed.

(** The text of the metadata is never empty: it has its brackets. *)
Lemma dumps_not_empty (records : list file_record) :
  Json.ascii_bytes (Json.dumps records) <> [].
Proof. unfold Json.dumps, Json.ascii_bytes. simpl. discriminate. Qed.

(** The metadata file, once it has content, passes the filter. *)
Lemma meta_file_eligible (content : list byte) :
  content <> [] ->
  eligible (observe (meta_file ROOT, RegularFile content)) = true.
Proof.
  intros Hc. unfold eligible. simpl.
  assert (H : extension_matches (meta_file ROOT) = true).
  { unfold extension_matches, suffix, name, meta_file, div.
    rewrite last_last. reflexivity. }
  rewrite H. simpl. apply Z.ltb_lt.
  destruct content; [congruence|simpl List.length; lia].
Qed.

(** X12.  After a run that has written its two files, the next run on
    the same tree finds the metadata file of the first below [ROOT]: it
    reads [data/repo.meta.json], sends the first 800 characters of the
    JSON text to the embedding service, and, when the service gives a
    vector for them, records the file with its size among the documents
    of the corpus. *)
Theorem second_run_embeds_the_metadata_file (t : tree)
  (idx : Faiss.index scalar) (records : list file_record) :
  persisted (ingest ROOT service t) idx records ->
  let content := Json.ascii_bytes (Json.dumps records) in
  let second := second_run ROOT service serialize place t in
  In (str (meta_file ROOT)) (reads (trace second))
  /\ In (embed_request (chunk_of content)) (posts (trace second))
  /\ (forall v, embedded (service (chunk_of content)) = Some v ->
        In {| r_path := str (meta_file ROOT);
              r_bytes := Z.of_nat (List.length content) |}
           (meta_of second)).
Proof.
  intros Hp content second.
  pose proof Hp as [Hi Hm]. unfold trace in Hi, Hm.
  pose proof (persisted_not_aborted _ _ Hp) as H1.
  pose proof (write_file_filter service place _ (meta_file ROOT) content
                (write_file_filter service place _ (index_file ROOT)
                   (serialize idx) H1))
    as H2.
  assert (Ht : second
               = ingest ROOT service
                   (write_file (write_file t (index_file ROOT) (serialize idx))
                               (meta_file ROOT) content)).
  { unfold second, second_run, tree_after. now rewrite Hi, Hm. }
  rewrite Ht. clear Ht.
  set (t' := write_file (write_file t (index_file ROOT) (serialize idx))
                        (meta_file ROOT) content) in *.
  assert (Hin : In (meta_file ROOT, RegularFile content) t')
    by apply write_file_In.
  assert (Hel : eligible (observe (meta_file ROOT, RegularFile content)) = true)
    by apply meta_file_eligible, dumps_not_empty.
  split; [|split].
  - unfold ingest. rewrite (run_reads_complete ROOT _ H2).
    apply in_map_iff.
    exists (observe (meta_file ROOT, RegularFile content)).
    split; [reflexivity|]. apply filter_In.
    split; [apply in_map; exact Hin|exact Hel].
  - unfold ingest.
    destruct (run_calls ROOT (map observe t')) as [_ [Hposts _]].
    rewrite Hposts, posts_calls_exact, (scanned_all _ H2).
    apply in_flat_map.
    exists (observe (meta_file ROOT, RegularFile content)).
    split; [apply in_map; exact Hin|].
    unfold requests_of. rewrite Hel. simpl. now left.
  - intros v Hv. rewrite (quiescent_meta ROOT service _ H2).
    apply in_map_iff.
    exists (v, {| r_path := str (meta_file ROOT);
                  r_bytes := Z.of_nat (List.length content) |}).
    split; [reflexivity|]. unfold rows_of. apply in_flat_map.
    exists (observe (meta_file ROOT, RegularFile content)).
    split; [apply in_map; exact Hin|].
    unfold row_of, vector_of. rewrite Hel. simpl.
    unfold chunk_of in Hv. rewrite Hv. now left.
Qed.

End MoreTwoRuns.

Lemma second_run_embeds_the_metadata_file_witness :
  In (PathLib.str (Quiescent.meta_file Examples.root))
     (IngestSpec.reads
        (IngestSpec.trace
           (Quiescent.second_run Examples.root Examples.constant_service
              Examples.index_bytes Examples.listed_last Examples.small_tree))).
Proof.
  destruct (@second_run_embeds_the_metadata_file Z Examples.root
              Examples.constant_service Examples.index_bytes Examples.listed_last
              Examples.small_tree
              {| Faiss.d := 2; Faiss.xb := [Examples.vector_a] |}
              [Examples.record "/home/u/HARALD/a.md" 5]) as [H _].
  - vm_compute. auto.
  - exact H.
Defined.

(** ** Runs of ingest that embed nothing *)

Section MoreEmptyRuns.
Import Py PathLib Proc IngestSpec CoverageSpec.
Context {scalar : Type}.
Variable ROOT : path.

Local Abbreviation entry := (IngestLocal.entry (scalar := scalar)).
Local Abbreviation store := (IngestLocal.store (scalar := scalar)).

Lemma fold_without_vectors (l : list entry) (s : store) :
  vectors l = [] -> fold_left step l s = s.
Proof.
  unfold vectors. revert s. induction l as [|e l IH]; intros s; simpl;
    [reflexivity|].
  intros H. apply app_eq_nil in H as [He Hl].
  unfold step. destruct (vector_of e); [discriminate|]. now apply IH.
Qed.

(** X13.  When no file yields a vector (the embedding service is down,
    say, or there is no eligible file), and the size lookup of the filter
    raises nowhere, the run still ends without an exception: it has sent
    one request per readable eligible file, its lists are as empty as at
    the start, it writes neither file, so that an index and metadata of
    an earlier run stay as they are, and its last event is the line
    "No files ingested ...". *)
Theorem run_without_vectors_writes_nothing (l : list entry) :
  existsb filter_raises l = false ->
  vectors l = [] ->
  exists t,
    IngestLocal.run ROOT l
    = (Ok tt, IngestLocal.initial, t ++ [Print MsgNoFiles])
    /\ forallb (fun ev => negb (is_write ev)) t = true
    /\ posts t = flat_map requests_of l.
Proof.
  intros H Hv.
  destruct (run_completed ROOT l H) as [r [t [u [Hp [Hrun [Hc _]]]]]].
  rewrite persist_spec in Hp.
  rewrite (fold_without_vectors l IngestLocal.initial Hv) in *.
  simpl in Hp. injection Hp as <- <-.
  exists t. split; [exact Hrun|]. split.
  - exact (loop_trace_has_no_write l t Hc).
  - now rewrite <- posts_outside, Hc, posts_calls_exact.
Qed.

End MoreEmptyRuns.

Lemma run_without_vectors_writes_nothing_witness :
  let l := [ Examples.regular "a.md" (Examples.bytes_of "alpha")
               Http.Unreachable ] in
  exists t,
    IngestLocal.run Examples.root l
    = (Py.Ok tt, IngestLocal.initial, t ++ [Proc.Print Proc.MsgNoFiles])
    /\ forallb (fun ev => negb (CoverageSpec.is_write ev)) t = true
    /\ IngestSpec.posts t = flat_map CoverageSpec.requests_of l.
Proof.
  intros l.
  apply (@run_without_vectors_writes_nothing Z Examples.root l).
  - reflexivity.
  - reflexivity.
Defined.

(** ** The chunk and the bytes of the file *)

Section MoreDecoder.
Import Py PathLib Proc IngestSpec AskSpec CoverageSpec.
Context {scalar : Type}.
Variable ROOT : path.

Local Abbreviation entry := (IngestLocal.entry (scalar := scalar)).
Local Abbreviation world := (AskLocal.world (scalar := scalar)).

Lemma utf8_decode_length_aux (n : nat) :
  forall bs, (List.length bs <= n)%nat ->
             (List.length (utf8_decode bs) <= List.length bs)%nat.
Proof.
  induction n as [|n IH]; intros bs Hn.
  - destruct bs; [simpl; lia|simpl in Hn; lia].
  - destruct bs as [|b0 r0]; [simpl; lia|].
    simpl List.length in Hn.
    assert (H0 : (List.length (utf8_decode r0) <= List.length r0)%nat)
      by (apply IH; lia).
    cbn [utf8_decode]. cbv zeta.
    destruct (Byte.to_N b0 <? 128)%N; [simpl List.length; lia|].
    destruct ((194 <=? Byte.to_N b0) && (Byte.to_N b0 <=? 223))%N.
    { destruct r0 as [|b1 r1]; [simpl; lia|].
      destruct (is_cont (Byte.to_N b1)); [|simpl List.length in *; lia].
      simpl List.length in *.
      assert (List.length (utf8_decode r1) <= List.length r1)%nat
        by (apply IH; lia).
      lia. }
    destruct ((224 <=? Byte.to_N b0) && (Byte.to_N b0 <=? 239))%N.
    { destruct r0 as [|b1 [|b2 r2]]; try (simpl List.length in *; lia).
      destruct (second_ok (Byte.to_N b0) (Byte.to_N b1)
                && is_cont (Byte.to_N b2));
        [|simpl List.length in *; lia].
      simpl List.length in *.
      assert (List.length (utf8_decode r2) <= List.length r2)%nat
        by (apply IH; lia).
      lia. }
    destruct ((240 <=? Byte.to_N b0) && (Byte.to_N b0 <=? 244))%N.
    { destruct r0 as [|b1 [|b2 [|b3 r3]]]; try (simpl List.length in *; lia).
      destruct (second_ok (Byte.to_N b0) (Byte.to_N b1)
                && is_cont (Byte.to_N b2) && is_cont (Byte.to_N b3));
        [|simpl List.length in *; lia].
      simpl List.length in *.
      assert (List.length (utf8_decode r3) <= List.length r3)%nat
        by (apply IH; lia).
      lia. }
    simpl List.length. lia.
Qed.

Lemma translate_newlines_length_aux (n : nat) :
  forall s, (List.length s <= n)%nat ->
            (List.length (translate_newlines s) <= List.length s)%nat.
Proof.
  induction n as [|n IH]; intros s Hn.
  - destruct s; [simpl; lia|simpl in Hn; lia].
  - destruct s as [|c r]; [simpl; lia|].
    simpl List.length in Hn.
    assert (H0 : (List.length (translate_newlines r) <= List.length r)%nat)
      by (apply IH; lia).
    cbn [translate_newlines].
    destruct (c =? 13)%N; [|simpl List.length; lia].
    destruct r as [|c' r']; [simpl; lia|].
    destruct (c' =? 10)%N; [|simpl List.length in *; lia].
    simpl List.length in *.
    assert (List.length (translate_newlines r') <= List.length r')%nat
      by (apply IH; lia).
    lia.
Qed.

(** Decoding never gives more characters than there are bytes. *)
Lemma decode_text_length (bs : list byte) :
  (List.length (decode_text bs) <= List.length bs)%nat.
Proof.
  unfold decode_text.
  pose proof (@translate_newlines_length_aux _ (utf8_decode bs) (le_n _)).
  pose proof (@utf8_decode_length_aux _ bs (le_n _)).
  lia.
Qed.

(** X14.  The text ingest sends to the embedding service for a file,
    and the block ask reads from the file of a record, is a prefix of the
    decoded text of the file that never has more characters than the
    file has bytes and never more than 800; for a file of at most 800
    bytes it is the whole decoded text. *)
Theorem chunk_is_no_longer_than_the_file :
  (forall (l : list entry) (req : Http.request),
     In req (posts (trace (IngestLocal.run ROOT l))) ->
     exists e bs text rest,
       In e l /\ IngestLocal.e_read e = Ok bs
       /\ req = embed_request text
       /\ decode_text bs = text ++ rest
       /\ (List.length text <= Nat.min 800 (List.length bs))%nat
       /\ ((List.length bs <= 800)%nat -> text = decode_text bs))
  /\ (forall (w : world) (i : Z) (record : file_record) (bs : list byte),
        getitem (AskLocal.w_meta w) i = Ok record ->
        AskLocal.w_files w (r_path record) = Ok bs ->
        exists text rest,
          AskLocal.block w i tt = (Ok text, tt, [ReadText (r_path record)])
          /\ decode_text bs = text ++ rest
          /\ (List.length text <= Nat.min 800 (List.length bs))%nat
          /\ ((List.length bs <= 800)%nat -> text = decode_text bs)).
Proof.
  assert (Hcut : forall bs : list byte,
            exists rest,
              decode_text bs = slice_to 800 (decode_text bs) ++ rest
              /\ (List.length (slice_to 800 (decode_text bs))
                  <= Nat.min 800 (List.length bs))%nat
              /\ ((List.length bs <= 800)%nat ->
                  slice_to 800 (decode_text bs) = decode_text bs)).
  { intros bs. pose proof (decode_text_length bs) as Hd.
    exists (skipn 800 (decode_text bs)). unfold slice_to.
    split; [now rewrite firstn_skipn|]. split.
    - rewrite length_firstn. lia.
    - intros Hle. apply firstn_all2. lia. }
  split.
  - intros l req Hin.
    destruct (run_posts_sound ROOT l req Hin) as [e [bs [He [_ [Hr ->]]]]].
    destruct (Hcut bs) as [rest [Hpre [Hlen Hall]]].
    exists e, bs, (slice_to 800 (decode_text bs)), rest. auto 10.
  - intros w i record bs Hrec Hbs.
    destruct (Hcut bs) as [rest [Hpre [Hlen Hall]]].
    exists (slice_to 800 (decode_text bs)), rest.
    split; [exact (block_reads_prefix w i Hrec Hbs)|]. auto.
Qed.

(** X15.  A file of plain ASCII without carriage returns is embedded by
    its first 800 bytes, one character per byte: the run of ingest sends
    the request with exactly this prompt for every such file the loop
    gets to, and ask reads exactly these characters from such a file. *)
Theorem plain_ascii_file_is_cut_after_800_bytes (bs : list byte) :
  forallb (fun b => (Byte.to_N b <? 128)%N && negb (Byte.to_N b =? 13)%N) bs
    = true ->
  (forall (l : list entry) (e : entry),
     In e (scanned l) -> eligible e = true ->
     IngestLocal.e_read e = Ok bs ->
     In (embed_request (map Byte.to_N (firstn 800 bs)))
        (posts (trace (IngestLocal.run ROOT l))))
  /\ (forall (w : world) (i : Z) (record : file_record),
        getitem (AskLocal.w_meta w) i = Ok record ->
        AskLocal.w_files w (r_path record) = Ok bs ->
        AskLocal.block w i tt
        = (Ok (map Byte.to_N (firstn 800 bs)), tt, [ReadText (r_path record)])).
Proof.
  intros H.
  assert (Hcut : slice_to 800 (decode_text bs) = map Byte.to_N (firstn 800 bs)).
  { unfold slice_to. rewrite (decode_text_ascii bs H). apply firstn_map. }
  split.
  - intros l e Hin Hel Hread.
    destruct (run_calls ROOT l) as [_ [Hp _]].
    rewrite Hp, posts_calls_exact. apply in_flat_map. exists e.
    split; [exact Hin|]. unfold requests_of, chunk_of.
    rewrite Hel, Hread, Hcut. now left.
  - intros w i record Hrec Hbs. rewrite <- Hcut.
    exact (block_reads_prefix w i Hrec Hbs).
Qed.

End MoreDecoder.

Lemma chunk_is_no_longer_than_the_file_witness :
  let w := Examples.ask_world Examples.corpus3 []
             (Examples.answers Examples.vector_a) (Examples.chat_after 1) in
  exists text rest,
    AskLocal.block w 1 tt
    = (Py.Ok text, tt, [Proc.ReadText (Py.lit "/home/u/HARALD/b.md")])
    /\ Py.decode_text (Examples.bytes_of "beta") = text ++ rest
    /\ (List.length text
        <= Nat.min 800 (List.length (Examples.bytes_of "beta")))%nat
    /\ ((List.length (Examples.bytes_of "beta") <= 800)%nat ->
        text = Py.decode_text (Examples.bytes_of "beta")).
Proof.
  intros w.
  destruct (@chunk_is_no_longer_than_the_file Z Examples.root) as [_ H].
  apply (H w 1%Z (Examples.record "/home/u/HARALD/b.md" 4)
           (Examples.bytes_of "beta")).
  - reflexivity.
  - reflexivity.
Defined.

Lemma plain_ascii_file_is_cut_after_800_bytes_witness :
  let l := [ Examples.regular "long.md" (repeat "a"%byte 900)
               (Examples.answers Examples.vector_a) ] in
  In (IngestSpec.embed_request
        (map Byte.to_N (firstn 800 (repeat "a"%byte 900))))
     (IngestSpec.posts (IngestSpec.trace (IngestLocal.run Examples.root l))).
Proof.
  intros l.
  destruct (@plain_ascii_file_is_cut_after_800_bytes Z Examples.root
              (repeat "a"%byte 900)) as [H _].
  - vm_compute. reflexivity.
  - apply (H l (Examples.regular "long.md" (repeat "a"%byte 900)
                  (Examples.answers Examples.vector_a))).
    + simpl. now left.
    + vm_compute. reflexivity.
    + reflexivity.
Defined.

(** ** The two embedding calls side by side *)

Section MoreAgreement.
Import Py PathLib Proc IngestSpec AskSpec CoverageSpec.
Context {scalar : Type}.

(** X16.  On a healthy answer the embedding calls of the two scripts do
    the same: for the same text both send the same single request, print
    nothing, and obtain the same vector, so that the vector of a question
    is made the way the rows of the index were made. *)
Theorem embed_of_ask_agrees_with_embed_of_ingest {S} (text : pystr)
  (w : Http.reply (Http.embeddings_body scalar)) (v : Faiss.vec scalar)
  (s : S) :
  healthy w v ->
  IngestLocal.embed text w s = (Ok (Some v), s, [Post (embed_request text)])
  /\ AskLocal.embed text w tt = (Ok v, tt, [Post (embed_request text)]).
Proof.
  intros Hh. pose proof (proj2 (embedded_healthy w v) Hh) as He.
  destruct (embed_runs text w s) as [log [Hrun [_ [_ Hlen]]]].
  assert (Ho : embed_outcome w = Ok (Some v)).
  { unfold embed_outcome. destruct (unusable w) eqn:Hu; [|now rewrite He].
    rewrite (unusable_not_embedded w Hu) in He. discriminate. }
  rewrite Ho in Hrun, Hlen.
  destruct log; [|discriminate]. split; [exact Hrun|].
  destruct Hh as [latency [status [-> [Hl _]]]].
  now apply ask_embed_succeeds.
Qed.

End MoreAgreement.

Lemma embed_of_ask_agrees_with_embed_of_ingest_witness :
  IngestLocal.embed (Py.lit "alpha") (Examples.answers Examples.vector_a) tt
  = (Py.Ok (Some Examples.vector_a), tt,
     [Proc.Post (IngestSpec.embed_request (Py.lit "alpha"))])
  /\ AskLocal.embed (Py.lit "alpha") (Examples.answers Examples.vector_a) tt
     = (Py.Ok Examples.vector_a, tt,
        [Proc.Post (IngestSpec.embed_request (Py.lit "alpha"))]).
Proof.
  apply (@embed_of_ask_agrees_with_embed_of_ingest Z unit (Py.lit "alpha")
           (Examples.answers Examples.vector_a) Examples.vector_a tt).
  exists 2%Z, 200%Z. split; [reflexivity|]. split; lia.
Defined.

(** ** The statements of this part at concrete worlds *)

Lemma ingest_sends_one_request_per_readable_file_witness :
  IngestSpec.posts
    (IngestSpec.trace (IngestLocal.run Examples.root Examples.scenario))
  = flat_map CoverageSpec.requests_of Examples.scenario.
Proof.
  destruct (@ingest_sends_one_request_per_readable_file Z Examples.root
              Examples.scenario) as [_ [_ H]].
  apply H. reflexivity.
Defined.

Lemma chat_request_needs_the_whole_retrieval_witness :
  let w := Examples.ask_world Examples.corpus3 [Py.lit "who"]
             (Examples.answers Examples.vector_a) (Examples.chat_after 1) in
  let texts := [Py.lit "alpha"; Py.lit "beta"; Py.lit "gamma"] in
  IngestSpec.posts (snd (AskLocal.run Examples.closer Examples.finite w))
  = [ IngestSpec.embed_request (AskLocal.question (AskLocal.w_argv w));
      AskSpec.chat_request
        (Py.join AskSpec.blank_line texts ++ AskSpec.blank_line
         ++ AskLocal.question (AskLocal.w_argv w)) ].
Proof.
  intros w texts.
  destruct (@chat_request_needs_the_whole_retrieval Z Examples.closer Examples.finite w)
    as [H _].
  apply H.
  exists Examples.vector_a, 2%Z, 200%Z, [0; 1; 2]%Z.
  split; [reflexivity|]. split; [lia|]. split; [reflexivity|].
  repeat constructor.
  - exists (Examples.record "/home/u/HARALD/a.md" 5), (Examples.bytes_of "alpha").
    repeat split; reflexivity.
  - exists (Examples.record "/home/u/HARALD/b.md" 4), (Examples.bytes_of "beta").
    repeat split; reflexivity.
  - exists (Examples.record "/home/u/HARALD/c.md" 5), (Examples.bytes_of "gamma").
    repeat split; reflexivity.
Defined.


Lemma wrong_dimension_ends_ask_witness :
  let w := Examples.ask_world Examples.corpus3 [Py.lit "who"]
             (Examples.answers [1]%Z) (Examples.chat_after 1) in
  AskLocal.run Examples.closer Examples.finite w
  = (Py.Raise Py.AssertionError,
     [ Proc.Post (IngestSpec.embed_request
                    (AskLocal.question (AskLocal.w_argv w)));
       Proc.Search [1]%Z 3 ]).
Proof.
  intros w.
  apply (@wrong_dimension_ends_ask Z Examples.closer Examples.finite w [1]%Z 2%Z 200%Z).
  - reflexivity.
  - lia.
  - simpl. lia.
Defined.
